(** * IMAP-Migrator: a shallow embedding of [imap_migrator.py]

    The development follows the Python module function by function:
    the CSV loader [parse_mailboxes_csv], and the three runners
    [list_mailboxes], [backup_mailboxes] and [restore_mailboxes].  The
    library functions the module calls ([str.lower], [str.replace],
    [csv.DictReader], [os.path.join], [os.path.abspath], [os.path.relpath],
    [os.walk], [shlex.split]) are embedded from their CPython sources, on
    Python [str] values modelled as [string] (characters as [ascii]). *)

From Stdlib Require Import String Ascii List Bool Arith ZArith Lia.
Import ListNotations.
Open Scope string_scope.
Open Scope list_scope.

(** ** Python strings *)

Module Py.

(** [str.lower], on the ASCII letters.  (The loader compares the result
    with "false" only, and no character outside ASCII lowers to one of the
    letters f, a, l, s, e.) *)
Definition lower_ascii (c : ascii) : ascii :=
  let n := nat_of_ascii c in
  if Nat.leb 65 n && Nat.leb n 90 then ascii_of_nat (n + 32) else c.

Fixpoint lower (s : string) : string :=
  match s with
  | EmptyString => EmptyString
  | String c s' => String (lower_ascii c) (lower s')
  end.

(** The double-quote character, as a string. *)
Definition dq : string := String (ascii_of_nat 34) EmptyString.

(** Truth value of an optional string: [None] and the empty string are
    falsy. *)
Definition truthy (v : option string) : bool :=
  match v with
  | None => false
  | Some s => negb (s =? EmptyString)
  end.

(** [x in l] for a list of strings [l]; [None] is never a member. *)
Definition contains (l : list string) (x : option string) : bool :=
  match x with
  | None => false
  | Some s => existsb (String.eqb s) l
  end.

(** [l == r] on lists of strings. *)
Fixpoint list_eqb (l r : list string) : bool :=
  match l, r with
  | [], [] => true
  | x :: l', y :: r' => (x =? y) && list_eqb l' r'
  | _, _ => false
  end.

(** [str(v)] as [str.format] renders a field: [None] prints as "None". *)
Definition str (v : option string) : string :=
  match v with
  | None => "None"
  | Some s => s
  end.

(** [s.startswith(p)] and [s.endswith(p)]. *)
Definition startswith (s p : string) : bool := String.prefix p s.

Definition endswith (s p : string) : bool :=
  Nat.leb (String.length p) (String.length s) &&
  (substring (String.length s - String.length p) (String.length p) s =? p).

(** [s[:-n]] for a positive [n]. *)
Definition drop_last (n : nat) (s : string) : string :=
  substring 0 (String.length s - n) s.

(** [all(p(c) for c in s)] *)
Fixpoint all_chars (p : ascii -> bool) (s : string) : bool :=
  match s with
  | EmptyString => true
  | String c s' => p c && all_chars p s'
  end.

(** Whether [s] holds a NUL character, which [os.mkdir] and
    [subprocess.call] refuse with a [ValueError] ("embedded null byte"). *)
Definition has_nul (s : string) : bool :=
  negb (all_chars (fun c => negb (Ascii.eqb c zero)) s).

(** [len(s)]: a string stands for its UTF-8 bytes, and [len] counts
    characters, that is the bytes that do not continue a character
    (those outside 128..191). *)
Fixpoint len (s : string) : nat :=
  match s with
  | EmptyString => 0
  | String c s' =>
      (if Nat.leb 128 (nat_of_ascii c) && Nat.ltb (nat_of_ascii c) 192
       then 0 else 1) + len s'
  end.

(** [s.replace(old, new)] for a one-character [old]. *)
Fixpoint replace (old : ascii) (new : string) (s : string) : string :=
  match s with
  | EmptyString => EmptyString
  | String c s' =>
      if Ascii.eqb c old then new ++ replace old new s'
      else String c (replace old new s')
  end.

(** [s.split(sep)] for a one-character [sep]: never the empty list. *)
Fixpoint split (sep : ascii) (s : string) : list string :=
  match s with
  | EmptyString => [EmptyString]
  | String c s' =>
      if Ascii.eqb c sep then EmptyString :: split sep s'
      else match split sep s' with
           | [] => [String c EmptyString]
           | w :: ws => String c w :: ws
           end
  end.

End Py.

(** The spellings of a word with every letter in either case. *)
Definition upper_ascii (c : ascii) : ascii :=
  let n := nat_of_ascii c in
  if Nat.leb 97 n && Nat.leb n 122 then ascii_of_nat (n - 32) else c.

Fixpoint case_variants (w : string) : list string :=
  match w with
  | EmptyString => [EmptyString]
  | String c w' =>
      let rest := case_variants w' in
      if Ascii.eqb (upper_ascii c) c then map (String c) rest
      else map (String c) rest ++ map (String (upper_ascii c)) rest
  end.

(** ** Data model: [Mailbox] and [Migration] *)

Record Mailbox : Type := mkMailbox {
  type_ : string;
  username : option string;
  password : option string;
  host : option string;
  port : option string;
  use_ssl : bool
}.

(** [Mailbox.__init__]: [use_ssl] is [False] when passed [None]. *)
Definition Mailbox_init (type_ : string) (username password host port : option string)
    (use_ssl : option bool) : Mailbox :=
  mkMailbox type_ username password host port
    (match use_ssl with None => false | Some b => b end).

Record Migration : Type := mkMigration {
  old : Mailbox;
  new : Mailbox
}.

(** ** The loader: [csv.DictReader] and [parse_mailboxes_csv] *)

(** One dictionary of the [DictReader]: the ten field names zipped with the
    record, the names past the end of a short record bound to [restval],
    which is [None].  (Fields past the tenth go under [restkey], which the
    loader never reads.) *)
Record CsvRow : Type := mkCsvRow {
  old_username : option string;
  old_pass : option string;
  old_host : option string;
  old_port : option string;
  old_ssl : option string;
  new_username : option string;
  new_pass : option string;
  new_host : option string;
  new_port : option string;
  new_ssl : option string
}.

Definition dict_of_record (row : list string) : CsvRow :=
  mkCsvRow (nth_error row 0) (nth_error row 1) (nth_error row 2)
           (nth_error row 3) (nth_error row 4) (nth_error row 5)
           (nth_error row 6) (nth_error row 7) (nth_error row 8)
           (nth_error row 9).

(** [DictReader.__next__] skips the records that are [[]] (blank lines). *)
Definition DictReader (records : list (list string)) : list CsvRow :=
  map dict_of_record
      (filter (fun r => match r with [] => false | _ => true end) records).

(** [False if row[k] is not None and row[k].lower() == 'false' else True] *)
Definition parse_ssl (field : option string) : bool :=
  match field with
  | Some v => if Py.lower v =? "false" then false else true
  | None => true
  end.

(** The "Default ports" block, for one side of the row. *)
Definition default_port (port_field : option string) (ssl : bool) : option string :=
  if negb (Py.truthy port_field) then
    if ssl then Some "993" else Some "143"
  else port_field.

Definition old_mailbox_of (row : CsvRow) : Mailbox :=
  let ssl := parse_ssl (old_ssl row) in
  Mailbox_init "old" (old_username row) (old_pass row) (old_host row)
               (default_port (old_port row) ssl) (Some ssl).

Definition new_mailbox_of (row : CsvRow) : Mailbox :=
  let ssl := parse_ssl (new_ssl row) in
  Mailbox_init "new" (new_username row) (new_pass row) (new_host row)
               (default_port (new_port row) ssl) (Some ssl).

Definition migration_of (row : CsvRow) : Migration :=
  mkMigration (old_mailbox_of row) (new_mailbox_of row).

(** [mailboxes_filter == ["all"] or old_mailbox.username in mailboxes_filter] *)
Definition selected (mailboxes_filter : list string) (m : Migration) : bool :=
  Py.list_eqb mailboxes_filter ["all"] ||
  Py.contains mailboxes_filter (username (old m)).

(** The [for row in csv_reader] loop, [migrations] being the accumulator. *)
Fixpoint parse_rows (mailboxes_filter : list string) (rows : list CsvRow)
    (migrations : list Migration) : list Migration :=
  match rows with
  | [] => migrations
  | row :: rest =>
      let m := migration_of row in
      parse_rows mailboxes_filter rest
        (if selected mailboxes_filter m then migrations ++ [m] else migrations)
  end.

(** What [open(csv_path)] does, in the cases the loader tells apart: the
    two errors it handles, and a file that is opened and read to its end,
    with the records read.  Any other error of [open], and an error while
    the records are read, leaves the loader as an exception before a
    record is logged; these are not among the cases. *)
Inductive open_result : Type :=
| FileNotFoundError
| PermissionError
| Opened (records : list (list string)).

Inductive level : Type := DEBUG | INFO | WARNING | ERROR | CRITICAL.

(** The loader either returns the migrations or logs and calls [exit]. *)
Inductive loaded : Type :=
| Loaded (migrations : list Migration)
| Exit (status : Z) (lvl : level) (message : string).

Definition parse_mailboxes_csv (csv_path : string) (handle : open_result)
    (mailboxes_filter : list string) : loaded :=
  match handle with
  | FileNotFoundError =>
      Exit 1%Z CRITICAL ("CSV file " ++ Py.dq ++ csv_path ++ Py.dq ++ " not found.")
  | PermissionError =>
      Exit 1%Z CRITICAL ("Access denied to CSV file " ++ Py.dq ++ csv_path ++ Py.dq)
  | Opened records =>
      Loaded (parse_rows mailboxes_filter (DictReader records) [])
  end.

(** ** [posixpath]: [join], [normpath], [abspath], [relpath] *)

Module posixpath.

Definition isabs (s : string) : bool := Py.startswith s "/".

(** One turn of the loop of [join(a, *p)]. *)
Definition join2 (path b : string) : string :=
  if Py.startswith b "/" then b
  else if (path =? EmptyString) || Py.endswith path "/" then path ++ b
  else path ++ "/" ++ b.

Definition join (a : string) (p : list string) : string :=
  fold_left join2 p a.

(** The number of slashes [normpath] keeps in front. *)
Definition initial_slashes (path : string) : nat :=
  if Py.startswith path "/" then
    if Py.startswith path "//" && negb (Py.startswith path "///") then 2 else 1
  else 0.

(** One turn of the [for comp in comps] loop of [normpath]. *)
Definition norm_step (slashes : nat) (new_comps : list string) (comp : string)
    : list string :=
  if (comp =? EmptyString) || (comp =? ".") then new_comps
  else if negb (comp =? "..")
          || (Nat.eqb slashes 0 && Nat.eqb (List.length new_comps) 0)
          || (List.last new_comps EmptyString =? "..")
       then new_comps ++ [comp]
       else removelast new_comps.

Fixpoint slashes_string (n : nat) : string :=
  match n with
  | O => EmptyString
  | S k => String "/" (slashes_string k)
  end.

Definition normpath (path : string) : string :=
  if path =? EmptyString then "."
  else
    let slashes := initial_slashes path in
    let comps := fold_left (norm_step slashes) (Py.split "/" path) [] in
    let path' := (slashes_string slashes ++ String.concat "/" comps)%string in
    if path' =? EmptyString then "." else path'.

(** [cwd] is what [os.getcwd()] returns. *)
Definition abspath (cwd path : string) : string :=
  normpath (if isabs path then path else join cwd [path]).

(** [commonprefix([l1, l2])] on two lists of components: the loop walks the
    smaller list against the larger one up to the first difference, which
    is their longest common prefix whichever of the two is the smaller. *)
Fixpoint commonprefix (l1 l2 : list string) : list string :=
  match l1, l2 with
  | x :: l1', y :: l2' => if x =? y then x :: commonprefix l1' l2' else []
  | _, _ => []
  end.

Definition nonempty (s : string) : bool := negb (s =? EmptyString).

(** [relpath(path, start)]; [None] is the [ValueError] on an empty path. *)
Definition relpath (cwd path start : string) : option string :=
  if path =? EmptyString then None
  else
    let start_list := filter nonempty (Py.split "/" (abspath cwd start)) in
    let path_list := filter nonempty (Py.split "/" (abspath cwd path)) in
    let i := List.length (commonprefix start_list path_list) in
    let rel_list :=
      repeat ".." (List.length start_list - i) ++ skipn i path_list in
    match rel_list with
    | [] => Some "."
    | a :: p => Some (join a p)
    end.

End posixpath.

(** ** The backup tree and [os.walk] *)

(** What [os.scandir] finds under a name: a file (or anything that is not a
    directory), a directory with its entries, or a symbolic link to a
    directory, which [os.walk] lists among the directories and does not
    enter. *)
#[warning="-register-all"]
Inductive node : Type :=
| File
| Dir (entries : list (string * node))
| DirLink.

Definition is_dir (n : node) : bool :=
  match n with File => false | _ => true end.

Definition dirnames (entries : list (string * node)) : list string :=
  map fst (filter (fun e => is_dir (snd e)) entries).

Definition filenames (entries : list (string * node)) : list string :=
  map fst (filter (fun e => negb (is_dir (snd e))) entries).

(** [os.walk(top)], top-down: the triple of the directory itself, then the
    walks of its sub-directories in the order of the listing.  Nothing is
    produced for what is not a directory ([scandir] fails), and a linked
    directory is not entered. *)
Fixpoint walk (top : string) (n : node) {struct n}
    : list (string * list string * list string) :=
  match n with
  | Dir entries =>
      (top, dirnames entries, filenames entries)
      :: (fix below (dirs : list (string * node)) :=
            match dirs with
            | [] => []
            | (dirname, sub) :: rest =>
                walk (posixpath.join top [dirname]) sub ++ below rest
            end) entries
  | _ => []
  end.

(** [os.walk] of a path, [fs] giving what the path leads to. *)
Definition os_walk (fs : string -> option node) (top : string)
    : list (string * list string * list string) :=
  match fs top with
  | Some n => walk top n
  | None => []
  end.

(** A file name sits at the component path [P] below a directory. *)
Inductive located : list (string * node) -> list string -> string -> Prop :=
| located_here entries f :
    In f (filenames entries) -> located entries [] f
| located_below entries d sub P f :
    In (d, Dir sub) entries -> located sub P f ->
    located entries (d :: P) f.

(** Names as a file system gives them: not empty, no slash, neither "."
    nor "..". *)
Fixpoint no_slash (s : string) : bool :=
  match s with
  | EmptyString => true
  | String c s' => negb (Ascii.eqb c "/") && no_slash s'
  end.

(** A component of a normalized path: not empty, no slash. *)
Definition plain (s : string) : Prop := s <> EmptyString /\ no_slash s = true.

Definition good_name (s : string) : bool :=
  negb (s =? EmptyString) && negb (s =? ".") && negb (s =? "..") && no_slash s.

Fixpoint good_tree (n : node) {struct n} : Prop :=
  match n with
  | Dir entries =>
      (fix all (es : list (string * node)) : Prop :=
         match es with
         | [] => True
         | (name, sub) :: rest =>
             good_name name = true /\ good_tree sub /\ all rest
         end) entries
  | _ => True
  end.

(** ** Paths in a file tree *)





(** ** [shlex.split] (POSIX mode, [whitespace_split], no comment characters) *)

Module shlex.

(** [self.state]: [' '], ['a'], a quote character, or the escape
    character.  (The state [None] is reached at the end of the input only,
    which [finish] handles.) *)
Inductive lex_state : Type :=
| in_space
| in_word
| in_quote (q : ascii)
| in_escape (e : ascii).

(** The lexer between two characters: [tokens] are the tokens returned so
    far; [quoted] and [escapedstate] are the locals of [read_token], reset
    whenever a token has been returned. *)
Record lexer : Type := mkLexer {
  state : lex_state;
  token : string;
  quoted : bool;
  escapedstate : lex_state;
  tokens : list string
}.

Definition whitespace (c : ascii) : bool :=
  Ascii.eqb c " " || Ascii.eqb c (ascii_of_nat 9)
  || Ascii.eqb c (ascii_of_nat 13) || Ascii.eqb c (ascii_of_nat 10).

Definition quotes (c : ascii) : bool :=
  Ascii.eqb c "'" || Ascii.eqb c (ascii_of_nat 34).

Definition escape (c : ascii) : bool := Ascii.eqb c "\".

Definition escapedquotes (c : ascii) : bool := Ascii.eqb c (ascii_of_nat 34).

Definition init : lexer := mkLexer in_space EmptyString false in_space [].

(** [token += nextchar] *)
Definition push (tok : string) (c : ascii) : string :=
  (tok ++ String c EmptyString)%string.

(** [if self.token or (self.posix and quoted): break], the lexer moving to
    [st]: the token is returned and the locals start afresh; otherwise
    [continue]. *)
Definition break_or_continue (st : lex_state) (lx : lexer) : lexer :=
  if negb (token lx =? EmptyString) || quoted lx
  then mkLexer st EmptyString false in_space (tokens lx ++ [token lx])
  else mkLexer st (token lx) (quoted lx) (escapedstate lx) (tokens lx).

(** One turn of the [while True] loop of [read_token] on a character.  In
    the states [' '] and ['a'] the branches for word characters and for
    [whitespace_split] do the same, and no word character is a quote or
    the escape character, so one default branch stands for both. *)
Definition step (lx : lexer) (c : ascii) : lexer :=
  match state lx with
  | in_space =>
      if whitespace c then break_or_continue in_space lx
      else if escape c then
        mkLexer (in_escape c) (token lx) (quoted lx) in_word (tokens lx)
      else if quotes c then
        mkLexer (in_quote c) (token lx) (quoted lx) (escapedstate lx) (tokens lx)
      else
        mkLexer in_word (String c EmptyString) (quoted lx) (escapedstate lx)
                (tokens lx)
  | in_quote q =>
      if Ascii.eqb c q then
        mkLexer in_word (token lx) true (escapedstate lx) (tokens lx)
      else if escape c && escapedquotes q then
        mkLexer (in_escape c) (token lx) true (in_quote q) (tokens lx)
      else
        mkLexer (in_quote q) (push (token lx) c) true (escapedstate lx)
                (tokens lx)
  | in_escape e =>
      let tok :=
        match escapedstate lx with
        | in_quote q =>
            if negb (Ascii.eqb c e) && negb (Ascii.eqb c q)
            then push (token lx) e else token lx
        | _ => token lx
        end in
      mkLexer (escapedstate lx) (push tok c) (quoted lx) (escapedstate lx)
              (tokens lx)
  | in_word =>
      if whitespace c then break_or_continue in_space lx
      else if quotes c then
        mkLexer (in_quote c) (token lx) (quoted lx) (escapedstate lx) (tokens lx)
      else if escape c then
        mkLexer (in_escape c) (token lx) (quoted lx) in_word (tokens lx)
      else
        mkLexer in_word (push (token lx) c) (quoted lx) (escapedstate lx)
                (tokens lx)
  end.

Fixpoint run (lx : lexer) (s : string) : lexer :=
  match s with
  | EmptyString => lx
  | String c s' => run (step lx c) s'
  end.

(** The end of the input: [ValueError] inside quotes or after the escape
    character; otherwise the pending token, if any, is the last one. *)
Definition finish (lx : lexer) : option (list string) :=
  match state lx with
  | in_quote _ => None
  | in_escape _ => None
  | _ =>
      if negb (token lx =? EmptyString) || quoted lx
      then Some (tokens lx ++ [token lx])
      else Some (tokens lx)
  end.

Definition split (s : string) : option (list string) := finish (run init s).

End shlex.

(** A string without whitespace, quote or escape characters: the lexer
    takes it as it is, inside a word or inside quotes. *)
Definition benign (s : string) : bool :=
  Py.all_chars
    (fun c => negb (shlex.whitespace c || shlex.quotes c || shlex.escape c)) s.

(** A string without double quote and without escape character: between
    double quotes the lexer takes it as it is. *)
Definition double_quotable (s : string) : bool :=
  Py.all_chars (fun c => negb (shlex.escapedquotes c || shlex.escape c)) s.

(** States the lexer can be in: a quote state is on a quote character, and
    the escape state returns to a word or to a quote state. *)
Definition reachable (lx : shlex.lexer) : Prop :=
  match shlex.state lx with
  | shlex.in_quote q => shlex.quotes q = true
  | shlex.in_escape _ =>
      match shlex.escapedstate lx with
      | shlex.in_word => True
      | shlex.in_quote q => shlex.quotes q = true
      | _ => False
      end
  | _ => True
  end.

(** Between two tokens, nothing pending. *)
Definition fresh (lx : shlex.lexer) : Prop :=
  shlex.state lx = shlex.in_space /\ shlex.token lx = EmptyString /\
  shlex.quoted lx = false.

(** Inside a quotation. *)
Definition in_quotes (lx : shlex.lexer) : Prop :=
  exists q, shlex.state lx = shlex.in_quote q /\ shlex.quotes q = true.

(** Outside a double quotation and not after the escape character. *)
Definition outside_double (lx : shlex.lexer) : Prop :=
  shlex.state lx = shlex.in_space \/ shlex.state lx = shlex.in_word \/
  shlex.state lx = shlex.in_quote "'".

(** ** Effects: the log, the child processes, the directories *)

(** What a run does, in order.  [Call cmdl r] is [subprocess.call(cmdl)]
    with its exit status, or [None] when no process could be started;
    [LogList] is a [logger] call whose message is a list of arguments. *)
Inductive event : Type :=
| Log (lvl : level) (message : string)
| LogList (lvl : level) (args : list string)
| Call (cmdl : list string) (return_code : option Z)
| Print (return_code : Z)
| Makedirs (path : string)
| Mkdir (path : string).

Inductive exn : Type :=
| ValueError
| AttributeError
| IndexError
| OSError.

Inductive mkdir_result : Type := Created | FileExistsError | MkdirFailed.

(** [l[-n] = v] on a copy of [l]; [None] is the [IndexError]. *)
Definition set_from_end (n : nat) (v : string) (l : list string)
    : option (list string) :=
  if Nat.ltb (List.length l) n then None
  else Some (firstn (List.length l - n) l ++ v :: skipn (List.length l - n + 1) l).

(** [getattr(migration, type_)] as far as the lister uses it: anything but
    a mailbox ends in an [AttributeError]. *)
Definition getattr (migration : Migration) (type_ : string) : option Mailbox :=
  if type_ =? "old" then Some (old migration)
  else if type_ =? "new" then Some (new migration)
  else None.

(** The per-user directory name: [username.replace("@", "_at_")]. *)
Definition user_dir_name (username : string) : string :=
  Py.replace "@" "_at_" username.

(** [user_output_dir] of the backup and [user_backup_dir] of the restore. *)
Definition user_output_dir (cwd output_dir name : string) : string :=
  posixpath.abspath cwd (posixpath.join output_dir [user_dir_name name]).

Definition user_backup_dir (backup_dir name : string) : string :=
  posixpath.join backup_dir [user_dir_name name].

(** The command lines, as [str.format] builds them. *)
Definition list_command (mailbox : Mailbox) : string :=
  "imapbackup/imapgrab.py -l -s " ++ Py.str (host mailbox)
  ++ " -u " ++ Py.dq ++ Py.str (username mailbox) ++ Py.dq
  ++ " -p " ++ Py.dq ++ Py.str (password mailbox) ++ Py.dq.

Definition backup_command (mailbox : Mailbox) (user_output_dir : string) : string :=
  "imapbackup/imapgrab.py -v -d " ++ (if use_ssl mailbox then "-S" else EmptyString)
  ++ " -f " ++ Py.dq ++ user_output_dir ++ Py.dq
  ++ " -s " ++ Py.dq ++ Py.str (host mailbox) ++ Py.dq
  ++ " -u " ++ Py.dq ++ Py.str (username mailbox) ++ Py.dq
  ++ " -p " ++ Py.dq ++ Py.str (password mailbox) ++ Py.dq
  ++ " -m " ++ Py.dq ++ "_ALL_" ++ Py.dq.

Definition restore_command (mailbox : Mailbox) (box_path mbox_file : string)
    : string :=
  "imap_upload/imap_upload.py --retry 3 "
  ++ (if use_ssl mailbox then "--ssl" else EmptyString)
  ++ " --host " ++ Py.dq ++ Py.str (host mailbox) ++ Py.dq
  ++ " --port " ++ Py.str (port mailbox)
  ++ " --user " ++ Py.dq ++ Py.str (username mailbox) ++ Py.dq
  ++ " --password " ++ Py.dq ++ Py.str (password mailbox) ++ Py.dq
  ++ " --box " ++ Py.dq ++ box_path ++ Py.dq
  ++ " " ++ Py.dq ++ mbox_file ++ Py.dq.

(** [os.path.relpath(box_file_relpath, user_backup_dir)[:-5]] *)
Definition box_imap_path (cwd user_backup_dir root filename : string)
    : option string :=
  option_map (Py.drop_last 5)
    (posixpath.relpath cwd (posixpath.join root [filename]) user_backup_dir).

Section Runners.

(** The outside world: the state that decides what child processes return
    and whether directories can be made, the working directory, and the
    file tree the restore reads (taken as it is when the restore starts). *)
Variable World : Type.
Variable subprocess_call : list string -> World -> option Z * World.
Variable os_makedirs : string -> World -> bool * World.
Variable os_mkdir : string -> World -> mkdir_result * World.
Variable cwd : string.
Variable fs : string -> option node.

Record run_state : Type := mkState {
  world : World;
  trace : list event
}.

(** A computation reads and updates the state and returns a value or
    raises an exception. *)
Definition M (A : Type) : Type := run_state -> (exn + A) * run_state.

Definition ret {A} (a : A) : M A := fun s => (inr a, s).

Definition bind {A B} (m : M A) (f : A -> M B) : M B :=
  fun s =>
    match m s with
    | (inl e, s') => (inl e, s')
    | (inr a, s') => f a s'
    end.

Notation "x <- m ;; k" := (bind m (fun x => k))
  (at level 61, m at next level, right associativity).
Notation "m ;;; k" := (bind m (fun _ => k))
  (at level 61, right associativity).

(** An optional value, [None] raising [e]. *)
Definition or_raise {A} (e : exn) (v : option A) : M A :=
  fun s => match v with Some a => (inr a, s) | None => (inl e, s) end.

Definition emit (e : event) : M unit :=
  fun s => (inr tt, mkState (world s) (trace s ++ [e])).

(** [subprocess.call(cmdl)]: an argument with a NUL character is refused
    with a [ValueError] before a process is started; otherwise the world
    says what the child process returns, or that none could be started
    ([OSError]). *)
Definition call (cmdl : list string) : M Z :=
  fun s =>
    if existsb Py.has_nul cmdl
    then (inl ValueError, mkState (world s) (trace s ++ [Call cmdl None]))
    else
      let (r, w) := subprocess_call cmdl (world s) in
      let s' := mkState w (trace s ++ [Call cmdl r]) in
      match r with
      | Some return_code => (inr return_code, s')
      | None => (inl OSError, s')
      end.

(** [os.makedirs(path, exist_ok=True)]: an [OSError] when the world says
    so; a NUL character in the path is a [ValueError], raised when the
    last directory is to be made. *)
Definition makedirs_exist_ok (path : string) : M unit :=
  fun s =>
    let (ok, w) := os_makedirs path (world s) in
    let s' := mkState w (trace s ++ [Makedirs path]) in
    if ok then
      if Py.has_nul path then (inl ValueError, s') else (inr tt, s')
    else (inl OSError, s').

(** [try: os.mkdir(d) except FileExistsError: pass]; a NUL character in
    the path is a [ValueError] before the system is asked. *)
Definition mkdir_if_absent (path : string) : M unit :=
  fun s =>
    if Py.has_nul path
    then (inl ValueError, mkState (world s) (trace s ++ [Mkdir path]))
    else
      let (r, w) := os_mkdir path (world s) in
      let s' := mkState w (trace s ++ [Mkdir path]) in
      match r with
      | MkdirFailed => (inl OSError, s')
      | _ => (inr tt, s')
      end.

(** A [for] loop whose body updates an accumulator. *)
Fixpoint for_each {A B} (l : list A) (body : B -> A -> M B) (acc : B) : M B :=
  match l with
  | [] => ret acc
  | x :: rest => acc' <- body acc x ;; for_each rest body acc'
  end.

(** *** [list_mailboxes] *)

Definition list_body (type_ : string) (success : list Mailbox)
    (migration : Migration) : M (list Mailbox) :=
  mailbox <- or_raise AttributeError (getattr migration type_) ;;
  emit (Log INFO ("Listing mailbox " ++ Py.str (username mailbox))) ;;;
  cmdl <- or_raise ValueError (shlex.split (list_command mailbox)) ;;
  emit (LogList DEBUG (removelast cmdl ++ ["******"])) ;;;
  return_code <- call cmdl ;;
  ret (if Z.eqb return_code 0 then success ++ [mailbox] else success).

Definition list_mailboxes (migrations : list Migration) (type_ : string)
    : M (list Mailbox) :=
  for_each migrations (list_body type_) [].

(** *** [backup_mailboxes] *)

Definition backup_body (output_dir : string) (success : list Mailbox)
    (migration : Migration) : M (list Mailbox) :=
  let mailbox := old migration in
  emit (Log INFO ("Backing up mailbox " ++ Py.str (username mailbox))) ;;;
  name <- or_raise AttributeError (username mailbox) ;;
  let dir := user_output_dir cwd output_dir name in
  mkdir_if_absent dir ;;;
  cmdl <- or_raise ValueError (shlex.split (backup_command mailbox dir)) ;;
  cmdl_without_password <- or_raise IndexError (set_from_end 3 "******" cmdl) ;;
  emit (LogList DEBUG cmdl_without_password) ;;;
  return_code <- call cmdl ;;
  ret (if Z.eqb return_code 0 then success ++ [mailbox] else success).

Definition backup_mailboxes (migrations : list Migration) (output_dir : string)
    : M (list Mailbox) :=
  makedirs_exist_ok output_dir ;;;
  for_each migrations (backup_body output_dir) [].

(** *** [restore_mailboxes] *)

(** The body of [for filename in files]; the accumulator is
    [return_codes_all_ok]. *)
Definition restore_file (migration : Migration) (dir root : string)
    (return_codes_all_ok : bool) (filename : string) : M bool :=
  if Py.endswith filename ".mbox" then
    let box_file_relpath := posixpath.join root [filename] in
    let box_file_abspath := posixpath.abspath cwd box_file_relpath in
    box_path <- or_raise ValueError
                  (box_imap_path cwd dir root filename) ;;
    cmdl <- or_raise ValueError
              (shlex.split
                 (restore_command (new migration) box_path box_file_abspath)) ;;
    cmdl_without_password <- or_raise IndexError (set_from_end 4 "******" cmdl) ;;
    emit (LogList DEBUG cmdl_without_password) ;;;
    return_code <- call cmdl ;;
    emit (Print return_code) ;;;
    ret (if negb (Z.eqb return_code 0) then false else return_codes_all_ok)
  else ret return_codes_all_ok.

(** The body of [for root, dirs, files in os.walk(user_backup_dir)]. *)
Definition restore_dir (migration : Migration) (dir : string)
    (return_codes_all_ok : bool) (triple : string * list string * list string)
    : M bool :=
  let '(root, _, files) := triple in
  for_each files (restore_file migration dir root) return_codes_all_ok.

Definition restore_body (backup_dir : string) (success : list Migration)
    (migration : Migration) : M (list Migration) :=
  if negb (Py.truthy (username (new migration)))
     || negb (Py.truthy (host (new migration)))
  then ret success
  else
    name <- or_raise AttributeError (username (old migration)) ;;
    let dir := user_backup_dir backup_dir name in
    match fs dir with
    | None =>
        emit (Log ERROR ("Could not find backup directory " ++ dir
                         ++ ", skipping this mailbox.")) ;;;
        ret success
    | Some _ =>
        emit (Log INFO ("Restoring old " ++ Py.str (username (old migration))
                        ++ " to new " ++ Py.str (username (new migration)))) ;;;
        return_codes_all_ok <-
          for_each (os_walk fs dir) (restore_dir migration dir) true ;;
        ret (if return_codes_all_ok then success ++ [migration] else success)
    end.

Definition restore_mailboxes (migrations : list Migration) (backup_dir : string)
    : M (list Migration) :=
  for_each migrations (restore_body backup_dir) [].

End Runners.

Arguments mkState {World} _ _.
Arguments world {World} _.
Arguments trace {World} _.

(** ** Reading a trace *)

(** The child processes of a trace, in order. *)
Fixpoint calls (evs : list event) : list (list string * option Z) :=
  match evs with
  | [] => []
  | Call cmdl r :: rest => (cmdl, r) :: calls rest
  | _ :: rest => calls rest
  end.

(** The argument lists a trace logs, in order. *)
Fixpoint logged_lists (evs : list event) : list (list string) :=
  match evs with
  | [] => []
  | LogList _ args :: rest => args :: logged_lists rest
  | _ :: rest => logged_lists rest
  end.

Definition returned_zero (c : list string * option Z) : bool :=
  match snd c with
  | Some rc => Z.eqb rc 0
  | None => false
  end.

Definition all_zero (evs : list event) : bool := forallb returned_zero (calls evs).

(** [sub] is [l] with some elements left out, the others in their order. *)
Inductive Subseq {A : Type} : list A -> list A -> Prop :=
| Subseq_nil : Subseq [] []
| Subseq_skip x sub l : Subseq sub l -> Subseq sub (x :: l)
| Subseq_keep x sub l : Subseq sub l -> Subseq (x :: sub) (x :: l).

(** The pairs the restore attempts: destination username and host set, and
    the per-user backup directory present. *)
Definition restorable (fs : string -> option node) (backup_dir : string)
    (m : Migration) : bool :=
  Py.truthy (username (new m)) && Py.truthy (host (new m)) &&
  match username (old m) with
  | Some name =>
      match fs (user_backup_dir backup_dir name) with
      | Some _ => true
      | None => false
      end
  | None => false
  end.

(** The backup files under a pair's per-user directory, in walk order, each
    with the directory [os.walk] reports it in. *)
Definition mbox_files (fs : string -> option node) (backup_dir : string)
    (m : Migration) : list (string * string) :=
  match username (old m) with
  | Some name =>
      flat_map (fun t : string * list string * list string =>
                  map (pair (fst (fst t)))
                      (filter (fun f => Py.endswith f ".mbox") (snd t)))
               (os_walk fs (user_backup_dir backup_dir name))
  | None => []
  end.

(** The events of one upload: the file [snd file], found in directory
    [fst file] by the walk of [dir], is uploaded by the command [cmdl],
    logged as [logged], and the exit status [rc] is printed. *)
Definition upload_segment (cwd : string) (m : Migration) (dir : string)
    (file : string * string) (seg : list event) : Prop :=
  exists box cmdl logged rc,
    box_imap_path cwd dir (fst file) (snd file) = Some box /\
    shlex.split
      (restore_command (new m) box
         (posixpath.abspath cwd (posixpath.join (fst file) [snd file])))
    = Some cmdl /\
    set_from_end 4 "******" cmdl = Some logged /\
    seg = [LogList DEBUG logged; Call cmdl (Some rc); Print rc].

(** ** Sample data *)

Module Sample.

Definition alice_old : Mailbox :=
  mkMailbox "old" (Some "alice@old.example") (Some "pw1")
            (Some "imap.old.example") (Some "993") true.

Definition alice_new : Mailbox :=
  mkMailbox "new" (Some "alice") (Some "pw2")
            (Some "imap.new.example") (Some "993") true.

Definition bob_old : Mailbox :=
  mkMailbox "old" (Some "bob") (Some "hunter2")
            (Some "imap.old.example") (Some "143") false.

Definition bob_new : Mailbox :=
  mkMailbox "new" (Some EmptyString) (Some EmptyString)
            (Some EmptyString) (Some "993") true.

Definition alice : Migration := mkMigration alice_old alice_new.
Definition bob : Migration := mkMigration bob_old bob_new.

(** A world in which the [n]-th child process fails when [n] is in the
    list, and every directory can be made. *)
Definition World : Type := (nat * list nat)%type.

Definition subprocess_call (cmdl : list string) (w : World)
    : option Z * World :=
  (Some (if existsb (Nat.eqb (fst w)) (snd w) then 1%Z else 0%Z),
   (S (fst w), snd w)).

Definition os_makedirs (path : string) (w : World) : bool * World := (true, w).

Definition os_mkdir (path : string) (w : World) : mkdir_result * World :=
  (Created, w).

Definition cwd : string := "/home/admin".

(** [backups/alice_at_old.example] holds [INBOX.mbox], [notes.txt] and
    [INBOX/Sent.mbox]. *)
Definition alice_entries : list (string * node) :=
  [("INBOX.mbox", File);
   ("notes.txt", File);
   ("INBOX", Dir [("Sent.mbox", File)])].

Definition alice_tree : node := Dir alice_entries.

Definition fs (path : string) : option node :=
  if path =? "backups/alice_at_old.example" then Some alice_tree else None.

Definition start (failing : list nat) : run_state World :=
  mkState (0, failing) [].

(** A backup tree whose one file has a double quote in its name: the
    letter a, a double quote, then b.mbox. *)
Definition quote_name : string := "a" ++ Py.dq ++ "b.mbox".

Definition quote_fs (path : string) : option node :=
  if path =? "backups/alice_at_old.example"
  then Some (Dir [(quote_name, File)])
  else None.

End Sample.

(** ** Command lines as pieces *)

(** A command line written piece by piece: a bare word, or a value between
    double quotes; [format_pieces] puts one space between the pieces, as
    the templates of the runners do. *)
Inductive piece : Type :=
| Bare (w : string)
| Quoted (v : string).

Definition render (p : piece) : string :=
  match p with
  | Bare w => w
  | Quoted v => Py.dq ++ v ++ Py.dq
  end.

Definition format_pieces (ps : list piece) : string :=
  String.concat " " (map render ps).

(** The arguments the pieces stand for: an empty bare word leaves none, a
    quoted value always leaves one. *)
Definition piece_tokens (p : piece) : list string :=
  match p with
  | Bare w => if w =? EmptyString then [] else [w]
  | Quoted v => [v]
  end.

Definition piece_ok (p : piece) : Prop :=
  match p with
  | Bare w => benign w = true
  | Quoted v => double_quotable v = true
  end.

(** ** String forms of mailboxes and migrations, and [pformat] *)

Definition py_bool (b : bool) : string := if b then "True" else "False".

(** [Mailbox.__repr__] *)
Definition Mailbox_repr (m : Mailbox) : string :=
  "Mailbox(" ++ Py.str (username m) ++ " on " ++ Py.str (host m) ++ ":"
  ++ Py.str (port m) ++ " SSL=" ++ py_bool (use_ssl m)
  ++ " type=" ++ type_ m ++ ")".

(** [Mailbox.__str__] *)
Definition Mailbox_str (m : Mailbox) : string :=
  Py.str (username m) ++ " on " ++ Py.str (host m) ++ ":"
  ++ Py.str (port m) ++ " (" ++ type_ m ++ ")".

(** [Migration.__repr__] and [Migration.__str__]: [str.format] renders the
    two mailboxes with [Mailbox.__str__]. *)
Definition Migration_repr (m : Migration) : string :=
  Mailbox_str (old m) ++ " => " ++ Mailbox_str (new m).

Definition newline : string := String (ascii_of_nat 10) EmptyString.

(** [pprint.pformat] of a list of objects whose [repr]s are given: on one
    line when that takes at most 80 characters ([len] of the line), else
    one element a line. *)
Definition pformat (reprs : list string) : string :=
  let rep := ("[" ++ String.concat ", " reprs ++ "]")%string in
  if Nat.ltb 80 (Py.len rep)
  then ("[" ++ String.concat ("," ++ newline ++ " ") reprs ++ "]")%string
  else rep.

(** ** The logger *)

(** The [loglevel] dictionary of [init_logger]; [None] is the [KeyError]. *)
Definition loglevel (verbosity : nat) : option level :=
  match verbosity with
  | 0 => Some CRITICAL
  | 1 => Some ERROR
  | 2 => Some WARNING
  | 3 => Some INFO
  | 4 => Some DEBUG
  | _ => None
  end.

(** The numeric values of the [logging] levels. *)
Definition levelno (l : level) : nat :=
  match l with
  | DEBUG => 10
  | INFO => 20
  | WARNING => 30
  | ERROR => 40
  | CRITICAL => 50
  end.

(** [Logger.isEnabledFor]: a record passes when its level is at least the
    level set on the logger. *)
Definition isEnabledFor (threshold lvl : level) : bool :=
  Nat.leb (levelno threshold) (levelno lvl).

(** The records of a trace that reach the handlers. *)
Definition emitted (threshold : level) (evs : list event) : list event :=
  filter (fun e =>
            match e with
            | Log lvl _ => isEnabledFor threshold lvl
            | LogList lvl _ => isEnabledFor threshold lvl
            | _ => false
            end) evs.

(** ** The entry point *)

(** What [parse_args] returns. *)
Record Args : Type := mkArgs {
  csv : string;
  listold : bool;
  listnew : bool;
  backup : bool;
  output : string;
  restore : bool;
  verbosity : nat;
  mailboxes : list string
}.

Inductive main_exn : Type :=
| KeyError
| Runner (e : exn).

(** How [main] ends: it returns, [exit] ends the process, or an exception
    goes through. *)
Inductive main_outcome : Type :=
| Returned (status : Z)
| SystemExit (status : Z)
| Raised (e : main_exn).

Section Main.

Variable World : Type.
Variable subprocess_call : list string -> World -> option Z * World.
Variable os_makedirs : string -> World -> bool * World.
Variable os_mkdir : string -> World -> mkdir_result * World.
Variable cwd : string.
(** The file tree as the world has it; the restore reads it when it
    starts, after what the backup did to it. *)
Variable fs : World -> string -> option node.
(** [open(csv_path)] with the records it reads, and whether the log file
    of the rotating handler can be opened. *)
Variable open_csv : string -> World -> open_result * World.
Variable open_log : World -> bool * World.

(** Every event of a computation, from any state and however it ends,
    satisfies [P]. *)
Definition always (P : event -> Prop) {A} (m : M World A) : Prop :=
  forall s, exists evs,
    trace (snd (m s)) = trace s ++ evs /\ Forall P evs.

(** [init_logger]: the level set on the logger (none on a [KeyError]) and
    the exception raised, if any. *)
Definition init_logger (verbosity : nat) (w : World)
    : option level * option main_exn * World :=
  match loglevel verbosity with
  | None => (None, Some KeyError, w)
  | Some lvl =>
      let (ok, w') := open_log w in
      (Some lvl, if ok then None else Some (Runner OSError), w')
  end.

Local Notation "m ;;; k" := (bind World m (fun _ => k))
  (at level 61, right associativity).

(** The four [if args.<mode>:] blocks. *)
Definition listold_stage (args : Args) (migrations : list Migration)
    : M World unit :=
  if listold args then
    bind World (list_mailboxes World subprocess_call migrations "old")
      (fun success =>
         emit World (Log DEBUG ("Listing succeeded for following mailboxes:"
                                ++ newline
                                ++ pformat (map Mailbox_repr success))))
  else ret World tt.

Definition listnew_stage (args : Args) (migrations : list Migration)
    : M World unit :=
  if listnew args then
    bind World (list_mailboxes World subprocess_call migrations "new")
      (fun success =>
         emit World (Log DEBUG ("Listing succeeded for following mailboxes:"
                                ++ newline
                                ++ pformat (map Mailbox_repr success))))
  else ret World tt.

Definition backup_stage (args : Args) (migrations : list Migration)
    : M World unit :=
  if backup args then
    bind World (backup_mailboxes World subprocess_call os_makedirs os_mkdir
                                 cwd migrations (output args))
      (fun success =>
         emit World (Log DEBUG ("Successfully backed up following mailboxes:"
                                ++ newline
                                ++ pformat (map Mailbox_repr success))))
  else ret World tt.

Definition restore_stage (args : Args) (migrations : list Migration)
    : M World unit :=
  if restore args then
    fun s =>
      bind World (restore_mailboxes World subprocess_call cwd (fs (world s))
                                    migrations (output args))
        (fun success =>
           emit World
             (Log DEBUG ("Successfully ran following mailbox migrations:"
                         ++ newline
                         ++ pformat (map Migration_repr success))))
        s
  else ret World tt.

(** [main] after the migrations are loaded. *)
Definition dispatch (args : Args) (migrations : list Migration) : M World Z :=
  emit World (Log INFO ("Operating on following mailboxes:" ++ newline
                        ++ pformat (map Migration_repr migrations))) ;;;
  listold_stage args migrations ;;;
  listnew_stage args migrations ;;;
  backup_stage args migrations ;;;
  restore_stage args migrations ;;;
  ret World 0%Z.

Record main_result : Type := mkResult {
  outcome : main_outcome;
  threshold : option level;
  final : run_state World
}.

(** [main] from the point where [parse_args] has returned [args]: on
    arguments it refuses and after its help text, argparse ends the
    process itself (status 2 and 0) and nothing of what follows runs. *)
Definition main (args : Args) (s : run_state World) : main_result :=
  let verbosity := if Nat.ltb 4 (verbosity args) then 4 else verbosity args in
  match init_logger verbosity (world s) with
  | (lvl, Some e, w) => mkResult (Raised e) lvl (mkState w (trace s))
  | (lvl, None, w) =>
      let (handle, w') := open_csv (csv args) w in
      match parse_mailboxes_csv (csv args) handle (mailboxes args) with
      | Exit status l message =>
          mkResult (SystemExit status) lvl
                   (mkState w' (trace s ++ [Log l message]))
      | Loaded migrations =>
          match dispatch args migrations (mkState w' (trace s)) with
          | (inl e, s') => mkResult (Raised (Runner e)) lvl s'
          | (inr status, s') => mkResult (Returned status) lvl s'
          end
      end
  end.

End Main.

Arguments always {World} P {A} m.
Arguments outcome {World} _.
Arguments threshold {World} _.
Arguments final {World} _.

Module SampleMain.

Definition open_csv (path : string) (w : Sample.World)
    : open_result * Sample.World :=
  (if path =? "mailboxes.csv"
   then Opened [["alice@old.example"; "pw1"; "imap.old.example";
                 EmptyString; "true";
                 "alice"; "pw2"; "imap.new.example"; EmptyString; "true"];
                [];
                ["bob"; "hunter2"; "imap.old.example"; "143"; "False"]]
   else FileNotFoundError, w).

Definition open_log (w : Sample.World) : bool * Sample.World := (true, w).

Definition args (v : nat) (l b r : bool) (file : string) : Args :=
  mkArgs file l false b "backups/" r v ["all"].

Definition main (a : Args) : main_result Sample.World :=
  main Sample.World Sample.subprocess_call Sample.os_makedirs Sample.os_mkdir
       Sample.cwd (fun _ => Sample.fs) open_csv open_log a (Sample.start []).

(** A world in which the backup tree is there once a child process has
    run, and not before. *)
Definition fs_after_backup (w : Sample.World) (path : string) : option node :=
  if Nat.eqb (fst w) 0 then None else Sample.fs path.

End SampleMain.


(** ** Kinds of events *)

(** Argument lists are logged at [DEBUG] and no record is [CRITICAL] or
    [WARNING]. *)
Definition modest_record (e : event) : Prop :=
  match e with
  | LogList lvl _ => lvl = DEBUG
  | Log lvl _ => lvl = DEBUG \/ lvl = INFO \/ lvl = ERROR
  | _ => True
  end.

(** The directories a trace asks the system to make ([os.makedirs] and
    [os.mkdir]), in order. *)
Fixpoint made_directories (evs : list event) : list string :=
  match evs with
  | [] => []
  | Makedirs path :: rest => path :: made_directories rest
  | Mkdir path :: rest => path :: made_directories rest
  | _ :: rest => made_directories rest
  end.

(** What a trace prints, in order. *)
Fixpoint printed (evs : list event) : list Z :=
  match evs with
  | [] => []
  | Print rc :: rest => rc :: printed rest
  | _ :: rest => printed rest
  end.

(** The events of each mode of [main]: the lister and the backup run
    [imapgrab.py] with their own first options, the restore runs
    [imap_upload.py]; only the backup makes directories and only the
    restore prints. *)
Definition of_lister (e : event) : Prop :=
  match e with
  | Call cmdl _ =>
      exists tl, cmdl = ["imapbackup/imapgrab.py"; "-l"; "-s"] ++ tl
  | Log _ _ => True
  | LogList _ _ => True
  | _ => False
  end.

Definition of_backup (e : event) : Prop :=
  match e with
  | Call cmdl _ =>
      exists tl, cmdl = ["imapbackup/imapgrab.py"; "-v"; "-d"] ++ tl
  | Print _ => False
  | _ => True
  end.

Definition of_restore (e : event) : Prop :=
  match e with
  | Call cmdl _ =>
      exists tl, cmdl = ["imap_upload/imap_upload.py"; "--retry"; "3"] ++ tl
  | Makedirs _ => False
  | Mkdir _ => False
  | _ => True
  end.

(** The same with the mailboxes and directories each mode works on, [ms]
    being the migrations [main] loaded: the lister runs on the mailbox
    [side] takes from a pair, the backup on the source mailbox and the
    directory of its username, the restore on the destination mailbox. *)
Definition lists (side : Migration -> Mailbox) (ms : list Migration)
    (e : event) : Prop :=
  match e with
  | Call cmdl _ =>
      exists m, In m ms /\ shlex.split (list_command (side m)) = Some cmdl
  | Log _ _ => True
  | LogList _ _ => True
  | _ => False
  end.

Definition backs_up (cwd output_dir : string) (ms : list Migration)
    (e : event) : Prop :=
  match e with
  | Call cmdl _ =>
      exists m name,
        In m ms /\ username (old m) = Some name /\
        shlex.split (backup_command (old m)
                                    (user_output_dir cwd output_dir name))
        = Some cmdl
  | Mkdir path =>
      exists m name,
        In m ms /\ username (old m) = Some name /\
        path = user_output_dir cwd output_dir name
  | Makedirs path => path = output_dir
  | Print _ => False
  | _ => True
  end.

Definition restores (ms : list Migration) (e : event) : Prop :=
  match e with
  | Call cmdl _ =>
      exists m box file,
        In m ms /\
        shlex.split (restore_command (new m) box file) = Some cmdl
  | Makedirs _ => False
  | Mkdir _ => False
  | _ => True
  end.

(** What the loader hands to [main]: nothing when it exits. *)
Definition loaded_migrations (l : loaded) : list Migration :=
  match l with
  | Loaded migrations => migrations
  | Exit _ _ _ => []
  end.

(** ** Quotes in a command line *)

(** The number of double quotes of a string. *)
Fixpoint count_double_quotes (s : string) : nat :=
  match s with
  | EmptyString => 0
  | String c s' =>
      (if shlex.escapedquotes c then 1 else 0) + count_double_quotes s'
  end.

(** A string without single quote and without escape character: the only
    quotations the lexer can enter on it are double ones. *)
Definition simply_quoted (s : string) : bool :=
  Py.all_chars (fun c => negb (Ascii.eqb c "'" || shlex.escape c)) s.

(** ** Paths among the arguments *)

(** The argument that follows the first [flag] of an argument list. *)
Fixpoint argument_after (flag : string) (cmdl : list string)
    : option string :=
  match cmdl with
  | [] => None
  | a :: rest =>
      if a =? flag then hd_error rest else argument_after flag rest
  end.

(** The directories [os.mkdir] is called on are absolute. *)
Definition makes_absolute_directory (e : event) : Prop :=
  match e with
  | Mkdir path => posixpath.isabs path = true
  | _ => True
  end.

(** The child process has an absolute path after [-f]. *)
Definition gets_absolute_directory (e : event) : Prop :=
  match e with
  | Call cmdl _ =>
      exists dir,
        argument_after "-f" cmdl = Some dir /\ posixpath.isabs dir = true
  | _ => True
  end.

(** The child process has an absolute path as its last argument. *)
Definition gets_absolute_file (e : event) : Prop :=
  match e with
  | Call cmdl _ => posixpath.isabs (last cmdl EmptyString) = true
  | _ => True
  end.

(** The values the templates put between double quotes have no double
    quote and no backslash: the fields of a mailbox, the directory of a
    source username, the path and the folder path of every backup file. *)
Definition quotable_mailbox (mailbox : Mailbox) : bool :=
  double_quotable (Py.str (host mailbox))
  && double_quotable (Py.str (username mailbox))
  && double_quotable (Py.str (password mailbox)).

Definition quotable_backup (cwd output_dir : string) (m : Migration) : bool :=
  quotable_mailbox (old m)
  && match username (old m) with
     | Some name => double_quotable (user_output_dir cwd output_dir name)
     | None => true
     end.

Definition quotable_restore (cwd : string) (fs : string -> option node)
    (backup_dir : string) (m : Migration) : bool :=
  benign (Py.str (port (new m)))
  && quotable_mailbox (new m)
  && forallb
       (fun file : string * string =>
          double_quotable
            (posixpath.abspath cwd (posixpath.join (fst file) [snd file]))
          && match username (old m) with
             | Some name =>
                 match box_imap_path cwd (user_backup_dir backup_dir name)
                                     (fst file) (snd file) with
                 | Some box => double_quotable box
                 | None => true
                 end
             | None => true
             end)
       (mbox_files fs backup_dir m).

(** ** More sample data *)

Module SampleEdge.

(** A password with a double quote in it. *)
Definition carol_old : Mailbox :=
  mkMailbox "old" (Some "carol") (Some ("pw" ++ Py.dq ++ "x")%string)
            (Some "imap.old.example") (Some "993") true.

(** A record that gives the source side only. *)
Definition bob_record : list string :=
  ["bob"; "hunter2"; "imap.old.example"; "143"; "False"].

Definition open_csv (path : string) (w : Sample.World)
    : open_result * Sample.World :=
  (if path =? "quote.csv"
   then Opened [["carol"; ("pw" ++ Py.dq ++ "x")%string; "imap.old.example"]]
   else FileNotFoundError, w).

(** [backups/bob] is there and holds no backup file. *)
Definition fs (path : string) : option node :=
  if path =? "backups/bob" then Some (Dir [("notes.txt", File)]) else None.

Definition bob_to_alice : Migration :=
  mkMigration Sample.bob_old Sample.alice_new.





Definition main (a : Args) : main_result Sample.World :=
  main Sample.World Sample.subprocess_call Sample.os_makedirs Sample.os_mkdir
       Sample.cwd (fun _ => Sample.fs) open_csv SampleMain.open_log a
       (Sample.start []).

End SampleEdge.

(** * Properties *)

(** ** Strings *)

Lemma append_empty_r (s : string) : (s ++ EmptyString)%string = s.
Proof. induction s as [|c s IH]; simpl; [reflexivity | now rewrite IH]. Qed.

Lemma append_assoc (a b c : string) :
  ((a ++ b) ++ c)%string = (a ++ (b ++ c))%string.
Proof. induction a as [|x a IH]; simpl; [reflexivity | now rewrite IH]. Qed.

Lemma length_append (a b : string) :
  String.length (a ++ b) = String.length a + String.length b.
Proof. induction a as [|x a IH]; simpl; [reflexivity | now rewrite IH]. Qed.

Lemma substring_all (s : string) : substring 0 (String.length s) s = s.
Proof. induction s as [|c s IH]; simpl; [reflexivity | now rewrite IH]. Qed.

Lemma substring_prefix (a b : string) :
  substring 0 (String.length a) (a ++ b) = a.
Proof.
  induction a as [|x a IH]; simpl.
  - destruct b; reflexivity.
  - now rewrite IH.
Qed.

Lemma substring_suffix (a b : string) :
  substring (String.length a) (String.length b) (a ++ b) = b.
Proof. induction a as [|x a IH]; simpl; [apply substring_all | exact IH]. Qed.

Lemma drop_last_append (a b : string) :
  Py.drop_last (String.length b) (a ++ b) = a.
Proof.
  unfold Py.drop_last. rewrite length_append, Nat.add_sub.
  apply substring_prefix.
Qed.

Lemma endswith_append (a b : string) : Py.endswith (a ++ b) b = true.
Proof.
  unfold Py.endswith. rewrite length_append.
  replace (String.length a + String.length b - String.length b)
    with (String.length a) by lia.
  rewrite substring_suffix, String.eqb_refl, andb_true_r.
  apply Nat.leb_le. lia.
Qed.


Lemma contains_In (l : list string) (x : option string) :
  Py.contains l x = true <-> exists s, x = Some s /\ In s l.
Proof.
  destruct x as [s|]; simpl.
  - rewrite existsb_exists. split.
    + intros [y [Hy He]]. apply String.eqb_eq in He. subst y. eauto.
    + intros [s' [[= <-] Hin]]. exists s. now rewrite String.eqb_refl.
  - split; [discriminate | intros [s [[=] _]]].
Qed.

(** ** The loader *)

Lemma parse_rows_filter (mailboxes_filter : list string) (rows : list CsvRow)
    (migrations : list Migration) :
  parse_rows mailboxes_filter rows migrations =
  migrations ++ filter (selected mailboxes_filter) (map migration_of rows).
Proof.
  revert migrations. induction rows as [|row rows IH]; intros acc; simpl.
  - now rewrite app_nil_r.
  - rewrite IH. destruct (selected mailboxes_filter (migration_of row)).
    + now rewrite <- app_assoc.
    + reflexivity.
Qed.

(** What the loader returns: the migrations of the rows it selects, in
    the order of the file. *)
Lemma filter_map_comm {A B} (f : B -> bool) (g : A -> B) (l : list A) :
  filter f (map g l) = map g (filter (fun x => f (g x)) l).
Proof.
  induction l as [|x l IH]; [reflexivity |].
  cbn [map filter]. destruct (f (g x)); cbn [map]; now rewrite IH.
Qed.

Lemma loaded_rows (csv_path : string) (records : list (list string))
    (mailboxes_filter : list string) :
  parse_mailboxes_csv csv_path (Opened records) mailboxes_filter =
  Loaded
    (map migration_of
         (filter (fun row =>
                    Py.list_eqb mailboxes_filter ["all"]
                    || Py.contains mailboxes_filter (old_username row))
                 (DictReader records))).
Proof.
  unfold parse_mailboxes_csv. rewrite parse_rows_filter. cbn [app].
  now rewrite filter_map_comm.
Qed.

Lemma Forall2_map_r {A B} (P : A -> B -> Prop) (f : A -> B) (l : list A) :
  (forall x, P x (f x)) -> Forall2 P l (map f l).
Proof. intros H. induction l; constructor; auto. Qed.

Lemma migration_default_ports (row : CsvRow) :
  let m := migration_of row in
  port (old m) =
    match old_port row with
    | None => Some (if use_ssl (old m) then "993" else "143")
    | Some p => if p =? EmptyString
                then Some (if use_ssl (old m) then "993" else "143")
                else Some p
    end /\
  port (new m) =
    match new_port row with
    | None => Some (if use_ssl (new m) then "993" else "143")
    | Some p => if p =? EmptyString
                then Some (if use_ssl (new m) then "993" else "143")
                else Some p
    end /\
  use_ssl (old m) = parse_ssl (old_ssl row) /\
  use_ssl (new m) = parse_ssl (new_ssl row).
Proof.
  simpl. unfold default_port, Py.truthy.
  repeat split.
  - destruct (old_port row) as [p|]; simpl.
    + destruct (p =? EmptyString); simpl;
        [destruct (parse_ssl (old_ssl row)) |]; reflexivity.
    + destruct (parse_ssl (old_ssl row)); reflexivity.
  - destruct (new_port row) as [p|]; simpl.
    + destruct (p =? EmptyString); simpl;
        [destruct (parse_ssl (new_ssl row)) |]; reflexivity.
    + destruct (parse_ssl (new_ssl row)); reflexivity.
Qed.

(** C1: every row the loader selects gives, at its place in the result, a
    migration whose port on each side is "993" when that side's port field
    is empty (or missing) and its security flag is enabled, "143" when the
    field is empty and the flag disabled, and the field itself otherwise;
    the source side reads only [old_port] and [old_ssl], the destination
    side only [new_port] and [new_ssl]. *)
Theorem loader_default_ports (csv_path : string)
    (records : list (list string)) (mailboxes_filter : list string) :
  exists migrations,
    parse_mailboxes_csv csv_path (Opened records) mailboxes_filter
    = Loaded migrations /\
    Forall2
      (fun row m =>
         port (old m) =
           match old_port row with
           | None => Some (if use_ssl (old m) then "993" else "143")
           | Some p => if p =? EmptyString
                       then Some (if use_ssl (old m) then "993" else "143")
                       else Some p
           end /\
         port (new m) =
           match new_port row with
           | None => Some (if use_ssl (new m) then "993" else "143")
           | Some p => if p =? EmptyString
                       then Some (if use_ssl (new m) then "993" else "143")
                       else Some p
           end /\
         use_ssl (old m) = parse_ssl (old_ssl row) /\
         use_ssl (new m) = parse_ssl (new_ssl row))
      (filter (fun row =>
                 Py.list_eqb mailboxes_filter ["all"]
                 || Py.contains mailboxes_filter (old_username row))
              (DictReader records))
      migrations.
Proof.
  eexists. split; [apply loaded_rows |].
  apply Forall2_map_r. intros row. exact (migration_default_ports row).
Qed.

Lemma lower_ascii_inv (c d : ascii) :
  Py.lower_ascii c = d -> c = d \/ c = upper_ascii d /\ upper_ascii d <> d.
Proof.
  intros <-.
  destruct c as [[] [] [] [] [] [] [] []]; vm_compute;
    first [left; reflexivity | right; split; [reflexivity | discriminate]].
Qed.

Lemma lower_in_case_variants (w v : string) :
  Py.lower v = w -> In v (case_variants w).
Proof.
  revert v. induction w as [|d w IH]; intros [|c v]; simpl; try discriminate.
  - auto.
  - intros [= Hc Hv]. specialize (IH v Hv).
    destruct (lower_ascii_inv c d Hc) as [-> | [-> Hne]].
    + destruct (Ascii.eqb (upper_ascii d) d); [| apply in_or_app; left];
        now apply in_map.
    + apply Ascii.eqb_neq in Hne. rewrite Hne.
      apply in_or_app. right. now apply in_map.
Qed.

Lemma parse_ssl_false (field : option string) :
  parse_ssl field = false <->
  exists v, field = Some v /\ In v (case_variants "false").
Proof.
  destruct field as [v|]; unfold parse_ssl.
  - destruct (Py.lower v =? "false") eqn:E.
    + apply String.eqb_eq in E. split; [intros _ | reflexivity].
      exists v. split; [reflexivity | now apply lower_in_case_variants].
    + split; [discriminate |]. intros [v' [[= <-] Hin]].
      assert (Py.lower v = "false") as Hl.
      { vm_compute in Hin.
        repeat (destruct Hin as [<- | Hin]; [reflexivity |]).
        contradiction. }
      rewrite Hl in E. discriminate.
  - split; [discriminate | intros [v [[=] _]]].
Qed.

Lemma migration_ssl_flag (row : CsvRow) :
  let m := migration_of row in
  (use_ssl (old m) = false <->
     exists v, old_ssl row = Some v /\ In v (case_variants "false")) /\
  (use_ssl (new m) = false <->
     exists v, new_ssl row = Some v /\ In v (case_variants "false")) /\
  (forall v, In v (case_variants "false") <-> Py.lower v = "false") /\
  parse_ssl None = true /\
  parse_ssl (Some EmptyString) = true.
Proof.
  cbv zeta. unfold migration_of, old_mailbox_of, new_mailbox_of, Mailbox_init.
  cbn [old new use_ssl].
  repeat split; try apply parse_ssl_false.
  - intros Hin. vm_compute in Hin.
    repeat (destruct Hin as [<- | Hin]; [reflexivity |]). contradiction.
  - apply lower_in_case_variants.
Qed.

(** C2: every row the loader selects gives, at its place in the result, a
    migration whose security flag on each side is disabled exactly when
    that side's field is present and spells "false" in some mix of upper
    and lower case, that is when its lower-case form is "false"; a missing
    field, the empty field and every other value give an enabled flag.
    The two sides are parsed independently. *)
Theorem loader_ssl_flag (csv_path : string)
    (records : list (list string)) (mailboxes_filter : list string) :
  (exists migrations,
      parse_mailboxes_csv csv_path (Opened records) mailboxes_filter
      = Loaded migrations /\
      Forall2
        (fun row m =>
           (use_ssl (old m) = false <->
              exists v, old_ssl row = Some v /\ In v (case_variants "false"))
           /\
           (use_ssl (new m) = false <->
              exists v, new_ssl row = Some v /\ In v (case_variants "false"))
           /\
           (old_ssl row = None \/ old_ssl row = Some EmptyString ->
            use_ssl (old m) = true) /\
           (new_ssl row = None \/ new_ssl row = Some EmptyString ->
            use_ssl (new m) = true))
        (filter (fun row =>
                   Py.list_eqb mailboxes_filter ["all"]
                   || Py.contains mailboxes_filter (old_username row))
                (DictReader records))
        migrations) /\
  (forall v, In v (case_variants "false") <-> Py.lower v = "false").
Proof.
  split.
  - eexists. split; [apply loaded_rows |].
    apply Forall2_map_r. intros row.
    destruct (migration_ssl_flag row) as [Ho [Hn _]]. cbv zeta in Ho, Hn.
    split; [exact Ho |]. split; [exact Hn |]. split.
    + intros [H | H]; cbn; rewrite H; reflexivity.
    + intros [H | H]; cbn; rewrite H; reflexivity.
  - exact (proj1 (proj2 (proj2 (migration_ssl_flag
                                  (dict_of_record []))))).
Qed.


(** ** Runs *)

Lemma calls_app (a b : list event) : calls (a ++ b) = calls a ++ calls b.
Proof.
  induction a as [|e a IH]; simpl; [reflexivity |].
  destruct e; simpl; now rewrite ?IH.
Qed.

Lemma all_zero_app (a b : list event) :
  all_zero (a ++ b) = all_zero a && all_zero b.
Proof. unfold all_zero. now rewrite calls_app, forallb_app. Qed.

Lemma all_zero_Log (lvl : level) (msg : string) (evs : list event) :
  all_zero (Log lvl msg :: evs) = all_zero evs.
Proof. reflexivity. Qed.

Section RunnerProperties.

Variable World : Type.
Variable subprocess_call : list string -> World -> option Z * World.
Variable os_makedirs : string -> World -> bool * World.
Variable os_mkdir : string -> World -> mkdir_result * World.
Variable cwd : string.
Variable fs : string -> option node.

Abbreviation state := (run_state World).
Abbreviation list_body := (list_body World subprocess_call).
Abbreviation list_mailboxes := (list_mailboxes World subprocess_call).
Abbreviation backup_body := (backup_body World subprocess_call os_mkdir cwd).
Abbreviation backup_mailboxes :=
  (backup_mailboxes World subprocess_call os_makedirs os_mkdir cwd).
Abbreviation restore_file := (restore_file World subprocess_call cwd).
Abbreviation restore_dir := (restore_dir World subprocess_call cwd).
Abbreviation restore_body := (restore_body World subprocess_call cwd fs).
Abbreviation restore_mailboxes := (restore_mailboxes World subprocess_call cwd fs).

Lemma for_each_app {A B} (l1 l2 : list A) (body : B -> A -> M World B)
    (acc : B) (s : state) :
  for_each World (l1 ++ l2) body acc s =
  bind World (for_each World l1 body acc) (for_each World l2 body) s.
Proof.
  revert acc s. induction l1 as [|x l1 IH]; intros acc s; simpl.
  - unfold bind, ret. reflexivity.
  - unfold bind in *. destruct (body acc x s) as [[e|acc'] s1].
    + reflexivity.
    + apply IH.
Qed.

(** A loop whose body extends the trace and the accumulator: the run
    splits into one segment of events and one batch of kept elements per
    element of the list. *)
Lemma for_each_segments {A B} (body : list B -> A -> M World (list B))
    (Q : A -> list event -> list B -> Prop) :
  (forall acc x s acc' s',
      body acc x s = (inr acc', s') ->
      exists evs kept,
        trace s' = trace s ++ evs /\ acc' = acc ++ kept /\ Q x evs kept) ->
  forall l acc s acc' s',
    for_each World l body acc s = (inr acc', s') ->
    exists segs : list (list event * list B),
      trace s' = trace s ++ concat (map fst segs) /\
      acc' = acc ++ concat (map snd segs) /\
      Forall2 (fun x seg => Q x (fst seg) (snd seg)) l segs.
Proof.
  intros Hbody. induction l as [|x l IH]; intros acc s acc' s' H; simpl in H.
  - injection H as <- <-. exists []. simpl.
    rewrite !app_nil_r. repeat split; constructor.
  - unfold bind in H. destruct (body acc x s) as [[e|acc1] s1] eqn:E;
      [discriminate |].
    destruct (Hbody _ _ _ _ _ E) as [evs [kept [Ht [Ha HQ]]]].
    destruct (IH _ _ _ _ H) as [segs [Ht' [Ha' HF]]].
    exists ((evs, kept) :: segs). simpl.
    rewrite Ht', Ht, Ha', Ha, <- !app_assoc.
    repeat split. constructor; assumption.
Qed.

(** What one turn of each runner's loop does when it completes. *)
Lemma list_body_run (type_ : string) (acc : list Mailbox) (m : Migration)
    (s : state) (acc' : list Mailbox) (s' : state) :
  list_body type_ acc m s = (inr acc', s') ->
  exists mailbox cmdl rc,
    getattr m type_ = Some mailbox /\
    shlex.split (list_command mailbox) = Some cmdl /\
    trace s' = trace s ++
      [Log INFO ("Listing mailbox " ++ Py.str (username mailbox));
       LogList DEBUG (removelast cmdl ++ ["******"]);
       Call cmdl (Some rc)] /\
    acc' = acc ++ (if Z.eqb rc 0 then [mailbox] else []).
Proof.
  unfold list_body, bind, or_raise, emit, call, ret. intros H.
  destruct (getattr m type_) as [mailbox|] eqn:Hg; [| discriminate].
  destruct (shlex.split (list_command mailbox)) as [cmdl|] eqn:Hs;
    [| discriminate].
  cbn [world trace] in H.
  destruct (existsb Py.has_nul cmdl); [discriminate |].
  destruct (subprocess_call cmdl (world s)) as [[rc|] w]; [| discriminate].
  injection H as <- <-. exists mailbox, cmdl, rc. cbn [trace].
  rewrite <- !app_assoc.
  repeat split; try assumption; try reflexivity.
  destruct (Z.eqb rc 0); [reflexivity | now rewrite app_nil_r].
Qed.

Lemma backup_body_run (output_dir : string) (acc : list Mailbox)
    (m : Migration) (s : state) (acc' : list Mailbox) (s' : state) :
  backup_body output_dir acc m s = (inr acc', s') ->
  exists name cmdl logged rc,
    username (old m) = Some name /\
    shlex.split
      (backup_command (old m) (user_output_dir cwd output_dir name))
    = Some cmdl /\
    set_from_end 3 "******" cmdl = Some logged /\
    trace s' = trace s ++
      [Log INFO ("Backing up mailbox " ++ Py.str (username (old m)));
       Mkdir (user_output_dir cwd output_dir name);
       LogList DEBUG logged;
       Call cmdl (Some rc)] /\
    acc' = acc ++ (if Z.eqb rc 0 then [old m] else []).
Proof.
  unfold backup_body, bind, or_raise, emit, call, mkdir_if_absent, ret.
  intros H. cbn [world trace] in H.
  destruct (username (old m)) as [name|] eqn:Hn; [| discriminate].
  cbn [world trace] in H.
  destruct (Py.has_nul (user_output_dir cwd output_dir name));
    [discriminate |].
  destruct (os_mkdir _ (world s)) as [r w].
  destruct r; try discriminate; cbn [world trace] in H;
    (destruct (shlex.split _) as [cmdl|] eqn:Hs; [| discriminate]);
    (destruct (set_from_end 3 "******" cmdl) as [logged|] eqn:Hl;
       [| discriminate]);
    cbn [world trace] in H;
    (destruct (existsb Py.has_nul cmdl); [discriminate |]);
    (destruct (subprocess_call cmdl w) as [[rc|] w'] eqn:Hc; [| discriminate]);
    injection H as <- <-; exists name, cmdl, logged, rc; cbn [trace];
    rewrite <- !app_assoc;
    (repeat split; try assumption; try reflexivity);
    (destruct (Z.eqb rc 0); [reflexivity | now rewrite app_nil_r]).
Qed.

Lemma restore_file_run (m : Migration) (dir root : string) (ok : bool)
    (filename : string) (s : state) (ok' : bool) (s' : state) :
  restore_file m dir root ok filename s = (inr ok', s') ->
  if Py.endswith filename ".mbox" then
    exists seg,
      upload_segment cwd m dir (root, filename) seg /\
      trace s' = trace s ++ seg /\ ok' = ok && all_zero seg
  else s' = s /\ ok' = ok.
Proof.
  unfold restore_file. destruct (Py.endswith filename ".mbox").
  - unfold bind, or_raise, emit, call, ret. intros H.
    destruct (box_imap_path cwd dir root filename) as [box|] eqn:Hb;
      [| discriminate].
    destruct (shlex.split _) as [cmdl|] eqn:Hs; [| discriminate].
    destruct (set_from_end 4 "******" cmdl) as [logged|] eqn:Hl;
      [| discriminate].
    cbn [world trace] in H.
    destruct (existsb Py.has_nul cmdl); [discriminate |].
    destruct (subprocess_call cmdl (world s)) as [[rc|] w]; [| discriminate].
    cbn [world trace] in H. injection H as <- <-.
    exists [LogList DEBUG logged; Call cmdl (Some rc); Print rc].
    cbn [trace]. rewrite <- !app_assoc. repeat split.
    + exists box, cmdl, logged, rc. repeat split; assumption.
    + unfold all_zero, returned_zero. simpl.
      destruct (Z.eqb rc 0); simpl; [now rewrite andb_true_r |
                                     now rewrite andb_false_r].
  - unfold ret. intros [= <- <-]. split; reflexivity.
Qed.

Lemma restore_files_run (m : Migration) (dir root : string)
    (files : list string) (ok : bool) (s : state) (ok' : bool) (s' : state) :
  for_each World files (restore_file m dir root) ok s = (inr ok', s') ->
  exists segs,
    Forall2 (upload_segment cwd m dir)
            (map (pair root) (filter (fun f => Py.endswith f ".mbox") files))
            segs /\
    trace s' = trace s ++ concat segs /\
    ok' = ok && all_zero (concat segs).
Proof.
  revert ok s. induction files as [|f files IH]; intros ok s H; simpl in H.
  - injection H as <- <-. exists []. simpl.
    rewrite app_nil_r, andb_true_r. repeat split. constructor.
  - unfold bind in H.
    destruct (restore_file m dir root ok f s) as [[e|ok1] s1] eqn:E;
      [discriminate |].
    apply restore_file_run in E.
    destruct (IH _ _ H) as [segs [HF [Ht Hok]]]. simpl.
    destruct (Py.endswith f ".mbox").
    + destruct E as [seg [Hseg [Ht1 Hok1]]].
      exists (seg :: segs). simpl. repeat split.
      * constructor; assumption.
      * now rewrite Ht, Ht1, <- app_assoc.
      * now rewrite Hok, Hok1, all_zero_app, andb_assoc.
    + destruct E as [-> ->]. exists segs. repeat split; assumption.
Qed.

Lemma restore_walk_run (m : Migration) (dir : string)
    (triples : list (string * list string * list string)) (ok : bool)
    (s : state) (ok' : bool) (s' : state) :
  for_each World triples (restore_dir m dir) ok s = (inr ok', s') ->
  exists segs,
    Forall2 (upload_segment cwd m dir)
            (flat_map (fun t : string * list string * list string =>
                         map (pair (fst (fst t)))
                             (filter (fun f => Py.endswith f ".mbox") (snd t)))
                      triples)
            segs /\
    trace s' = trace s ++ concat segs /\
    ok' = ok && all_zero (concat segs).
Proof.
  revert ok s. induction triples as [|[[root dirs] files] triples IH];
    intros ok s H; simpl in H.
  - injection H as <- <-. exists []. simpl.
    rewrite app_nil_r, andb_true_r. repeat split. constructor.
  - unfold bind in H.
    destruct (for_each World files (restore_file m dir root) ok s)
      as [[e|ok1] s1] eqn:E; [discriminate |].
    apply restore_files_run in E. destruct E as [segs1 [HF1 [Ht1 Hok1]]].
    destruct (IH _ _ H) as [segs [HF [Ht Hok]]].
    exists (segs1 ++ segs). simpl. repeat split.
    + apply Forall2_app; assumption.
    + now rewrite Ht, Ht1, concat_app, <- app_assoc.
    + now rewrite Hok, Hok1, concat_app, all_zero_app, andb_assoc.
Qed.

(** One turn of the restore loop: a pair that is not [restorable] is left
    out, with no event or with the one error line; a restorable pair has
    one upload per backup file and is kept when they all returned zero. *)
Lemma restore_body_run (backup_dir : string) (acc : list Migration)
    (m : Migration) (s : state) (acc' : list Migration) (s' : state) :
  restore_body backup_dir acc m s = (inr acc', s') ->
  if restorable fs backup_dir m then
    exists name segs,
      username (old m) = Some name /\
      Forall2 (upload_segment cwd m (user_backup_dir backup_dir name))
              (mbox_files fs backup_dir m) segs /\
      trace s' = trace s ++
        Log INFO ("Restoring old " ++ Py.str (username (old m))
                  ++ " to new " ++ Py.str (username (new m)))
        :: concat segs /\
      acc' = acc ++ (if all_zero (concat segs) then [m] else [])
  else
    acc' = acc /\
    (s' = s \/
     exists name,
       username (old m) = Some name /\
       trace s' = trace s ++
         [Log ERROR ("Could not find backup directory "
                     ++ user_backup_dir backup_dir name
                     ++ ", skipping this mailbox.")]).
Proof.
  unfold restore_body, restorable, mbox_files.
  destruct (Py.truthy (username (new m))); simpl;
    [| unfold ret; intros [= <- <-]; auto].
  destruct (Py.truthy (host (new m))); simpl;
    [| unfold ret; intros [= <- <-]; auto].
  unfold bind at 1. unfold or_raise at 1.
  destruct (username (old m)) as [name|] eqn:Hn; [| discriminate].
  destruct (fs (user_backup_dir backup_dir name)) as [n|] eqn:Hfs.
  - unfold bind, emit. cbn [world trace]. intros H.
    destruct (for_each World _ _ true _) as [[e|ok] s1] eqn:E;
      [discriminate |].
    apply restore_walk_run in E. destruct E as [segs [HF [Ht Hok]]].
    unfold ret in H. injection H as <- <-.
    cbn [trace] in Ht. exists name, segs. repeat split; try assumption.
    + now rewrite Ht, <- app_assoc.
    + rewrite Hok. simpl. destruct (all_zero (concat segs));
        [reflexivity | now rewrite app_nil_r].
  - unfold bind, emit, ret. cbn [world trace]. intros [= <- <-].
    split; [reflexivity | right]. exists name. split; reflexivity.
Qed.

Lemma kept_Subseq {A B} (f : A -> option B) (l : list A)
    (segs : list (list event * list B)) :
  Forall2 (fun x seg => snd seg = [] \/
                        exists b, f x = Some b /\ snd seg = [b]) l segs ->
  Subseq (map Some (concat (map snd segs))) (map f l).
Proof.
  induction 1 as [|x [evs kept] l segs HQ _ IH]; simpl.
  - constructor.
  - simpl in HQ. destruct HQ as [-> | [b [Hf ->]]]; simpl.
    + now constructor.
    + rewrite Hf. now constructor.
Qed.

Lemma Subseq_map_Some {B} (sub l : list B) :
  Subseq (map Some sub) (map Some l) -> Subseq sub l.
Proof.
  intros H. remember (map Some sub) as sub' eqn:Es.
  remember (map Some l) as l' eqn:El.
  revert sub l Es El.
  induction H as [| x sub' l' H IH | x sub' l' H IH]; intros sub l Es El.
  - destruct sub; [| discriminate]. destruct l; [| discriminate]. constructor.
  - destruct l as [|y l]; [discriminate |]. injection El as -> ->.
    constructor. apply IH; [assumption | reflexivity].
  - destruct l as [|y l]; [discriminate |]. injection El as -> ->.
    destruct sub as [|b sub]; [discriminate |]. injection Es as <- ->.
    apply Subseq_keep. apply IH; reflexivity.
Qed.

Lemma upload_segments_calls (m : Migration) (dir : string)
    (files : list (string * string)) (segs : list (list event)) :
  Forall2 (upload_segment cwd m dir) files segs ->
  List.length (calls (concat segs)) = List.length files.
Proof.
  induction 1 as [|file seg files segs [box [cmdl [logged [rc [_ [_ [_ ->]]]]]]]
                   _ IH]; simpl; [reflexivity | now rewrite IH].
Qed.

(** The segments of a restore, pair by pair. *)
Lemma restore_segments (ms : list Migration) (backup_dir : string)
    (acc : list Migration) (s : state) (acc' : list Migration) (s' : state) :
  for_each World ms (restore_body backup_dir) acc s = (inr acc', s') ->
  exists segs : list (list event),
    trace s' = trace s ++ concat segs /\
    Forall2 (fun m seg =>
               if restorable fs backup_dir m
               then List.length (calls seg)
                    = List.length (mbox_files fs backup_dir m)
               else calls seg = []) ms segs /\
    acc' = acc ++ map fst
             (filter (fun p => restorable fs backup_dir (fst p)
                               && all_zero (snd p)) (combine ms segs)).
Proof.
  revert acc s. induction ms as [|m ms IH]; intros acc s H; simpl in H.
  - injection H as <- <-. exists []. simpl. rewrite !app_nil_r.
    repeat split. constructor.
  - unfold bind in H.
    destruct (restore_body backup_dir acc m s) as [[e|acc1] s1] eqn:E;
      [discriminate |].
    apply restore_body_run in E.
    destruct (IH _ _ H) as [segs [Ht [HF Hacc]]].
    destruct (restorable fs backup_dir m) eqn:Hr.
    + destruct E as [name [segs1 [Hn [HF1 [Ht1 Ha1]]]]].
      exists ((Log INFO ("Restoring old " ++ Py.str (username (old m))
                         ++ " to new " ++ Py.str (username (new m)))
               :: concat segs1) :: segs).
      repeat split.
      * rewrite Ht, Ht1. simpl. now rewrite <- app_assoc.
      * constructor; [| assumption]. rewrite Hr. simpl.
        eapply upload_segments_calls; eassumption.
      * rewrite Hacc, Ha1. cbn [combine filter fst snd]. rewrite Hr.
        cbn [andb]. rewrite all_zero_Log.
        destruct (all_zero (concat segs1)); cbn [map fst];
          rewrite <- app_assoc; reflexivity.
    + destruct E as [-> Hs].
      destruct Hs as [-> | [name [Hn Ht1]]].
      * exists ([] :: segs). simpl. rewrite Hr. simpl.
        repeat split; try assumption. constructor; [| assumption].
        now rewrite Hr.
      * exists ([Log ERROR ("Could not find backup directory "
                            ++ user_backup_dir backup_dir name
                            ++ ", skipping this mailbox.")] :: segs).
        simpl. rewrite Hr. simpl. repeat split; try assumption.
        -- rewrite Ht, Ht1. now rewrite <- app_assoc.
        -- constructor; [| assumption]. now rewrite Hr.
Qed.


(** C7: a pair whose destination username or host is empty (or missing)
    goes through the restore loop with no event at all, neither a child
    process nor a log line, and leaves the success list as it was; the
    restore of a list containing it is the restore of the list without it,
    so the other pairs are processed as usual; and it is never in the
    success list. *)
Theorem restore_skips_unset_destination (backup_dir : string) (m : Migration) :
  Py.truthy (username (new m)) = false \/ Py.truthy (host (new m)) = false ->
  (forall success s, restore_body backup_dir success m s = (inr success, s)) /\
  (forall pre post s,
      restore_mailboxes (pre ++ m :: post) backup_dir s =
      restore_mailboxes (pre ++ post) backup_dir s) /\
  (forall ms s success s',
      restore_mailboxes ms backup_dir s = (inr success, s') ->
      ~ In m success).
Proof.
  intros Hunset.
  assert (forall success s, restore_body backup_dir success m s
                            = (inr success, s)) as Hskip.
  { intros success s. unfold restore_body.
    destruct Hunset as [-> | ->]; simpl; rewrite ?orb_true_r; reflexivity. }
  split; [exact Hskip | split].
  - intros pre post s. unfold restore_mailboxes.
    rewrite !for_each_app. unfold bind.
    destruct (for_each World pre (restore_body backup_dir) [] s)
      as [[e|acc] s1]; [reflexivity |].
    simpl. unfold bind. now rewrite Hskip.
  - intros ms s success s' H Hin.
    apply restore_segments in H. destruct H as [segs [_ [_ ->]]].
    simpl in Hin. apply in_map_iff in Hin.
    destruct Hin as [[m' seg] [Hm Hin]]. simpl in Hm. subst m'.
    apply filter_In in Hin. destruct Hin as [_ Hr]. simpl in Hr.
    apply andb_true_iff in Hr. destruct Hr as [Hr _].
    unfold restorable in Hr.
    destruct Hunset as [Hu | Hu]; rewrite Hu in Hr; simpl in Hr;
      rewrite ?andb_false_r in Hr; discriminate.
Qed.

(** The turns of the lister, one segment per migration. *)
Lemma list_segments (type_ : string) (ms : list Migration)
    (acc : list Mailbox) (s : state) (acc' : list Mailbox) (s' : state) :
  for_each World ms (list_body type_) acc s = (inr acc', s') ->
  exists segs : list (list event * list Mailbox),
    trace s' = trace s ++ concat (map fst segs) /\
    acc' = acc ++ concat (map snd segs) /\
    Forall2 (fun m seg =>
               exists mailbox cmdl rc,
                 getattr m type_ = Some mailbox /\
                 shlex.split (list_command mailbox) = Some cmdl /\
                 fst seg =
                   [Log INFO ("Listing mailbox " ++ Py.str (username mailbox));
                    LogList DEBUG (removelast cmdl ++ ["******"]);
                    Call cmdl (Some rc)] /\
                 snd seg = if Z.eqb rc 0 then [mailbox] else [])
            ms segs.
Proof.
  apply (for_each_segments (list_body type_)
           (fun m evs kept =>
              exists mailbox cmdl rc,
                getattr m type_ = Some mailbox /\
                shlex.split (list_command mailbox) = Some cmdl /\
                evs =
                  [Log INFO ("Listing mailbox " ++ Py.str (username mailbox));
                   LogList DEBUG (removelast cmdl ++ ["******"]);
                   Call cmdl (Some rc)] /\
                kept = if Z.eqb rc 0 then [mailbox] else [])).
  intros a m s0 a' s0' H.
  apply list_body_run in H.
  destruct H as [mailbox [cmdl [rc [Hg [Hs [Ht Ha]]]]]].
  eexists. eexists. split; [exact Ht | split; [exact Ha |]].
  exists mailbox, cmdl, rc. repeat split; try assumption; reflexivity.
Qed.

Lemma backup_segments (output_dir : string) (ms : list Migration)
    (acc : list Mailbox) (s : state) (acc' : list Mailbox) (s' : state) :
  for_each World ms (backup_body output_dir) acc s = (inr acc', s') ->
  exists segs : list (list event * list Mailbox),
    trace s' = trace s ++ concat (map fst segs) /\
    acc' = acc ++ concat (map snd segs) /\
    Forall2 (fun m seg =>
               exists name cmdl logged rc,
                 username (old m) = Some name /\
                 shlex.split
                   (backup_command (old m)
                      (user_output_dir cwd output_dir name)) = Some cmdl /\
                 set_from_end 3 "******" cmdl = Some logged /\
                 fst seg =
                   [Log INFO ("Backing up mailbox "
                              ++ Py.str (username (old m)));
                    Mkdir (user_output_dir cwd output_dir name);
                    LogList DEBUG logged;
                    Call cmdl (Some rc)] /\
                 snd seg = if Z.eqb rc 0 then [old m] else [])
            ms segs.
Proof.
  apply (for_each_segments (backup_body output_dir)
           (fun m evs kept =>
              exists name cmdl logged rc,
                username (old m) = Some name /\
                shlex.split
                  (backup_command (old m)
                     (user_output_dir cwd output_dir name)) = Some cmdl /\
                set_from_end 3 "******" cmdl = Some logged /\
                evs =
                  [Log INFO ("Backing up mailbox "
                             ++ Py.str (username (old m)));
                   Mkdir (user_output_dir cwd output_dir name);
                   LogList DEBUG logged;
                   Call cmdl (Some rc)] /\
                kept = if Z.eqb rc 0 then [old m] else [])).
  intros a m s0 a' s0' H.
  apply backup_body_run in H.
  destruct H as [name [cmdl [logged [rc [Hn [Hs [Hl [Ht Ha]]]]]]]].
  eexists. eexists. split; [exact Ht | split; [exact Ha |]].
  exists name, cmdl, logged, rc. repeat split; try assumption; reflexivity.
Qed.

(** C8 as the code has it: a listing that completes has run one child
    process per migration of the sequence, in order, and returns the
    mailboxes whose process returned zero. *)
Theorem list_mailboxes_processes_all (ms : list Migration) (type_ : string)
    (s : state) (success : list Mailbox) (s' : state) :
  list_mailboxes ms type_ s = (inr success, s') ->
  exists evs,
    trace s' = trace s ++ evs /\
    List.length (calls evs) = List.length ms /\
    map Some success =
    map (fun p => getattr (fst p) type_)
        (filter (fun p => returned_zero (snd p)) (combine ms (calls evs))).
Proof.
  intros H. apply list_segments in H.
  destruct H as [segs [Ht [-> HF]]].
  exists (concat (map fst segs)). split; [exact Ht |]. clear Ht. simpl.
  induction HF as [|m [evs kept] ms segs
                    [mailbox [cmdl [rc [Hg [_ [Hevs Hkept]]]]]] _ [IH1 IH2]];
    simpl in *; [split; reflexivity |]. subst evs kept.
  rewrite calls_app, length_app, IH1. split; [reflexivity |].
  cbn [calls app combine filter returned_zero snd].
  rewrite map_app, IH2.
  destruct (Z.eqb rc 0); simpl; [rewrite Hg |]; reflexivity.
Qed.

(** C10: the success list of each runner is a subsequence of the elements
    it was given: of the mailboxes [type_] selects for the lister, of the
    source mailboxes for the backup, of the pairs themselves for the
    restore. *)
Theorem success_is_subsequence :
  (forall ms type_ s success s',
      list_mailboxes ms type_ s = (inr success, s') ->
      Subseq (map Some success) (map (fun m => getattr m type_) ms)) /\
  (forall ms output_dir s success s',
      backup_mailboxes ms output_dir s = (inr success, s') ->
      Subseq success (map old ms)) /\
  (forall ms backup_dir s success s',
      restore_mailboxes ms backup_dir s = (inr success, s') ->
      Subseq success ms).
Proof.
  split; [| split].
  - intros ms type_ s success s' H. apply list_segments in H.
    destruct H as [segs [_ [-> HF]]]. simpl.
    apply kept_Subseq. eapply Forall2_impl; [| exact HF].
    intros m seg [mailbox [cmdl [rc [Hg [_ [_ Hk]]]]]].
    destruct (Z.eqb rc 0); [right; eauto | left; assumption].
  - intros ms output_dir s success s' H.
    unfold backup_mailboxes, bind, makedirs_exist_ok in H.
    destruct (os_makedirs output_dir (world s)) as [[|] w]; [| discriminate].
  destruct (Py.has_nul output_dir); [discriminate |].
    apply backup_segments in H. destruct H as [segs [_ [-> HF]]]. simpl.
    apply Subseq_map_Some. rewrite map_map.
    apply (kept_Subseq (fun m => Some (old m))).
    eapply Forall2_impl; [| exact HF].
    intros m seg [name [cmdl [logged [rc [_ [_ [_ [_ Hk]]]]]]]].
    destruct (Z.eqb rc 0); [right; eauto | left; assumption].
  - intros ms backup_dir s success s' H. apply restore_segments in H.
    destruct H as [segs [_ [_ ->]]]. simpl. clear.
    revert segs. induction ms as [|m ms IH]; intros [|seg segs]; simpl.
    + constructor.
    + constructor.
    + apply Subseq_skip. clear. induction ms; constructor; assumption.
    + destruct (restorable fs backup_dir m && all_zero seg); simpl.
      * apply Subseq_keep, IH.
      * apply Subseq_skip, IH.
Qed.

End RunnerProperties.

(** ** Paths *)

Lemma endswith_char_cons (c x y : ascii) (s : string) :
  Py.endswith (String x (String y s)) (String c EmptyString) =
  Py.endswith (String y s) (String c EmptyString).
Proof.
  unfold Py.endswith. cbn [String.length]. rewrite !Nat.sub_succ, !Nat.sub_0_r.
  reflexivity.
Qed.

Lemma endswith_char_inv (c : ascii) (p : string) :
  Py.endswith p (String c EmptyString) = true ->
  exists q, p = (q ++ String c EmptyString)%string.
Proof.
  induction p as [|x p IH]; [discriminate |].
  destruct p as [|y p].
  - unfold Py.endswith. simpl. destruct (Ascii.eqb x c) eqn:E;
      [| discriminate].
    apply Ascii.eqb_eq in E. subst x. exists EmptyString. reflexivity.
  - rewrite endswith_char_cons. intros H. destruct (IH H) as [q Hq].
    exists (String x q). simpl. now rewrite Hq.
Qed.

Lemma endswith_char_append (c : ascii) (a b : string) :
  b <> EmptyString ->
  Py.endswith (a ++ b) (String c EmptyString) =
  Py.endswith b (String c EmptyString).
Proof.
  intros Hb. induction a as [|x a IH]; [reflexivity |].
  simpl. destruct (a ++ b)%string as [|y r] eqn:E.
  - destruct a; [simpl in E; contradiction | discriminate].
  - rewrite endswith_char_cons. exact IH.
Qed.

Lemma no_slash_endswith (s : string) :
  no_slash s = true -> Py.endswith s "/" = false.
Proof.
  induction s as [|x s IH]; [reflexivity |].
  simpl. intros H. apply andb_true_iff in H. destruct H as [Hx Hs].
  destruct s as [|y s].
  - unfold Py.endswith. simpl. apply negb_true_iff in Hx. now rewrite Hx.
  - rewrite endswith_char_cons. auto.
Qed.

Lemma no_slash_startswith (s : string) :
  no_slash s = true -> Py.startswith s "/" = false.
Proof.
  destruct s as [|x s]; [reflexivity |]. cbn [no_slash]. intros H.
  apply andb_true_iff in H. destruct H as [Hx _].
  unfold Py.startswith. cbn [String.prefix].
  destruct (ascii_dec "/" x) as [<- | _]; [discriminate | reflexivity].
Qed.

Lemma good_name_parts (s : string) :
  good_name s = true ->
  s <> EmptyString /\ s <> "." /\ s <> ".." /\ no_slash s = true.
Proof.
  unfold good_name. rewrite !andb_true_iff, !negb_true_iff, !String.eqb_neq.
  tauto.
Qed.

Lemma split_not_nil (s : string) : Py.split "/" s <> [].
Proof.
  induction s as [|x s IH]; simpl; [discriminate |].
  destruct (Ascii.eqb x "/"); [discriminate |].
  destruct (Py.split "/" s); discriminate.
Qed.

Lemma split_append_sep (a b : string) :
  Py.split "/" (a ++ String "/" b) = Py.split "/" a ++ Py.split "/" b.
Proof.
  induction a as [|x a IH]; simpl.
  - reflexivity.
  - destruct (Ascii.eqb x "/").
    + now rewrite IH.
    + rewrite IH. destruct (Py.split "/" a) eqn:E; [| reflexivity].
      now apply split_not_nil in E.
Qed.

Lemma split_no_slash (s : string) : no_slash s = true -> Py.split "/" s = [s].
Proof.
  induction s as [|x s IH]; [reflexivity |]. simpl. intros H.
  apply andb_true_iff in H. destruct H as [Hx Hs].
  apply negb_true_iff in Hx. rewrite Hx, (IH Hs). reflexivity.
Qed.

(** What [join] adds to a path for a plain name. *)
Lemma join2_good (path name : string) :
  good_name name = true ->
  posixpath.join2 path name =
  (if (path =? EmptyString) || Py.endswith path "/" then path ++ name
   else path ++ String "/" name)%string.
Proof.
  intros H. apply good_name_parts in H. destruct H as [_ [_ [_ Hs]]].
  unfold posixpath.join2. now rewrite (no_slash_startswith _ Hs).
Qed.

(** The components of a path extended by a plain name. *)
Lemma split_join2 (path name : string) :
  good_name name = true ->
  exists comps,
    Py.split "/" (posixpath.join2 path name) = comps ++ [name] /\
    (Py.split "/" path = comps \/ Py.split "/" path = comps ++ [EmptyString]).
Proof.
  intros H. rewrite (join2_good _ _ H).
  apply good_name_parts in H. destruct H as [_ [_ [_ Hs]]].
  destruct (path =? EmptyString) eqn:E.
  - apply String.eqb_eq in E. subst path. simpl. exists [].
    rewrite (split_no_slash _ Hs). split; [reflexivity | right; reflexivity].
  - simpl. destruct (Py.endswith path "/") eqn:Es.
    + apply endswith_char_inv in Es. destruct Es as [q ->].
      exists (Py.split "/" q).
      rewrite append_assoc. simpl.
      rewrite !split_append_sep, (split_no_slash _ Hs). simpl.
      split; [reflexivity | right; reflexivity].
    + exists (Py.split "/" path).
      rewrite split_append_sep, (split_no_slash _ Hs).
      split; [reflexivity | left; reflexivity].
Qed.

Lemma append_not_empty (a b : string) :
  b <> EmptyString -> (a ++ b)%string <> EmptyString.
Proof. destruct a; simpl; [auto | discriminate]. Qed.

Lemma eqb_empty_false (s : string) :
  s <> EmptyString -> (s =? EmptyString) = false.
Proof. intros H. now apply String.eqb_neq. Qed.

Lemma join2_prefix (a x name : string) :
  x <> EmptyString -> good_name name = true ->
  posixpath.join2 (a ++ x) name = (a ++ posixpath.join2 x name)%string.
Proof.
  intros Hx Hn. rewrite !join2_good by assumption.
  rewrite (endswith_char_append "/" a x Hx).
  rewrite (eqb_empty_false _ (append_not_empty a x Hx)).
  rewrite (eqb_empty_false _ Hx). simpl.
  destruct (Py.endswith x "/"); now rewrite append_assoc.
Qed.

Lemma join2_not_empty (x name : string) :
  good_name name = true -> posixpath.join2 x name <> EmptyString.
Proof.
  intros Hn. rewrite join2_good by assumption.
  apply good_name_parts in Hn. destruct Hn as [Hne _].
  destruct ((x =? EmptyString) || Py.endswith x "/").
  - now apply append_not_empty.
  - apply append_not_empty. discriminate.
Qed.

Lemma join_prefix (a x : string) (p : list string) :
  x <> EmptyString -> Forall (fun n => good_name n = true) p ->
  posixpath.join (a ++ x) p = (a ++ posixpath.join x p)%string.
Proof.
  intros Hx Hp. revert x Hx.
  induction Hp as [|name p Hn _ IH]; intros x Hx; simpl; [reflexivity |].
  rewrite join2_prefix by assumption.
  apply IH. now apply join2_not_empty.
Qed.

(** [join] of plain names puts one slash between them. *)
Lemma join_good_names (a : string) (p : list string) :
  Forall (fun n => good_name n = true) (a :: p) ->
  posixpath.join a p = String.concat "/" (a :: p).
Proof.
  revert a. induction p as [|b p IH]; intros a H; [reflexivity |].
  inversion H as [|? ? Ha Hp]; subst.
  inversion Hp as [|? ? Hb Hp']; subst.
  cbn [posixpath.join fold_left]. rewrite join2_good by assumption.
  destruct (good_name_parts _ Ha) as [Hane [_ [_ Hns]]].
  destruct (good_name_parts _ Hb) as [Hbne _].
  rewrite (eqb_empty_false _ Hane), (no_slash_endswith _ Hns). simpl.
  replace (a ++ String "/" b)%string with ((a ++ "/") ++ b)%string
    by (rewrite append_assoc; reflexivity).
  change (fold_left posixpath.join2 p ((a ++ "/") ++ b)%string)
    with (posixpath.join ((a ++ "/") ++ b) p).
  rewrite join_prefix by assumption.
  rewrite (IH b Hp). rewrite append_assoc. reflexivity.
Qed.

(** [normpath]'s loop over components. *)
Lemma norm_step_absolute (k1 k2 : nat) (acc : list string) (comp : string) :
  k1 <> 0 -> k2 <> 0 ->
  posixpath.norm_step k1 acc comp = posixpath.norm_step k2 acc comp.
Proof.
  intros H1 H2. unfold posixpath.norm_step.
  destruct k1; [contradiction |]. destruct k2; [contradiction |].
  reflexivity.
Qed.

Lemma fold_norm_absolute (k1 k2 : nat) (comps acc : list string) :
  k1 <> 0 -> k2 <> 0 ->
  fold_left (posixpath.norm_step k1) comps acc =
  fold_left (posixpath.norm_step k2) comps acc.
Proof.
  intros H1 H2. revert acc. induction comps as [|c comps IH]; intros acc;
    simpl; [reflexivity |].
  now rewrite IH, (norm_step_absolute k1 k2).
Qed.

Lemma norm_step_good (k : nat) (acc : list string) (name : string) :
  good_name name = true -> posixpath.norm_step k acc name = acc ++ [name].
Proof.
  intros H. apply good_name_parts in H. destruct H as [H1 [H2 [H3 _]]].
  unfold posixpath.norm_step.
  apply String.eqb_neq in H1, H2, H3. now rewrite H1, H2, H3.
Qed.

Lemma Forall_removelast {A} (P : A -> Prop) (l : list A) :
  Forall P l -> Forall P (removelast l).
Proof.
  induction 1 as [|x l Hx Hl IH]; simpl; [constructor |].
  destruct l; [constructor | constructor; assumption].
Qed.

Lemma fold_norm_plain (k : nat) (comps acc : list string) :
  Forall (fun c => no_slash c = true) comps -> Forall plain acc ->
  Forall plain (fold_left (posixpath.norm_step k) comps acc).
Proof.
  intros Hc. revert acc. induction Hc as [|c comps Hns _ IH]; intros acc Ha;
    simpl; [assumption |].
  apply IH. unfold posixpath.norm_step.
  destruct (c =? EmptyString) eqn:E; simpl; [assumption |].
  destruct (c =? "."); simpl; [assumption |].
  match goal with |- Forall _ (if ?b then _ else _) => destruct b end.
  - apply Forall_app. split; [assumption |]. constructor; [| constructor].
    split; [now apply String.eqb_neq | assumption].
  - now apply Forall_removelast.
Qed.

Lemma split_no_slashes (s : string) :
  Forall (fun c => no_slash c = true) (Py.split "/" s).
Proof.
  induction s as [|x s IH]; simpl.
  - constructor; [reflexivity | constructor].
  - destruct (Ascii.eqb x "/") eqn:E.
    + constructor; [reflexivity | assumption].
    + destruct (Py.split "/" s) as [|w ws]; [repeat constructor; simpl;
                                              now rewrite E |].
      inversion IH; subst. constructor; [| assumption].
      simpl. now rewrite E.
Qed.

Lemma concat_cons2 (x y : string) (l : list string) :
  String.concat "/" (x :: y :: l) =
  (x ++ String "/" (String.concat "/" (y :: l)))%string.
Proof. reflexivity. Qed.

Lemma split_concat_plain (comps : list string) :
  Forall plain comps ->
  filter posixpath.nonempty (Py.split "/" (String.concat "/" comps)) = comps.
Proof.
  induction 1 as [|x comps [Hne Hns] Hrest IH]; [reflexivity |].
  destruct comps as [|y comps].
  - simpl. rewrite (split_no_slash _ Hns). simpl.
    unfold posixpath.nonempty. now rewrite (eqb_empty_false _ Hne).
  - rewrite concat_cons2.
    rewrite split_append_sep, filter_app, IH, (split_no_slash _ Hns).
    simpl. unfold posixpath.nonempty. now rewrite (eqb_empty_false _ Hne).
Qed.

Lemma split_leading_slashes (k : nat) (s : string) :
  filter posixpath.nonempty (Py.split "/" (posixpath.slashes_string k ++ s)) =
  filter posixpath.nonempty (Py.split "/" s).
Proof. induction k as [|k IH]; simpl; [reflexivity | exact IH]. Qed.

Lemma prefix_empty (s : string) : String.prefix EmptyString s = true.
Proof. destruct s; reflexivity. Qed.

Lemma isabs_inv (p : string) :
  posixpath.isabs p = true -> exists r, p = String "/" r.
Proof.
  unfold posixpath.isabs, Py.startswith. destruct p as [|x r];
    cbn [String.prefix]; [discriminate |].
  destruct (ascii_dec "/" x) as [<- | _]; [eauto | discriminate].
Qed.

Lemma isabs_cons (r : string) : posixpath.isabs (String "/" r) = true.
Proof.
  unfold posixpath.isabs, Py.startswith. cbn [String.prefix].
  destruct (ascii_dec "/" "/"); [destruct r; reflexivity | contradiction].
Qed.

Lemma initial_slashes_absolute (p : string) :
  posixpath.isabs p = true -> posixpath.initial_slashes p <> 0.
Proof.
  unfold posixpath.isabs, posixpath.initial_slashes. intros ->.
  destruct (_ && _); discriminate.
Qed.

Abbreviation components cwd p :=
  (filter posixpath.nonempty (Py.split "/" (posixpath.abspath cwd p))).

Abbreviation normpath_arg cwd p :=
  (if posixpath.isabs p%string then p%string
   else posixpath.join cwd (p%string :: nil)).

(** The components of a normalized absolute path are what the loop of
    [normpath] leaves. *)
Lemma normpath_components (p : string) :
  posixpath.isabs p = true ->
  filter posixpath.nonempty (Py.split "/" (posixpath.normpath p)) =
  fold_left (posixpath.norm_step 1) (Py.split "/" p) [].
Proof.
  intros Habs. pose proof (initial_slashes_absolute p Habs) as Hk.
  destruct (isabs_inv p Habs) as [r ->].
  unfold posixpath.normpath.
  change (String "/" r =? EmptyString) with false. cbv iota.
  set (k := posixpath.initial_slashes (String "/" r)) in *.
  set (comps := fold_left (posixpath.norm_step k) _ []).
  assert ((posixpath.slashes_string k ++ String.concat "/" comps
           =? EmptyString)%string = false) as ->.
  { destruct k; [contradiction | reflexivity]. }
  rewrite split_leading_slashes, split_concat_plain.
  - subst comps. apply fold_norm_absolute; [assumption | discriminate].
  - subst comps. apply fold_norm_plain; [apply split_no_slashes | constructor].
Qed.

Lemma normpath_arg_isabs (cwd p : string) :
  posixpath.isabs cwd = true -> posixpath.isabs (normpath_arg cwd p) = true.
Proof.
  intros Hc. destruct (posixpath.isabs p) eqn:Hp; [assumption |].
  cbn [posixpath.join fold_left]. unfold posixpath.join2.
  unfold posixpath.isabs in Hp. rewrite Hp.
  destruct (isabs_inv cwd Hc) as [r ->].
  destruct (_ || _); apply isabs_cons.
Qed.

Lemma join2_isabs (q name : string) :
  posixpath.isabs q = true -> good_name name = true ->
  posixpath.isabs (posixpath.join2 q name) = true.
Proof.
  intros Hq Hn. rewrite join2_good by assumption.
  destruct (isabs_inv q Hq) as [r ->].
  destruct (_ || _); apply isabs_cons.
Qed.

Lemma join2_relative (path name : string) :
  posixpath.isabs path = false -> good_name name = true ->
  posixpath.isabs (posixpath.join2 path name) = false.
Proof.
  intros Hp Hn. rewrite join2_good by assumption.
  destruct (good_name_parts _ Hn) as [_ [_ [_ Hns]]].
  destruct path as [|x path].
  - simpl. exact (no_slash_startswith _ Hns).
  - unfold posixpath.isabs, Py.startswith in *.
    destruct (_ || _); cbn [String.append String.prefix] in *;
      (destruct (ascii_dec "/" x);
         [rewrite prefix_empty in Hp; discriminate | reflexivity]).
Qed.

Lemma normpath_arg_join2 (cwd path name : string) :
  posixpath.isabs cwd = true -> good_name name = true ->
  normpath_arg cwd (posixpath.join2 path name) =
  posixpath.join2 (normpath_arg cwd path) name.
Proof.
  intros Hc Hn. destruct (posixpath.isabs path) eqn:Hp.
  - now rewrite join2_isabs.
  - rewrite join2_relative by assumption.
    cbn [posixpath.join fold_left].
    destruct (isabs_inv cwd Hc) as [r Hr].
    assert (cwd <> EmptyString) as Hcne by (subst; discriminate).
    assert (forall x, posixpath.isabs x = false ->
                      posixpath.join2 cwd x =
                      ((if Py.endswith cwd "/" then cwd else cwd ++ "/") ++ x)
                      %string) as Hj.
    { intros x Hx. unfold posixpath.join2. unfold posixpath.isabs in Hx.
      rewrite Hx, (eqb_empty_false _ Hcne). simpl.
      destruct (Py.endswith cwd "/"); [reflexivity |].
      now rewrite append_assoc. }
    rewrite (Hj _ (join2_relative _ _ Hp Hn)), (Hj _ Hp).
    set (C := (if Py.endswith cwd "/" then cwd else cwd ++ "/")%string).
    assert (exists q, C = (q ++ "/")%string) as [q HC].
    { subst C. destruct (Py.endswith cwd "/") eqn:E.
      - now apply endswith_char_inv.
      - now exists cwd. }
    destruct path as [|x path].
    + rewrite append_empty_r. rewrite !join2_good by assumption. simpl.
      assert (Py.endswith C "/" = true) as ->
          by (rewrite HC; apply endswith_append).
      now rewrite orb_true_r.
    + rewrite join2_prefix by (assumption || discriminate). reflexivity.
Qed.

(** A plain name appended with [join] is one more component of the
    absolute path. *)
Lemma components_join2 (cwd path name : string) :
  posixpath.isabs cwd = true -> good_name name = true ->
  components cwd (posixpath.join2 path name) = components cwd path ++ [name].
Proof.
  intros Hc Hn. unfold posixpath.abspath.
  rewrite normpath_arg_join2 by assumption.
  pose proof (normpath_arg_isabs cwd path Hc) as Hq.
  set (q := normpath_arg cwd path) in *.
  rewrite !normpath_components by (assumption || now apply join2_isabs).
  destruct (split_join2 q name Hn) as [comps [-> [-> | ->]]].
  - rewrite fold_left_app. simpl. now apply norm_step_good.
  - rewrite !fold_left_app. simpl. now apply norm_step_good.
Qed.

Lemma components_join (cwd top : string) (names : list string) :
  posixpath.isabs cwd = true ->
  Forall (fun n => good_name n = true) names ->
  components cwd (posixpath.join top names) = components cwd top ++ names.
Proof.
  intros Hc Hn. revert top. induction Hn as [|name names Hg _ IH]; intros top.
  - simpl. now rewrite app_nil_r.
  - cbn [posixpath.join fold_left].
    change (fold_left posixpath.join2 names (posixpath.join2 top name))
      with (posixpath.join (posixpath.join2 top name) names).
    rewrite IH, components_join2 by assumption.
    now rewrite <- app_assoc.
Qed.

Lemma commonprefix_app (l r : list string) :
  posixpath.commonprefix l (l ++ r) = l.
Proof.
  induction l as [|x l IH]; simpl; [destruct r; reflexivity |].
  now rewrite String.eqb_refl, IH.
Qed.

Lemma join_not_empty (top : string) (names : list string) :
  names <> [] -> Forall (fun n => good_name n = true) names ->
  posixpath.join top names <> EmptyString.
Proof.
  intros Hne Hn. revert top.
  induction Hn as [|name names Hg Hrest IH]; intros top; [contradiction |].
  cbn [posixpath.join fold_left]. destruct names as [|n2 names].
  - simpl. now apply join2_not_empty.
  - apply IH. discriminate.
Qed.

(** [relpath] of a path made by joining plain names to [start]: the names
    with one slash between them. *)
Lemma relpath_below (cwd top : string) (names : list string) :
  posixpath.isabs cwd = true ->
  names <> [] ->
  Forall (fun n => good_name n = true) names ->
  posixpath.relpath cwd (posixpath.join top names) top =
  Some (String.concat "/" names).
Proof.
  intros Hc Hne Hn. unfold posixpath.relpath.
  rewrite (eqb_empty_false _ (join_not_empty top names Hne Hn)).
  rewrite components_join by assumption.
  rewrite commonprefix_app, Nat.sub_diag, skipn_app, skipn_all, Nat.sub_diag.
  simpl. destruct names as [|a p]; [contradiction |].
  now rewrite join_good_names.
Qed.

Lemma normpath_isabs (p : string) :
  posixpath.isabs p = true -> posixpath.isabs (posixpath.normpath p) = true.
Proof.
  intros Habs. pose proof (initial_slashes_absolute p Habs) as Hk.
  destruct (isabs_inv p Habs) as [r ->].
  unfold posixpath.normpath.
  change (String "/" r =? EmptyString) with false. cbv iota.
  set (k := posixpath.initial_slashes (String "/" r)) in *.
  set (comps := fold_left (posixpath.norm_step k) _ []).
  destruct k as [|k]; [contradiction |].
  cbn [posixpath.slashes_string String.append].
  change (String "/" (posixpath.slashes_string k ++ String.concat "/" comps)
          =? EmptyString) with false.
  cbv iota. apply isabs_cons.
Qed.

Lemma abspath_isabs (cwd p : string) :
  posixpath.isabs cwd = true ->
  posixpath.isabs (posixpath.abspath cwd p) = true.
Proof.
  intros H. unfold posixpath.abspath. apply normpath_isabs.
  now apply normpath_arg_isabs.
Qed.

(** ** The walk of the backup tree *)

Lemma good_tree_entry (entries : list (string * node)) (name : string)
    (sub : node) :
  good_tree (Dir entries) -> In (name, sub) entries ->
  good_name name = true /\ good_tree sub.
Proof.
  induction entries as [|[n0 s0] entries IH]; simpl; [contradiction |].
  intros [Hn [Hs Hrest]] [[= -> ->] | Hin]; [split; assumption |].
  apply IH; assumption.
Qed.

Lemma walk_below (top : string) (entries : list (string * node)) (d : string)
    (n : node) (t : string * list string * list string) :
  In (d, n) entries -> In t (walk (posixpath.join top [d]) n) ->
  In t (walk top (Dir entries)).
Proof.
  intros Hin Ht. cbn [walk]. right.
  induction entries as [|[d0 n0] entries IH]; [contradiction |].
  apply in_or_app. destruct Hin as [[= -> ->] | Hin].
  - left. exact Ht.
  - right. apply IH. exact Hin.
Qed.

Lemma filenames_In (entries : list (string * node)) (f : string) :
  In f (filenames entries) -> exists n, In (f, n) entries.
Proof.
  unfold filenames. intros H. apply in_map_iff in H.
  destruct H as [[f' n] [Hf Hin]]. simpl in Hf. subst f'.
  apply filter_In in Hin. exists n. tauto.
Qed.

Lemma located_walk (entries : list (string * node)) (P : list string)
    (f : string) :
  located entries P f ->
  forall top, good_tree (Dir entries) ->
  exists dirs files,
    In (posixpath.join top P, dirs, files) (walk top (Dir entries)) /\
    In f files /\
    Forall (fun n => good_name n = true) (P ++ [f]).
Proof.
  induction 1 as [entries f Hf | entries d sub P f Hd Hloc IH];
    intros top Hgood.
  - exists (dirnames entries), (filenames entries). repeat split.
    + left. reflexivity.
    + assumption.
    + destruct (filenames_In _ _ Hf) as [n Hn].
      constructor; [| constructor].
      exact (proj1 (good_tree_entry _ _ _ Hgood Hn)).
  - destruct (good_tree_entry _ _ _ Hgood Hd) as [Hdn Hsub].
    destruct (IH (posixpath.join top [d]) Hsub) as [dirs [files [Hw [Hin HF]]]].
    exists dirs, files. repeat split.
    + eapply walk_below; [exact Hd | exact Hw].
    + assumption.
    + constructor; assumption.
Qed.

Lemma concat_last_append (P : list string) (a b : string) :
  String.concat "/" (P ++ [(a ++ b)%string]) =
  (String.concat "/" (P ++ [a]) ++ b)%string.
Proof.
  induction P as [|x P IH]; [reflexivity |].
  destruct P as [|y P].
  - simpl. now rewrite append_assoc.
  - change ((x :: y :: P) ++ [(a ++ b)%string])
      with (x :: y :: (P ++ [(a ++ b)%string])).
    change ((x :: y :: P) ++ [a]) with (x :: y :: (P ++ [a])).
    rewrite !concat_cons2.
    change (y :: P ++ [(a ++ b)%string]) with ((y :: P) ++ [(a ++ b)%string]).
    rewrite IH. simpl. now rewrite append_assoc.
Qed.

(** The folder path of a backup file [stem.mbox] at the component path [P]
    below [dir]: the components of [P] and [stem] with one slash between
    them. *)
Lemma box_imap_path_below (cwd dir : string) (P : list string)
    (stem : string) :
  posixpath.isabs cwd = true ->
  Forall (fun n => good_name n = true) (P ++ [(stem ++ ".mbox")%string]) ->
  box_imap_path cwd dir (posixpath.join dir P) (stem ++ ".mbox")
  = Some (String.concat "/" (P ++ [stem])).
Proof.
  intros Hc HF. unfold box_imap_path.
  change (posixpath.join (posixpath.join dir P) [(stem ++ ".mbox")%string])
    with (fold_left posixpath.join2 [(stem ++ ".mbox")%string]
            (fold_left posixpath.join2 P dir)).
  rewrite <- fold_left_app.
  change (fold_left posixpath.join2 (P ++ [(stem ++ ".mbox")%string]) dir)
    with (posixpath.join dir (P ++ [(stem ++ ".mbox")%string])).
  rewrite relpath_below; try assumption; [| now destruct P].
  cbn [option_map]. f_equal. rewrite concat_last_append.
  exact (drop_last_append _ ".mbox").
Qed.

Lemma join_snoc (dir : string) (P : list string) (f : string) :
  posixpath.join (posixpath.join dir P) [f] = posixpath.join dir (P ++ [f]).
Proof. unfold posixpath.join. now rewrite fold_left_app. Qed.

Lemma Forall2_In_l {A B} (R : A -> B -> Prop) (l : list A) (l' : list B)
    (x : A) :
  Forall2 R l l' -> In x l -> exists y, In y l' /\ R x y.
Proof.
  induction 1 as [|a b l l' Hab _ IH]; [contradiction |].
  intros [<- | Hin].
  - exists b. split; [now left | assumption].
  - destruct (IH Hin) as [y [Hy HR]]. exists y. split; [now right | assumption].
Qed.

Lemma Forall2_In_r {A B} (R : A -> B -> Prop) (l : list A) (l' : list B)
    (y : B) :
  Forall2 R l l' -> In y l' -> exists x, In x l /\ R x y.
Proof.
  induction 1 as [|a b l l' Hab _ IH]; [contradiction |].
  intros [<- | Hin].
  - exists a. split; [now left | assumption].
  - destruct (IH Hin) as [x [Hx HR]]. exists x. split; [now right | assumption].
Qed.

Section FolderPath.

Variable World : Type.
Variable subprocess_call : list string -> World -> option Z * World.
Variable cwd : string.
Variable fs : string -> option node.

(** One turn of the restore loop, on a pair whose destination is set and
    whose backup directory is there. *)
Lemma restore_body_folder_path (backup_dir : string) (acc : list Migration)
    (m : Migration) (s : run_state World) (acc' : list Migration)
    (s' : run_state World) (name : string) (entries : list (string * node)) :
  posixpath.isabs cwd = true ->
  Py.truthy (username (new m)) = true ->
  Py.truthy (host (new m)) = true ->
  username (old m) = Some name ->
  fs (user_backup_dir backup_dir name) = Some (Dir entries) ->
  good_tree (Dir entries) ->
  restore_body World subprocess_call cwd fs backup_dir acc m s
  = (inr acc', s') ->
  exists evs,
    trace s' = trace s ++ evs /\
    (forall P stem,
        located entries P (stem ++ ".mbox") ->
        exists cmdl rc,
          In (Call cmdl (Some rc)) evs /\
          shlex.split
            (restore_command
               (new m) (String.concat "/" (P ++ [stem]))
               (posixpath.abspath
                  cwd
                  (posixpath.join (user_backup_dir backup_dir name)
                                  (P ++ [(stem ++ ".mbox")%string]))))
          = Some cmdl) /\
    (forall cmdl r,
        In (Call cmdl r) evs ->
        exists root dirs files f box,
          In (root, dirs, files)
             (os_walk fs (user_backup_dir backup_dir name)) /\
          In f files /\
          Py.endswith f ".mbox" = true /\
          box_imap_path cwd (user_backup_dir backup_dir name) root f
          = Some box /\
          shlex.split
            (restore_command (new m) box
               (posixpath.abspath cwd (posixpath.join root [f])))
          = Some cmdl).
Proof.
  intros Hc Hnu Hnh Hn Hfs Hgood H.
  apply restore_body_run in H. unfold restorable, mbox_files in H.
  rewrite Hnu, Hnh, Hn, Hfs in H. cbn [andb] in H.
  destruct H as [name' [segs [[= <-] [HF [Ht _]]]]].
  set (dir := user_backup_dir backup_dir name) in *.
  eexists. split; [exact Ht |]. split.
  - intros P stem Hloc.
    destruct (located_walk _ _ _ Hloc dir Hgood) as [dirs [files [Hw [Hf HG]]]].
    assert (In (posixpath.join dir P, (stem ++ ".mbox")%string)
               (flat_map (fun t : string * list string * list string =>
                            map (pair (fst (fst t)))
                                (filter (fun f => Py.endswith f ".mbox")
                                        (snd t)))
                         (os_walk fs dir))) as Hin.
    { apply in_flat_map. exists (posixpath.join dir P, dirs, files).
      split; [unfold os_walk; now rewrite Hfs |].
      cbn [fst snd]. apply in_map. apply filter_In.
      split; [assumption | apply endswith_append]. }
    destruct (Forall2_In_l _ _ _ _ HF Hin)
      as [seg [Hseg [box [cmdl [logged [rc [Hb [Hs [_ ->]]]]]]]]].
    cbn [fst snd] in Hb, Hs.
    rewrite (box_imap_path_below cwd dir P stem Hc HG) in Hb.
    injection Hb as <-. rewrite join_snoc in Hs.
    exists cmdl, rc. split; [| exact Hs].
    right. apply in_concat. eexists. split; [exact Hseg |].
    right. now left.
  - intros cmdl r [Hin | Hin]; [discriminate |].
    apply in_concat in Hin. destruct Hin as [seg [Hseg Hin]].
    destruct (Forall2_In_r _ _ _ _ HF Hseg)
      as [[root f] [Hfile [box [cmdl0 [logged [rc [Hb [Hs [_ ->]]]]]]]]].
    cbn [fst snd] in Hb, Hs.
    destruct Hin as [Hin | [Hin | [Hin | []]]]; try discriminate.
    injection Hin as <- _.
    apply in_flat_map in Hfile. destruct Hfile as [[[root' dirs] files] [Hw Hf]].
    cbn [fst snd] in Hf. apply in_map_iff in Hf.
    destruct Hf as [f' [[= <- <-] Hf]]. apply filter_In in Hf.
    destruct Hf as [Hf He].
    exists root', dirs, files, f', box. repeat split; assumption.
Qed.

(** C4: a restore that completes splits into one segment of events per
    pair, and in the segment of a pair whose destination is set and whose
    per-user directory is there, every backup file [stem.mbox] at the
    component path [P] under that directory has been uploaded by a child
    process whose command line names the folder [P/stem] (the components
    of [P] and [stem] with one slash between them) and the file's absolute
    path; and every child process of the segment uploads a file the walk
    met whose name ends in ".mbox", with the folder path taken from that
    file's path: a file of another name starts none. *)
Theorem restore_folder_path (ms : list Migration) (backup_dir : string)
    (s : run_state World) (success : list Migration) (s' : run_state World) :
  posixpath.isabs cwd = true ->
  restore_mailboxes World subprocess_call cwd fs ms backup_dir s
  = (inr success, s') ->
  exists segs : list (list event),
    trace s' = trace s ++ concat segs /\
    Forall2
      (fun m evs =>
         forall name entries,
           Py.truthy (username (new m)) = true ->
           Py.truthy (host (new m)) = true ->
           username (old m) = Some name ->
           fs (user_backup_dir backup_dir name) = Some (Dir entries) ->
           good_tree (Dir entries) ->
           (forall P stem,
               located entries P (stem ++ ".mbox") ->
               exists cmdl rc,
                 In (Call cmdl (Some rc)) evs /\
                 shlex.split
                   (restore_command
                      (new m) (String.concat "/" (P ++ [stem]))
                      (posixpath.abspath
                         cwd
                         (posixpath.join (user_backup_dir backup_dir name)
                                         (P ++ [(stem ++ ".mbox")%string]))))
                 = Some cmdl) /\
           (forall cmdl r,
               In (Call cmdl r) evs ->
               exists root dirs files f box,
                 In (root, dirs, files)
                    (os_walk fs (user_backup_dir backup_dir name)) /\
                 In f files /\
                 Py.endswith f ".mbox" = true /\
                 box_imap_path cwd (user_backup_dir backup_dir name) root f
                 = Some box /\
                 shlex.split
                   (restore_command (new m) box
                      (posixpath.abspath cwd (posixpath.join root [f])))
                 = Some cmdl))
      ms segs.
Proof.
  intros Hc H. unfold restore_mailboxes in H.
  apply (for_each_segments World
           (restore_body World subprocess_call cwd fs backup_dir)
           (fun m evs _ =>
              forall name entries,
                Py.truthy (username (new m)) = true ->
                Py.truthy (host (new m)) = true ->
                username (old m) = Some name ->
                fs (user_backup_dir backup_dir name) = Some (Dir entries) ->
                good_tree (Dir entries) ->
                (forall P stem,
                    located entries P (stem ++ ".mbox") ->
                    exists cmdl rc,
                      In (Call cmdl (Some rc)) evs /\
                      shlex.split
                        (restore_command
                           (new m) (String.concat "/" (P ++ [stem]))
                           (posixpath.abspath
                              cwd
                              (posixpath.join
                                 (user_backup_dir backup_dir name)
                                 (P ++ [(stem ++ ".mbox")%string]))))
                      = Some cmdl) /\
                (forall cmdl r,
                    In (Call cmdl r) evs ->
                    exists root dirs files f box,
                      In (root, dirs, files)
                         (os_walk fs (user_backup_dir backup_dir name)) /\
                      In f files /\
                      Py.endswith f ".mbox" = true /\
                      box_imap_path cwd (user_backup_dir backup_dir name)
                                    root f = Some box /\
                      shlex.split
                        (restore_command (new m) box
                           (posixpath.abspath cwd (posixpath.join root [f])))
                      = Some cmdl))) in H.
  - destruct H as [segs [Ht [_ HF]]]. exists (map fst segs).
    split; [exact Ht |]. clear Ht.
    induction HF as [|m seg ms segs Hseg _ IH]; constructor; assumption.
  - clear H. intros acc m s0 acc' s0' Hb.
    pose proof (restore_body_run World subprocess_call cwd fs
                  backup_dir acc m s0 acc' s0' Hb) as Hrun.
    destruct (restorable fs backup_dir m) eqn:R.
    + destruct Hrun as [name [segs [Hn [HF [Ht Ha]]]]].
      eexists. eexists. split; [exact Ht |]. split; [exact Ha |].
      intros name' entries Hnu Hnh Hn' Hfs Hgood.
      destruct (restore_body_folder_path
                  backup_dir acc m s0 acc' s0' name' entries
                  Hc Hnu Hnh Hn' Hfs Hgood Hb) as [evs [Ht' HQ]].
      rewrite Ht in Ht'. apply app_inv_head in Ht'. rewrite Ht'. exact HQ.
    + assert (forall name entries,
                 Py.truthy (username (new m)) = true ->
                 Py.truthy (host (new m)) = true ->
                 username (old m) = Some name ->
                 fs (user_backup_dir backup_dir name) = Some (Dir entries) ->
                 False) as Hno.
      { intros name entries Hnu Hnh Hn Hfs. unfold restorable in R.
        rewrite Hnu, Hnh, Hn, Hfs in R. discriminate. }
      destruct Hrun as [-> [-> | [name [Hn Ht]]]].
      * exists [], []. rewrite !app_nil_r.
        split; [reflexivity |]. split; [reflexivity |].
        intros name entries Hnu Hnh Hn Hfs. now destruct (Hno name entries).
      * eexists. exists [].
        split; [exact Ht |]. split; [now rewrite app_nil_r |].
        intros name' entries Hnu Hnh Hn' Hfs. now destruct (Hno name' entries).
Qed.

End FolderPath.

(** ** The lexer on the command lines *)

Lemma run_app (lx : shlex.lexer) (a b : string) :
  shlex.run lx (a ++ b) = shlex.run (shlex.run lx a) b.
Proof. revert lx. induction a as [|c a IH]; intros lx; simpl; auto. Qed.

Lemma push_append (tok : string) (c : ascii) (s : string) :
  (shlex.push tok c ++ s)%string = (tok ++ String c s)%string.
Proof. unfold shlex.push. now rewrite append_assoc. Qed.

Lemma quotes_inv (q : ascii) :
  shlex.quotes q = true -> q = "'"%char \/ q = ascii_of_nat 34.
Proof.
  unfold shlex.quotes. intros H. apply orb_true_iff in H.
  destruct H as [H | H]; apply Ascii.eqb_eq in H; auto.
Qed.

Lemma reachable_step (lx : shlex.lexer) (c : ascii) :
  reachable lx -> reachable (shlex.step lx c).
Proof.
  destruct lx as [st tok qd es toks]. unfold reachable, shlex.step.
  cbn [shlex.state shlex.escapedstate shlex.token shlex.quoted shlex.tokens].
  destruct st as [| | q | e]; intros H.
  - destruct (shlex.whitespace c).
    + unfold shlex.break_or_continue. cbn. now destruct (_ || _).
    + destruct (shlex.escape c); [exact I |].
      destruct (shlex.quotes c) eqn:Q; [exact Q | exact I].
  - destruct (shlex.whitespace c).
    + unfold shlex.break_or_continue. cbn. now destruct (_ || _).
    + destruct (shlex.quotes c) eqn:Q; [exact Q |].
      destruct (shlex.escape c); exact I.
  - destruct (Ascii.eqb c q); [exact I |].
    destruct (shlex.escape c && shlex.escapedquotes q); cbn; exact H.
  - cbn. destruct es as [| | q | e']; try contradiction; [exact I | exact H].
Qed.

Lemma reachable_run (s : string) (lx : shlex.lexer) :
  reachable lx -> reachable (shlex.run lx s).
Proof.
  revert lx. induction s as [|c s IH]; intros lx H; simpl; [assumption |].
  apply IH, reachable_step, H.
Qed.

Lemma reachable_init : reachable shlex.init.
Proof. exact I. Qed.

Lemma all_chars_cons (p : ascii -> bool) (c : ascii) (s : string) :
  Py.all_chars p (String c s) = true -> p c = true /\ Py.all_chars p s = true.
Proof. simpl. apply andb_true_iff. Qed.

Lemma benign_char (c : ascii) :
  negb (shlex.whitespace c || shlex.quotes c || shlex.escape c) = true ->
  shlex.whitespace c = false /\ shlex.quotes c = false /\
  shlex.escape c = false.
Proof.
  rewrite negb_true_iff, !orb_false_iff. tauto.
Qed.

(** A benign string inside a word is added to the token. *)
Lemma run_word (s : string) (tok : string) (qd : bool) (es : shlex.lex_state)
    (toks : list string) :
  benign s = true ->
  shlex.run (shlex.mkLexer shlex.in_word tok qd es toks) s =
  shlex.mkLexer shlex.in_word (tok ++ s) qd es toks.
Proof.
  revert tok. induction s as [|c s IH]; intros tok H.
  - simpl. now rewrite append_empty_r.
  - apply all_chars_cons in H. destruct H as [Hc Hs].
    apply benign_char in Hc. destruct Hc as [Hw [Hq He]].
    cbn [shlex.run]. unfold shlex.step.
    cbn [shlex.state shlex.token shlex.quoted shlex.escapedstate shlex.tokens].
    rewrite Hw, Hq, He.
    rewrite (IH _ Hs). now rewrite push_append.
Qed.

(** A benign word after a gap starts a token. *)
Lemma run_fresh_word (F : string) (lx : shlex.lexer) :
  benign F = true -> F <> EmptyString -> fresh lx ->
  shlex.run lx F =
  shlex.mkLexer shlex.in_word F false (shlex.escapedstate lx) (shlex.tokens lx).
Proof.
  intros HF Hne [Hst [Htok Hqd]]. destruct lx as [st tok qd es toks].
  cbn in *. subst st tok qd. destruct F as [|c F]; [contradiction |].
  apply all_chars_cons in HF. destruct HF as [Hc HF].
  apply benign_char in Hc. destruct Hc as [Hw [Hq He]].
  cbn [shlex.run]. unfold shlex.step.
  cbn [shlex.state shlex.token shlex.quoted shlex.escapedstate shlex.tokens].
  rewrite Hw, Hq, He.
  now rewrite (run_word F _ _ _ _ HF).
Qed.

(** A space after a token returns it. *)
Lemma step_space_emit (tok : string) (qd : bool) (es : shlex.lex_state)
    (toks : list string) :
  tok <> EmptyString \/ qd = true ->
  shlex.step (shlex.mkLexer shlex.in_word tok qd es toks) " " =
  shlex.mkLexer shlex.in_space EmptyString false shlex.in_space (toks ++ [tok]).
Proof.
  intros H. unfold shlex.step, shlex.break_or_continue. cbn.
  assert (negb (tok =? EmptyString) || qd = true) as ->.
  { destruct H as [H | ->]; [| apply orb_true_r].
    now rewrite (eqb_empty_false _ H). }
  reflexivity.
Qed.

Lemma step_space_fresh (lx : shlex.lexer) :
  shlex.state lx = shlex.in_space \/ shlex.state lx = shlex.in_word ->
  fresh (shlex.step lx " ").
Proof.
  destruct lx as [st tok qd es toks]. cbn. unfold fresh.
  intros [-> | ->]; unfold shlex.step, shlex.break_or_continue; cbn;
    destruct (negb (tok =? EmptyString) || qd) eqn:E; cbn;
    repeat split; try reflexivity;
    apply orb_false_iff in E; destruct E as [E1 E2];
    try assumption; apply negb_false_iff in E1; now apply String.eqb_eq.
Qed.

(** Inside quotes, a character that is neither a quote nor the escape
    character leaves the lexer inside the same quotes. *)
Lemma step_in_quotes_stay (lx : shlex.lexer) (c : ascii) :
  in_quotes lx -> shlex.quotes c = false -> shlex.escape c = false ->
  in_quotes (shlex.step lx c).
Proof.
  intros [q [Hst Hq]] Hc He. destruct lx as [st tok qd es toks].
  cbn in Hst. subst st. unfold shlex.step. cbn.
  assert (Ascii.eqb c q = false) as ->.
  { apply Ascii.eqb_neq. intros ->. congruence. }
  rewrite He. cbn. exists q. split; [reflexivity | assumption].
Qed.

Lemma run_in_quotes_stay (s : string) (lx : shlex.lexer) :
  in_quotes lx ->
  Py.all_chars (fun c => negb (shlex.quotes c || shlex.escape c)) s = true ->
  in_quotes (shlex.run lx s).
Proof.
  revert lx. induction s as [|c s IH]; intros lx Hlx H; [assumption |].
  apply all_chars_cons in H. destruct H as [Hc Hs].
  rewrite negb_true_iff, orb_false_iff in Hc. destruct Hc as [Hq He].
  simpl. apply IH; [| assumption]. now apply step_in_quotes_stay.
Qed.

Lemma benign_not_quote (s : string) :
  benign s = true ->
  Py.all_chars (fun c => negb (shlex.quotes c || shlex.escape c)) s = true.
Proof.
  induction s as [|c s IH]; [reflexivity |]. intros H.
  apply all_chars_cons in H. destruct H as [Hc Hs].
  apply benign_char in Hc. destruct Hc as [_ [Hq He]].
  simpl. now rewrite Hq, He, (IH Hs).
Qed.

Lemma double_quotable_char (c : ascii) :
  negb (shlex.escapedquotes c || shlex.escape c) = true ->
  Ascii.eqb c (ascii_of_nat 34) = false /\ shlex.escape c = false.
Proof. rewrite negb_true_iff, orb_false_iff. tauto. Qed.

Lemma benign_double_quotable (s : string) :
  benign s = true -> double_quotable s = true.
Proof.
  induction s as [|c s IH]; [reflexivity |]. intros H.
  apply all_chars_cons in H. destruct H as [Hc Hs].
  apply benign_char in Hc. destruct Hc as [_ [Hq He]].
  unfold shlex.quotes in Hq. apply orb_false_iff in Hq.
  unfold double_quotable. simpl. unfold shlex.escapedquotes.
  rewrite (proj2 Hq), He. exact (IH Hs).
Qed.

(** Between double quotes, a string without double quote and escape
    character is added to the token as it is, up to the closing quote. *)
Lemma run_quoted (v rest tok : string) (qd : bool) (es : shlex.lex_state)
    (toks : list string) :
  double_quotable v = true ->
  shlex.run (shlex.mkLexer (shlex.in_quote (ascii_of_nat 34)) tok qd es toks)
            (v ++ Py.dq ++ rest) =
  shlex.run (shlex.mkLexer shlex.in_word (tok ++ v) true es toks) rest.
Proof.
  revert tok qd. induction v as [|c v IH]; intros tok qd H.
  - rewrite append_empty_r. reflexivity.
  - apply all_chars_cons in H. destruct H as [Hc Hv].
    apply double_quotable_char in Hc. destruct Hc as [Hq He].
    change ((String c v ++ Py.dq ++ rest)%string)
      with (String c (v ++ Py.dq ++ rest)).
    cbn [shlex.run]. unfold shlex.step.
    cbn [shlex.state shlex.token shlex.quoted shlex.escapedstate shlex.tokens].
    rewrite Hq, He. cbn [andb].
    rewrite (IH _ _ Hv). now rewrite push_append.
Qed.

(** A double-quoted value after a gap. *)
Lemma run_value (v rest : string) (lx : shlex.lexer) :
  fresh lx -> double_quotable v = true ->
  shlex.run lx (Py.dq ++ v ++ Py.dq ++ rest) =
  shlex.run (shlex.mkLexer shlex.in_word v true (shlex.escapedstate lx)
                           (shlex.tokens lx)) rest.
Proof.
  intros [Hst [Htok Hqd]] Hv. destruct lx as [st tok qd es toks].
  cbn in Hst, Htok, Hqd. subst st tok qd.
  change ((Py.dq ++ v ++ Py.dq ++ rest)%string)
    with (String (ascii_of_nat 34) (v ++ Py.dq ++ rest)).
  cbn [shlex.run]. change (shlex.step _ (ascii_of_nat 34))
    with (shlex.mkLexer (shlex.in_quote (ascii_of_nat 34)) EmptyString false
                        es toks).
  now rewrite run_quoted.
Qed.

(** A space and a benign flag after a quoted value. *)
Lemma run_flag (F rest v : string) (es : shlex.lex_state)
    (toks : list string) :
  benign F = true -> F <> EmptyString ->
  shlex.run (shlex.mkLexer shlex.in_word v true es toks)
            (String " " (F ++ String " " rest)) =
  shlex.run (shlex.mkLexer shlex.in_space EmptyString false shlex.in_space
                           (toks ++ [v; F])) rest.
Proof.
  intros HF Hne. cbn [shlex.run].
  rewrite step_space_emit by (right; reflexivity).
  rewrite run_app.
  rewrite (run_fresh_word F _ HF Hne) by (repeat split; reflexivity).
  cbn [shlex.run shlex.escapedstate shlex.tokens].
  rewrite step_space_emit by (left; assumption).
  now rewrite <- app_assoc.
Qed.

Lemma finish_in_quotes (lx : shlex.lexer) :
  in_quotes lx -> shlex.finish lx = None.
Proof. intros [q [Hst _]]. unfold shlex.finish. now rewrite Hst. Qed.

Lemma step_dq_in_quotes (lx : shlex.lexer) :
  in_quotes lx -> outside_double (shlex.step lx (ascii_of_nat 34)).
Proof.
  intros [q [Hst Hq]]. destruct lx as [st tok qd es toks]. cbn in Hst.
  subst st. unfold outside_double.
  destruct (quotes_inv q Hq) as [-> | ->]; cbn; auto.
Qed.

Lemma step_dq_outside (lx : shlex.lexer) :
  outside_double lx -> in_quotes (shlex.step lx (ascii_of_nat 34)).
Proof.
  destruct lx as [st tok qd es toks]. unfold outside_double. cbn.
  intros [-> | [-> | ->]]; cbn; eexists; split; reflexivity.
Qed.

Lemma step_outside (lx : shlex.lexer) (c : ascii) :
  outside_double lx ->
  negb (shlex.escapedquotes c || shlex.escape c) = true ->
  outside_double (shlex.step lx c).
Proof.
  intros H Hc. apply double_quotable_char in Hc. destruct Hc as [Hq He].
  destruct lx as [st tok qd es toks]. unfold outside_double in *. cbn in H.
  unfold shlex.step.
  cbn [shlex.state shlex.token shlex.quoted shlex.escapedstate shlex.tokens].
  assert (shlex.quotes c = true -> c = "'"%char) as Hsq.
  { intros Q. destruct (quotes_inv c Q) as [-> | ->]; [reflexivity |].
    discriminate. }
  destruct H as [-> | [-> | ->]].
  - destruct (shlex.whitespace c).
    + unfold shlex.break_or_continue. cbn. destruct (_ || _); cbn; auto.
    + rewrite He. destruct (shlex.quotes c) eqn:Q; cbn; auto.
      rewrite (Hsq eq_refl). auto.
  - destruct (shlex.whitespace c).
    + unfold shlex.break_or_continue. cbn. destruct (_ || _); cbn; auto.
    + rewrite He. destruct (shlex.quotes c) eqn:Q; cbn; auto.
      rewrite (Hsq eq_refl). auto.
  - destruct (Ascii.eqb c "'"); cbn; auto.
    rewrite He. cbn. auto.
Qed.

Lemma run_outside (s : string) (lx : shlex.lexer) :
  outside_double lx -> double_quotable s = true ->
  outside_double (shlex.run lx s).
Proof.
  revert lx. induction s as [|c s IH]; intros lx Hlx H; [assumption |].
  apply all_chars_cons in H. destruct H as [Hc Hs].
  simpl. apply IH; [| assumption]. now apply step_outside.
Qed.

Lemma all_chars_app (p : ascii -> bool) (a b : string) :
  Py.all_chars p (a ++ b) = Py.all_chars p a && Py.all_chars p b.
Proof.
  induction a as [|c a IH]; simpl; [reflexivity |].
  now rewrite IH, andb_assoc.
Qed.

(** After a space, a benign flag and a space the lexer is between two
    tokens, unless the text before left it inside a quotation. *)
Lemma after_flag (F : string) (lx : shlex.lexer) :
  reachable lx -> benign F = true -> F <> EmptyString ->
  fresh (shlex.run lx (String " " (F ++ " "))) \/
  in_quotes (shlex.run lx (String " " (F ++ " "))).
Proof.
  intros Hr HF Hne.
  assert (forall tok qd es toks, tok <> EmptyString \/ qd = true ->
            fresh (shlex.run (shlex.mkLexer shlex.in_word tok qd es toks)
                             " ")) as Hemit.
  { intros tok qd es toks H. cbn [shlex.run]. rewrite step_space_emit by auto.
    repeat split; reflexivity. }
  assert (forall lx', in_quotes lx' ->
            in_quotes (shlex.run lx' (String " " (F ++ " ")))) as Hstay.
  { intros lx' H. apply run_in_quotes_stay; [assumption |].
    cbn [Py.all_chars]. rewrite all_chars_app, (benign_not_quote F HF).
    reflexivity. }
  destruct lx as [st tok qd es toks]. destruct st as [| | q | e].
  - left. cbn [shlex.run]. rewrite run_app.
    rewrite (run_fresh_word F _ HF Hne) by (apply step_space_fresh; auto).
    apply Hemit. left. assumption.
  - left. cbn [shlex.run]. rewrite run_app.
    rewrite (run_fresh_word F _ HF Hne) by (apply step_space_fresh; auto).
    apply Hemit. left. assumption.
  - right. apply Hstay. exists q. split; [reflexivity | exact Hr].
  - unfold reachable in Hr. cbn in Hr.
    destruct es as [| | q | e']; try contradiction.
    + left. cbn [shlex.run]. unfold shlex.step at 1.
      cbn [shlex.state shlex.token shlex.quoted shlex.escapedstate
           shlex.tokens].
      rewrite run_app, (run_word F _ _ _ _ HF).
      apply Hemit. left. apply append_not_empty. assumption.
    + right. cbn [shlex.run].
      apply run_in_quotes_stay;
        [| now rewrite all_chars_app, (benign_not_quote F HF)].
      unfold shlex.step.
      cbn [shlex.state shlex.token shlex.quoted shlex.escapedstate
           shlex.tokens].
      exists q. split; [reflexivity | exact Hr].
Qed.

Lemma flag_split (F rest : string) :
  String " " (F ++ String " " rest) = (String " " (F ++ " ") ++ rest)%string.
Proof. simpl. now rewrite append_assoc. Qed.

Lemma run_cons (lx : shlex.lexer) (c : ascii) (s : string) :
  shlex.run lx (String c s) = shlex.run (shlex.step lx c) s.
Proof. reflexivity. Qed.

Lemma value_shape (v rest : string) :
  (Py.dq ++ v ++ Py.dq ++ rest)%string =
  String (ascii_of_nat 34) (v ++ String (ascii_of_nat 34) rest).
Proof. reflexivity. Qed.

(** Inside a quotation the quotes of a value change sides: the lexer is
    inside a quotation again after the value. *)
Lemma in_quotes_value (v rest : string) (lx : shlex.lexer) :
  in_quotes lx -> double_quotable v = true ->
  exists bad,
    in_quotes bad /\
    shlex.run lx (Py.dq ++ v ++ Py.dq ++ rest) = shlex.run bad rest.
Proof.
  intros Hlx Hv. rewrite value_shape, run_cons, run_app, run_cons.
  eexists. split; [| reflexivity].
  apply step_dq_outside, run_outside; [| assumption].
  apply step_dq_in_quotes. assumption.
Qed.

Lemma in_quotes_space (rest : string) (lx : shlex.lexer) :
  in_quotes lx ->
  exists bad, in_quotes bad /\ shlex.run lx (String " " rest) = shlex.run bad rest.
Proof.
  intros Hlx. rewrite run_cons. eexists. split; [| reflexivity].
  apply step_in_quotes_stay; [assumption | reflexivity | reflexivity].
Qed.

Lemma in_quotes_flag (F rest : string) (lx : shlex.lexer) :
  in_quotes lx -> benign F = true ->
  exists bad,
    in_quotes bad /\
    shlex.run lx (String " " (F ++ String " " rest)) = shlex.run bad rest.
Proof.
  intros Hlx HF. rewrite run_cons, run_app, run_cons.
  eexists. split; [| reflexivity].
  apply step_in_quotes_stay; [| reflexivity | reflexivity].
  apply run_in_quotes_stay; [| now apply benign_not_quote].
  apply step_in_quotes_stay; [assumption | reflexivity | reflexivity].
Qed.

(** The password argument: a space, the flag, a space and the quoted
    password leave the lexer in a word whose token is the password, with
    the quoted flag set, or inside a quotation. *)
Lemma run_password (F pw rest : string) (lx : shlex.lexer) :
  reachable lx -> benign F = true -> F <> EmptyString -> benign pw = true ->
  (exists es toks,
      shlex.run lx (String " " (F ++ String " " (Py.dq ++ pw ++ Py.dq ++ rest)))
      = shlex.run (shlex.mkLexer shlex.in_word pw true es toks) rest) \/
  (exists bad,
      in_quotes bad /\
      shlex.run lx (String " " (F ++ String " " (Py.dq ++ pw ++ Py.dq ++ rest)))
      = shlex.run bad rest).
Proof.
  intros Hr HF Hne Hpw. rewrite flag_split, run_app.
  destruct (after_flag F lx Hr HF Hne) as [Hfresh | Hbad].
  - left. rewrite (run_value pw rest _ Hfresh (benign_double_quotable _ Hpw)).
    eauto.
  - right. apply in_quotes_value; [assumption |].
    now apply benign_double_quotable.
Qed.

Lemma finish_value (v : string) (es : shlex.lex_state) (toks : list string) :
  shlex.finish (shlex.mkLexer shlex.in_word v true es toks) = Some (toks ++ [v]).
Proof. unfold shlex.finish. cbn. now rewrite orb_true_r. Qed.

Lemma run_empty (lx : shlex.lexer) : shlex.run lx EmptyString = lx.
Proof. reflexivity. Qed.

Lemma fresh_mk (es : shlex.lex_state) (toks : list string) :
  fresh (shlex.mkLexer shlex.in_space EmptyString false es toks).
Proof. repeat split; reflexivity. Qed.

Lemma list_suffix_shape (pw : string) :
  (" -p " ++ Py.dq ++ pw ++ Py.dq)%string =
  String " " ("-p" ++ String " " (Py.dq ++ pw ++ Py.dq ++ EmptyString)).
Proof.
  rewrite <- (append_empty_r Py.dq) at 2. reflexivity.
Qed.

Lemma backup_suffix_shape (pw : string) :
  (" -p " ++ Py.dq ++ pw ++ Py.dq
   ++ " -m " ++ Py.dq ++ "_ALL_" ++ Py.dq)%string =
  String " " ("-p" ++ String " "
     (Py.dq ++ pw ++ Py.dq
      ++ String " " ("-m" ++ String " "
           (Py.dq ++ "_ALL_" ++ Py.dq ++ EmptyString)))).
Proof. reflexivity. Qed.

Lemma restore_suffix_shape (pw box file : string) :
  (" --password " ++ Py.dq ++ pw ++ Py.dq
   ++ " --box " ++ Py.dq ++ box ++ Py.dq
   ++ " " ++ Py.dq ++ file ++ Py.dq)%string =
  String " " ("--password" ++ String " "
     (Py.dq ++ pw ++ Py.dq
      ++ String " " ("--box" ++ String " "
           (Py.dq ++ box ++ Py.dq
            ++ String " " (Py.dq ++ file ++ Py.dq ++ EmptyString))))).
Proof.
  rewrite <- (append_empty_r Py.dq) at 6. reflexivity.
Qed.

(** The end of the lister's command line. *)
Lemma split_list_suffix (pw : string) (lx : shlex.lexer) (cmdl : list string) :
  reachable lx -> benign pw = true ->
  shlex.finish (shlex.run lx (" -p " ++ Py.dq ++ pw ++ Py.dq)) = Some cmdl ->
  exists pre, cmdl = pre ++ [pw].
Proof.
  intros Hr Hpw. rewrite list_suffix_shape.
  destruct (run_password "-p" pw EmptyString lx Hr eq_refl
              ltac:(discriminate) Hpw)
    as [[es [toks ->]] | [bad [Hbad ->]]]; rewrite run_empty.
  - rewrite finish_value. intros [= <-]. eauto.
  - rewrite (finish_in_quotes _ Hbad). discriminate.
Qed.

(** The end of the backup command line. *)
Lemma split_backup_suffix (pw : string) (lx : shlex.lexer)
    (cmdl : list string) :
  reachable lx -> benign pw = true ->
  shlex.finish
    (shlex.run lx (" -p " ++ Py.dq ++ pw ++ Py.dq
                   ++ " -m " ++ Py.dq ++ "_ALL_" ++ Py.dq)) = Some cmdl ->
  exists pre, cmdl = pre ++ [pw; "-m"; "_ALL_"].
Proof.
  intros Hr Hpw. rewrite backup_suffix_shape.
  destruct (run_password "-p" pw
              (String " " ("-m" ++ String " "
                 (Py.dq ++ "_ALL_" ++ Py.dq ++ EmptyString)))
              lx Hr eq_refl ltac:(discriminate) Hpw)
    as [[es [toks ->]] | [bad [Hbad ->]]].
  - rewrite (run_flag "-m" _ pw es toks eq_refl ltac:(discriminate)).
    rewrite (run_value "_ALL_" EmptyString _ (fresh_mk _ _) eq_refl).
    rewrite run_empty. cbn [shlex.tokens shlex.escapedstate].
    rewrite finish_value. intros [= <-].
    exists toks. now rewrite <- app_assoc.
  - destruct (in_quotes_flag "-m"
                (Py.dq ++ "_ALL_" ++ Py.dq ++ EmptyString) bad Hbad eq_refl)
      as [bad1 [Hbad1 ->]].
    destruct (in_quotes_value "_ALL_" EmptyString bad1 Hbad1 eq_refl)
      as [bad2 [Hbad2 ->]].
    rewrite run_empty, (finish_in_quotes _ Hbad2). discriminate.
Qed.

(** The end of the upload command line, for a folder path and a file path
    that can stand between double quotes. *)
Lemma split_restore_suffix (pw box file : string) (lx : shlex.lexer)
    (cmdl : list string) :
  reachable lx -> benign pw = true ->
  double_quotable box = true -> double_quotable file = true ->
  shlex.finish
    (shlex.run lx (" --password " ++ Py.dq ++ pw ++ Py.dq
                   ++ " --box " ++ Py.dq ++ box ++ Py.dq
                   ++ " " ++ Py.dq ++ file ++ Py.dq)) = Some cmdl ->
  exists pre, cmdl = pre ++ [pw; "--box"; box; file].
Proof.
  intros Hr Hpw Hbox Hfile. rewrite restore_suffix_shape.
  destruct (run_password "--password" pw
              (String " " ("--box" ++ String " "
                 (Py.dq ++ box ++ Py.dq
                  ++ String " " (Py.dq ++ file ++ Py.dq ++ EmptyString))))
              lx Hr eq_refl ltac:(discriminate) Hpw)
    as [[es [toks ->]] | [bad [Hbad ->]]].
  - rewrite (run_flag "--box" _ pw es toks eq_refl ltac:(discriminate)).
    rewrite (run_value box _ _ (fresh_mk _ _) Hbox).
    cbn [shlex.tokens shlex.escapedstate].
    rewrite run_cons, step_space_emit by (right; reflexivity).
    rewrite (run_value file EmptyString _ (fresh_mk _ _) Hfile).
    rewrite run_empty. cbn [shlex.tokens shlex.escapedstate].
    rewrite finish_value. intros [= <-].
    exists toks. now rewrite <- !app_assoc.
  - destruct (in_quotes_flag "--box"
                (Py.dq ++ box ++ Py.dq
                 ++ String " " (Py.dq ++ file ++ Py.dq ++ EmptyString))
                bad Hbad eq_refl) as [bad1 [Hbad1 ->]].
    destruct (in_quotes_value box
                (String " " (Py.dq ++ file ++ Py.dq ++ EmptyString))
                bad1 Hbad1 Hbox) as [bad2 [Hbad2 ->]].
    destruct (in_quotes_space (Py.dq ++ file ++ Py.dq ++ EmptyString)
                bad2 Hbad2) as [bad3 [Hbad3 ->]].
    destruct (in_quotes_value file EmptyString bad3 Hbad3 Hfile)
      as [bad4 [Hbad4 ->]].
    rewrite run_empty, (finish_in_quotes _ Hbad4). discriminate.
Qed.

Lemma removelast_snoc {A} (pre : list A) (x : A) : removelast (pre ++ [x]) = pre.
Proof. apply removelast_last. Qed.

Lemma set_from_end_at (n : nat) (v x : string) (pre post : list string) :
  List.length post + 1 = n ->
  set_from_end n v (pre ++ x :: post) = Some (pre ++ v :: post).
Proof.
  intros <-. unfold set_from_end. rewrite length_app. cbn [List.length].
  replace (List.length pre + S (List.length post) - (List.length post + 1))
    with (List.length pre) by lia.
  assert (Nat.ltb (List.length pre + S (List.length post))
                  (List.length post + 1) = false) as ->
      by (apply Nat.ltb_ge; lia).
  rewrite firstn_app, firstn_all, Nat.sub_diag. cbn [firstn].
  rewrite app_nil_r. f_equal. f_equal.
  rewrite skipn_app.
  replace (List.length pre + 1 - List.length pre) with 1 by lia.
  rewrite skipn_all2 by lia. reflexivity.
Qed.

(** The command lines, cut before the password argument. *)
Lemma list_command_cut (mailbox : Mailbox) :
  list_command mailbox =
  (("imapbackup/imapgrab.py -l -s " ++ Py.str (host mailbox)
    ++ " -u " ++ Py.dq ++ Py.str (username mailbox) ++ Py.dq)
   ++ " -p " ++ Py.dq ++ Py.str (password mailbox) ++ Py.dq)%string.
Proof. unfold list_command. now rewrite !append_assoc. Qed.

Lemma backup_command_cut (mailbox : Mailbox) (dir : string) :
  backup_command mailbox dir =
  (("imapbackup/imapgrab.py -v -d "
    ++ (if use_ssl mailbox then "-S" else EmptyString)
    ++ " -f " ++ Py.dq ++ dir ++ Py.dq
    ++ " -s " ++ Py.dq ++ Py.str (host mailbox) ++ Py.dq
    ++ " -u " ++ Py.dq ++ Py.str (username mailbox) ++ Py.dq)
   ++ " -p " ++ Py.dq ++ Py.str (password mailbox) ++ Py.dq
   ++ " -m " ++ Py.dq ++ "_ALL_" ++ Py.dq)%string.
Proof. unfold backup_command. now rewrite !append_assoc. Qed.

Lemma restore_command_cut (mailbox : Mailbox) (box file : string) :
  restore_command mailbox box file =
  (("imap_upload/imap_upload.py --retry 3 "
    ++ (if use_ssl mailbox then "--ssl" else EmptyString)
    ++ " --host " ++ Py.dq ++ Py.str (host mailbox) ++ Py.dq
    ++ " --port " ++ Py.str (port mailbox)
    ++ " --user " ++ Py.dq ++ Py.str (username mailbox) ++ Py.dq)
   ++ " --password " ++ Py.dq ++ Py.str (password mailbox) ++ Py.dq
   ++ " --box " ++ Py.dq ++ box ++ Py.dq
   ++ " " ++ Py.dq ++ file ++ Py.dq)%string.
Proof. unfold restore_command. now rewrite !append_assoc. Qed.

(** What [shlex.split] returns for each command line when the password is
    benign: the password is one token, last for the lister, third from the
    end for the backup, fourth from the end for the upload. *)
Lemma split_list_command (mailbox : Mailbox) (cmdl : list string) :
  benign (Py.str (password mailbox)) = true ->
  shlex.split (list_command mailbox) = Some cmdl ->
  exists pre, cmdl = pre ++ [Py.str (password mailbox)].
Proof.
  intros Hpw. rewrite list_command_cut. unfold shlex.split. rewrite run_app.
  apply split_list_suffix; [| assumption].
  apply reachable_run, reachable_init.
Qed.

Lemma split_backup_command (mailbox : Mailbox) (dir : string)
    (cmdl : list string) :
  benign (Py.str (password mailbox)) = true ->
  shlex.split (backup_command mailbox dir) = Some cmdl ->
  exists pre, cmdl = pre ++ [Py.str (password mailbox); "-m"; "_ALL_"].
Proof.
  intros Hpw. rewrite backup_command_cut. unfold shlex.split. rewrite run_app.
  apply split_backup_suffix; [| assumption].
  apply reachable_run, reachable_init.
Qed.

Lemma split_restore_command (mailbox : Mailbox) (box file : string)
    (cmdl : list string) :
  benign (Py.str (password mailbox)) = true ->
  double_quotable box = true -> double_quotable file = true ->
  shlex.split (restore_command mailbox box file) = Some cmdl ->
  exists pre, cmdl = pre ++ [Py.str (password mailbox); "--box"; box; file].
Proof.
  intros Hpw Hbox Hfile. rewrite restore_command_cut. unfold shlex.split.
  rewrite run_app.
  apply split_restore_suffix; try assumption.
  apply reachable_run, reachable_init.
Qed.

(** ** What the runners log *)

Section Masking.

Variable World : Type.
Variable subprocess_call : list string -> World -> option Z * World.
Variable os_mkdir : string -> World -> mkdir_result * World.
Variable cwd : string.

(** Where the password is one benign token and, for the upload, the folder
    path and the file path can stand between double quotes, the list each
    runner logs is the list it runs with "******" in the place of the
    password. *)
Theorem logged_command_masks_password :
  (forall type_ acc m (s : run_state World) acc' s' mailbox,
      getattr m type_ = Some mailbox ->
      benign (Py.str (password mailbox)) = true ->
      list_body World subprocess_call type_ acc m s = (inr acc', s') ->
      exists pre rc,
        trace s' = trace s ++
          [Log INFO ("Listing mailbox " ++ Py.str (username mailbox));
           LogList DEBUG (pre ++ ["******"]);
           Call (pre ++ [Py.str (password mailbox)]) (Some rc)]) /\
  (forall output_dir acc m (s : run_state World) acc' s',
      benign (Py.str (password (old m))) = true ->
      backup_body World subprocess_call os_mkdir cwd output_dir acc m s
      = (inr acc', s') ->
      exists name pre rc,
        username (old m) = Some name /\
        trace s' = trace s ++
          [Log INFO ("Backing up mailbox " ++ Py.str (username (old m)));
           Mkdir (user_output_dir cwd output_dir name);
           LogList DEBUG (pre ++ ["******"; "-m"; "_ALL_"]);
           Call (pre ++ [Py.str (password (old m)); "-m"; "_ALL_"])
                (Some rc)]) /\
  (forall m dir root ok f (s : run_state World) ok' s' box,
      Py.endswith f ".mbox" = true ->
      benign (Py.str (password (new m))) = true ->
      box_imap_path cwd dir root f = Some box ->
      double_quotable box = true ->
      double_quotable (posixpath.abspath cwd (posixpath.join root [f]))
      = true ->
      restore_file World subprocess_call cwd m dir root ok f s
      = (inr ok', s') ->
      exists pre rc,
        trace s' = trace s ++
          [LogList DEBUG
             (pre ++ ["******"; "--box"; box;
                      posixpath.abspath cwd (posixpath.join root [f])]);
           Call (pre ++ [Py.str (password (new m)); "--box"; box;
                         posixpath.abspath cwd (posixpath.join root [f])])
                (Some rc);
           Print rc]).
Proof.
  split; [| split].
  - intros type_ acc m s acc' s' mailbox Hg Hpw H.
    apply list_body_run in H.
    destruct H as [mailbox' [cmdl [rc [Hg' [Hs [Ht _]]]]]].
    rewrite Hg in Hg'. injection Hg' as <-.
    destruct (split_list_command _ _ Hpw Hs) as [pre ->].
    rewrite removelast_snoc in Ht. eauto.
  - intros output_dir acc m s acc' s' Hpw H.
    apply backup_body_run in H.
    destruct H as [name [cmdl [logged [rc [Hn [Hs [Hl [Ht _]]]]]]]].
    destruct (split_backup_command _ _ _ Hpw Hs) as [pre ->].
    rewrite (set_from_end_at 3 "******" _ pre ["-m"; "_ALL_"] eq_refl) in Hl.
    injection Hl as <-. eauto.
  - intros m dir root ok f s ok' s' box Hf Hpw Hb Hqb Hqf H.
    apply restore_file_run in H. rewrite Hf in H.
    destruct H as [seg [[box' [cmdl [logged [rc [Hb' [Hs [Hl ->]]]]]]] [Ht _]]].
    cbn [fst snd] in *. rewrite Hb in Hb'. injection Hb' as <-.
    destruct (split_restore_command _ _ _ _ Hpw Hqb Hqf Hs) as [pre ->].
    rewrite (set_from_end_at 4 "******" _ pre
               ["--box"; box; posixpath.abspath cwd (posixpath.join root [f])]
               eq_refl) in Hl.
    injection Hl as <-. eauto.
Qed.

End Masking.

(** ** The per-user directory *)



(** The components the walk goes down by. *)
Abbreviation kept comps :=
  (filter (fun c : string => negb ((c =? EmptyString) || (c =? "."))) comps).









Section UserDirectory.

Variable World : Type.
Variable subprocess_call : list string -> World -> option Z * World.
Variable os_makedirs : string -> World -> bool * World.
Variable os_mkdir : string -> World -> mkdir_result * World.
Variable cwd : string.


End UserDirectory.

(** ** The properties on the sample data *)

Lemma loader_scenario :
  parse_mailboxes_csv "mailboxes.csv"
    (Opened [["alice"; "pw1"; "imap.old.example"; EmptyString; "true";
              "alice"; "pw2"; "imap.new.example"; EmptyString; "true"]])
    ["all"] =
  Loaded
    [mkMigration
       (mkMailbox "old" (Some "alice") (Some "pw1") (Some "imap.old.example")
                  (Some "993") true)
       (mkMailbox "new" (Some "alice") (Some "pw2") (Some "imap.new.example")
                  (Some "993") true)].
Proof. reflexivity. Qed.

Lemma restore_folder_path_witness :
  let r := restore_mailboxes Sample.World Sample.subprocess_call Sample.cwd
             Sample.fs [Sample.alice; Sample.bob] "backups/"
             (Sample.start [1]) in
  r = (inr [], snd r) /\
  good_tree Sample.alice_tree /\
  located Sample.alice_entries ["INBOX"] "Sent.mbox" /\
  exists segs : list (list event),
    trace (snd r) = [] ++ concat segs /\
    Forall2
      (fun m evs =>
         forall name entries,
           Py.truthy (username (new m)) = true ->
           Py.truthy (host (new m)) = true ->
           username (old m) = Some name ->
           Sample.fs (user_backup_dir "backups/" name) = Some (Dir entries) ->
           good_tree (Dir entries) ->
           (forall P stem,
               located entries P (stem ++ ".mbox") ->
               exists cmdl rc,
                 In (Call cmdl (Some rc)) evs /\
                 shlex.split
                   (restore_command
                      (new m) (String.concat "/" (P ++ [stem]))
                      (posixpath.abspath
                         Sample.cwd
                         (posixpath.join (user_backup_dir "backups/" name)
                                         (P ++ [(stem ++ ".mbox")%string]))))
                 = Some cmdl) /\
           (forall cmdl r0,
               In (Call cmdl r0) evs ->
               exists root dirs files f box,
                 In (root, dirs, files)
                    (os_walk Sample.fs (user_backup_dir "backups/" name)) /\
                 In f files /\
                 Py.endswith f ".mbox" = true /\
                 box_imap_path Sample.cwd (user_backup_dir "backups/" name)
                               root f = Some box /\
                 shlex.split
                   (restore_command (new m) box
                      (posixpath.abspath Sample.cwd
                                         (posixpath.join root [f])))
                 = Some cmdl))
      [Sample.alice; Sample.bob] segs.
Proof.
  assert (restore_mailboxes Sample.World Sample.subprocess_call Sample.cwd
            Sample.fs [Sample.alice; Sample.bob] "backups/" (Sample.start [1])
          = (inr [],
             snd (restore_mailboxes Sample.World Sample.subprocess_call
                    Sample.cwd Sample.fs [Sample.alice; Sample.bob]
                    "backups/" (Sample.start [1]))))
    as H by (vm_compute; reflexivity).
  assert (good_tree Sample.alice_tree) as Hgood
      by (simpl; repeat split; reflexivity).
  assert (located Sample.alice_entries ["INBOX"] "Sent.mbox") as Hloc.
  { apply located_below with (sub := [("Sent.mbox", File)]).
    - simpl. auto.
    - apply located_here. simpl. auto. }
  split; [exact H | split; [exact Hgood | split; [exact Hloc |]]].
  exact (restore_folder_path
           Sample.World Sample.subprocess_call Sample.cwd Sample.fs
           [Sample.alice; Sample.bob] "backups/" (Sample.start [1]) [] _
           eq_refl H).
Defined.

Lemma folder_path_top_level :
  In ("backups/alice_at_old.example", ["INBOX"], ["INBOX.mbox"; "notes.txt"])
     (walk "backups/alice_at_old.example" Sample.alice_tree) /\
  box_imap_path Sample.cwd "backups/alice_at_old.example"
                "backups/alice_at_old.example" "INBOX.mbox"
  = Some "INBOX".
Proof. split; [left; reflexivity | reflexivity]. Qed.


Lemma restore_skips_unset_destination_witness :
  (Py.truthy (username (new Sample.bob)) = false \/
   Py.truthy (host (new Sample.bob)) = false) /\
  (forall success s,
      restore_body Sample.World Sample.subprocess_call Sample.cwd Sample.fs
                   "backups/" success Sample.bob s = (inr success, s)).
Proof.
  assert (Py.truthy (username (new Sample.bob)) = false \/
          Py.truthy (host (new Sample.bob)) = false) as H
      by (left; reflexivity).
  split; [exact H |].
  exact (proj1 (restore_skips_unset_destination Sample.World
                  Sample.subprocess_call Sample.cwd Sample.fs "backups/"
                  Sample.bob H)).
Defined.

(** The lister goes through the whole sequence: two migrations, two child
    processes, two mailboxes returned. *)
Lemma list_mailboxes_runs_every_mailbox :
  let r := list_mailboxes Sample.World Sample.subprocess_call
             [Sample.alice; Sample.bob] "old" (Sample.start []) in
  fst r = inr [Sample.alice_old; Sample.bob_old] /\
  List.length (calls (trace (snd r))) = 2 /\
  ~ List.length (calls (trace (snd r))) <= 1.
Proof.
  vm_compute. split; [reflexivity | split; [reflexivity |]].
  intros H. apply le_S_n in H. inversion H.
Qed.

Lemma list_mailboxes_processes_all_witness :
  let r := list_mailboxes Sample.World Sample.subprocess_call
             [Sample.alice; Sample.bob] "new" (Sample.start [1]) in
  r = (inr [Sample.alice_new], snd r) /\
  exists evs,
    trace (snd r) = [] ++ evs /\
    List.length (calls evs) = 2 /\
    map Some [Sample.alice_new] =
    map (fun p => getattr (fst p) "new")
        (filter (fun p => returned_zero (snd p))
                (combine [Sample.alice; Sample.bob] (calls evs))).
Proof.
  assert (list_mailboxes Sample.World Sample.subprocess_call
            [Sample.alice; Sample.bob] "new" (Sample.start [1])
          = (inr [Sample.alice_new],
             snd (list_mailboxes Sample.World Sample.subprocess_call
                    [Sample.alice; Sample.bob] "new" (Sample.start [1]))))
    as H by (vm_compute; reflexivity).
  split; [exact H |].
  exact (list_mailboxes_processes_all Sample.World Sample.subprocess_call
           [Sample.alice; Sample.bob] "new" (Sample.start [1])
           [Sample.alice_new] _ H).
Defined.

Lemma success_is_subsequence_witness :
  let r := backup_mailboxes Sample.World Sample.subprocess_call
             Sample.os_makedirs Sample.os_mkdir Sample.cwd
             [Sample.alice; Sample.bob] "backups/" (Sample.start [0]) in
  r = (inr [Sample.bob_old], snd r) /\
  Subseq [Sample.bob_old] (map old [Sample.alice; Sample.bob]).
Proof.
  assert (backup_mailboxes Sample.World Sample.subprocess_call
            Sample.os_makedirs Sample.os_mkdir Sample.cwd
            [Sample.alice; Sample.bob] "backups/" (Sample.start [0])
          = (inr [Sample.bob_old],
             snd (backup_mailboxes Sample.World Sample.subprocess_call
                    Sample.os_makedirs Sample.os_mkdir Sample.cwd
                    [Sample.alice; Sample.bob] "backups/" (Sample.start [0]))))
    as H by (vm_compute; reflexivity).
  split; [exact H |].
  exact (proj1 (proj2 (success_is_subsequence Sample.World
                         Sample.subprocess_call Sample.os_makedirs
                         Sample.os_mkdir Sample.cwd Sample.fs))
           [Sample.alice; Sample.bob] "backups/" (Sample.start [0])
           [Sample.bob_old] _ H).
Defined.




Lemma logged_command_masks_password_witness :
  let r := restore_file Sample.World Sample.subprocess_call Sample.cwd
             Sample.alice "backups/alice_at_old.example"
             "backups/alice_at_old.example/INBOX" true "Sent.mbox"
             (Sample.start []) in
  r = (inr true, snd r) /\
  exists pre rc,
    trace (snd r) = [] ++
      [LogList DEBUG
         (pre ++ ["******"; "--box"; "INBOX/Sent";
                  "/home/admin/backups/alice_at_old.example/INBOX/Sent.mbox"]);
       Call (pre ++ ["pw2"; "--box"; "INBOX/Sent";
                     "/home/admin/backups/alice_at_old.example/INBOX/Sent.mbox"])
            (Some rc);
       Print rc].
Proof.
  assert (restore_file Sample.World Sample.subprocess_call Sample.cwd
            Sample.alice "backups/alice_at_old.example"
            "backups/alice_at_old.example/INBOX" true "Sent.mbox"
            (Sample.start [])
          = (inr true,
             snd (restore_file Sample.World Sample.subprocess_call Sample.cwd
                    Sample.alice "backups/alice_at_old.example"
                    "backups/alice_at_old.example/INBOX" true "Sent.mbox"
                    (Sample.start [])))) as H by (vm_compute; reflexivity).
  split; [exact H |].
  exact (proj2 (proj2 (logged_command_masks_password Sample.World
                         Sample.subprocess_call Sample.os_mkdir Sample.cwd))
           Sample.alice "backups/alice_at_old.example"
           "backups/alice_at_old.example/INBOX" true "Sent.mbox"
           (Sample.start []) true _ "INBOX/Sent"
           eq_refl eq_refl eq_refl eq_refl eq_refl H).
Defined.

(** C9 at a backup file whose name holds a double quote: the password
    "pw2" has no whitespace and no quoting character, the lexer merges the
    folder path and the file path into one token, the fourth argument from
    the end is then "--password", which the mask replaces, and the logged
    list holds the password itself where the command has it. *)
Theorem restore_logs_password_of_quoted_file_name :
  let r := restore_mailboxes Sample.World Sample.subprocess_call Sample.cwd
             Sample.quote_fs [Sample.alice] "backups/" (Sample.start []) in
  benign (Py.str (password (new Sample.alice))) = true /\
  mbox_files Sample.quote_fs "backups/" Sample.alice
  = [("backups/alice_at_old.example", Sample.quote_name)] /\
  logged_lists (trace (snd r)) =
    [["imap_upload/imap_upload.py"; "--retry"; "3"; "--ssl";
      "--host"; "imap.new.example"; "--port"; "993"; "--user"; "alice";
      "******"; "pw2"; "--box";
      "ab /home/admin/backups/alice_at_old.example/ab.mbox"]] /\
  map fst (calls (trace (snd r))) =
    [["imap_upload/imap_upload.py"; "--retry"; "3"; "--ssl";
      "--host"; "imap.new.example"; "--port"; "993"; "--user"; "alice";
      "--password"; "pw2"; "--box";
      "ab /home/admin/backups/alice_at_old.example/ab.mbox"]] /\
  existsb (String.eqb (Py.str (password (new Sample.alice))))
          (concat (logged_lists (trace (snd r)))) = true.
Proof. vm_compute. repeat split; reflexivity. Qed.

(** * Further properties *)

(** ** The tokens of a command line *)

Lemma tokens_step_extends (lx : shlex.lexer) (c : ascii) :
  exists tl, shlex.tokens (shlex.step lx c) = shlex.tokens lx ++ tl.
Proof.
  destruct lx as [st tok qd es toks]. unfold shlex.step.
  cbn [shlex.state shlex.token shlex.quoted shlex.escapedstate shlex.tokens].
  assert (exists tl, toks = toks ++ tl) as Hsame
      by (exists []; now rewrite app_nil_r).
  destruct st as [| | q | e].
  - destruct (shlex.whitespace c).
    + unfold shlex.break_or_continue. cbn.
      destruct (negb (tok =? EmptyString) || qd); cbn; eauto.
    + destruct (shlex.escape c); [exact Hsame |].
      destruct (shlex.quotes c); exact Hsame.
  - destruct (shlex.whitespace c).
    + unfold shlex.break_or_continue. cbn.
      destruct (negb (tok =? EmptyString) || qd); cbn; eauto.
    + destruct (shlex.quotes c); [exact Hsame |].
      destruct (shlex.escape c); exact Hsame.
  - destruct (Ascii.eqb c q); [exact Hsame |].
    destruct (shlex.escape c && shlex.escapedquotes q); exact Hsame.
  - exact Hsame.
Qed.

Lemma tokens_run_extends (s : string) (lx : shlex.lexer) :
  exists tl, shlex.tokens (shlex.run lx s) = shlex.tokens lx ++ tl.
Proof.
  revert lx. induction s as [|c s IH]; intros lx.
  - exists []. now rewrite app_nil_r.
  - rewrite run_cons. destruct (IH (shlex.step lx c)) as [tl2 H2].
    destruct (tokens_step_extends lx c) as [tl1 H1].
    exists (tl1 ++ tl2). now rewrite H2, H1, <- app_assoc.
Qed.

Lemma finish_extends (lx : shlex.lexer) (cmdl : list string) :
  shlex.finish lx = Some cmdl -> exists tl, cmdl = shlex.tokens lx ++ tl.
Proof.
  unfold shlex.finish.
  destruct (shlex.state lx); try discriminate;
    (destruct (negb (shlex.token lx =? EmptyString) || shlex.quoted lx);
     intros [= <-]; [eauto | exists []; now rewrite app_nil_r]).
Qed.

(** The tokens completed within a prefix of the command line stay at the
    front of the result, whatever follows. *)
Lemma split_prefix (P rest : string) (cmdl : list string) :
  shlex.split (P ++ rest) = Some cmdl ->
  exists tl, cmdl = shlex.tokens (shlex.run shlex.init P) ++ tl.
Proof.
  unfold shlex.split. rewrite run_app. intros H.
  destruct (finish_extends _ _ H) as [tl2 H2].
  destruct (tokens_run_extends rest (shlex.run shlex.init P)) as [tl1 H1].
  exists (tl1 ++ tl2). now rewrite H2, H1, <- app_assoc.
Qed.

Lemma concat_space_cons2 (x y : string) (l : list string) :
  String.concat " " (x :: y :: l) =
  (x ++ String " " (String.concat " " (y :: l)))%string.
Proof. reflexivity. Qed.

Lemma step_space_idle (es : shlex.lex_state) (toks : list string) :
  shlex.step (shlex.mkLexer shlex.in_space EmptyString false es toks) " " =
  shlex.mkLexer shlex.in_space EmptyString false es toks.
Proof. reflexivity. Qed.

Lemma quoted_shape (v rest : string) :
  ((Py.dq ++ v ++ Py.dq) ++ rest)%string = (Py.dq ++ v ++ Py.dq ++ rest)%string.
Proof. now rewrite !append_assoc. Qed.

(** A piece followed by a space: its tokens are returned and the lexer is
    between two tokens again. *)
Lemma run_piece (p : piece) (rest : string) (es : shlex.lex_state)
    (toks : list string) :
  piece_ok p ->
  exists es',
    shlex.run (shlex.mkLexer shlex.in_space EmptyString false es toks)
              (render p ++ String " " rest) =
    shlex.run (shlex.mkLexer shlex.in_space EmptyString false es'
                             (toks ++ piece_tokens p)) rest.
Proof.
  intros Hp. destruct p as [w | v]; cbn [render piece_tokens piece_ok] in *.
  - destruct (w =? EmptyString) eqn:E.
    + apply String.eqb_eq in E. subst w. exists es.
      cbn [String.append]. rewrite run_cons, step_space_idle.
      now rewrite app_nil_r.
    + apply String.eqb_neq in E. exists shlex.in_space.
      rewrite run_app, (run_fresh_word w _ Hp E) by apply fresh_mk.
      cbn [shlex.escapedstate shlex.tokens].
      rewrite run_cons, step_space_emit by (left; assumption). reflexivity.
  - exists shlex.in_space. rewrite quoted_shape.
    rewrite (run_value v _ _ (fresh_mk _ _) Hp).
    cbn [shlex.escapedstate shlex.tokens].
    rewrite run_cons, step_space_emit by (right; reflexivity). reflexivity.
Qed.

(** The last piece. *)
Lemma finish_piece (p : piece) (es : shlex.lex_state) (toks : list string) :
  piece_ok p ->
  shlex.finish
    (shlex.run (shlex.mkLexer shlex.in_space EmptyString false es toks)
               (render p)) = Some (toks ++ piece_tokens p).
Proof.
  intros Hp. destruct p as [w | v]; cbn [render piece_tokens piece_ok] in *.
  - destruct (w =? EmptyString) eqn:E.
    + apply String.eqb_eq in E. subst w. rewrite run_empty.
      now rewrite app_nil_r.
    + apply String.eqb_neq in E.
      rewrite (run_fresh_word w _ Hp E) by apply fresh_mk.
      unfold shlex.finish. cbn. now rewrite (eqb_empty_false _ E).
  - rewrite <- (append_empty_r (Py.dq ++ v ++ Py.dq)), quoted_shape.
    rewrite (run_value v _ _ (fresh_mk _ _) Hp), run_empty.
    apply finish_value.
Qed.

Lemma run_pieces (ps : list piece) (es : shlex.lex_state)
    (toks : list string) :
  Forall piece_ok ps ->
  shlex.finish
    (shlex.run (shlex.mkLexer shlex.in_space EmptyString false es toks)
               (format_pieces ps)) = Some (toks ++ flat_map piece_tokens ps).
Proof.
  intros H. revert es toks. induction H as [|p ps Hp Hps IH]; intros es toks.
  - cbn. now rewrite app_nil_r.
  - destruct ps as [|q ps].
    + cbn [format_pieces map String.concat flat_map]. rewrite app_nil_r.
      now apply finish_piece.
    + unfold format_pieces in *. cbn [map]. rewrite concat_space_cons2.
      destruct (run_piece p (String.concat " " (render q :: map render ps))
                          es toks Hp) as [es' ->].
      cbn [map] in IH. rewrite IH.
      change (flat_map piece_tokens (p :: q :: ps))
        with (piece_tokens p ++ flat_map piece_tokens (q :: ps)).
      now rewrite <- app_assoc.
Qed.

(** Splitting a line written from well-formed pieces gives back the
    pieces: each quoted value as one argument, spaces included, each
    non-empty bare word as one argument, and nothing for an empty word. *)
Lemma split_format_pieces (ps : list piece) :
  Forall piece_ok ps ->
  shlex.split (format_pieces ps) = Some (flat_map piece_tokens ps).
Proof. intros H. exact (run_pieces ps shlex.in_space [] H). Qed.

(** ** The arguments of the child processes *)

Lemma list_command_pieces (mailbox : Mailbox) :
  list_command mailbox =
  format_pieces
    [Bare "imapbackup/imapgrab.py"; Bare "-l"; Bare "-s";
     Bare (Py.str (host mailbox));
     Bare "-u"; Quoted (Py.str (username mailbox));
     Bare "-p"; Quoted (Py.str (password mailbox))].
Proof.
  unfold list_command, format_pieces. cbn [map render].
  rewrite !concat_space_cons2. cbn [String.concat].
  rewrite !append_assoc. reflexivity.
Qed.

Lemma backup_command_pieces (mailbox : Mailbox) (dir : string) :
  backup_command mailbox dir =
  format_pieces
    [Bare "imapbackup/imapgrab.py"; Bare "-v"; Bare "-d";
     Bare (if use_ssl mailbox then "-S" else EmptyString);
     Bare "-f"; Quoted dir;
     Bare "-s"; Quoted (Py.str (host mailbox));
     Bare "-u"; Quoted (Py.str (username mailbox));
     Bare "-p"; Quoted (Py.str (password mailbox));
     Bare "-m"; Quoted "_ALL_"].
Proof.
  unfold backup_command, format_pieces. cbn [map render].
  rewrite !concat_space_cons2. cbn [String.concat].
  rewrite !append_assoc. reflexivity.
Qed.

Lemma restore_command_pieces (mailbox : Mailbox) (box file : string) :
  restore_command mailbox box file =
  format_pieces
    [Bare "imap_upload/imap_upload.py"; Bare "--retry"; Bare "3";
     Bare (if use_ssl mailbox then "--ssl" else EmptyString);
     Bare "--host"; Quoted (Py.str (host mailbox));
     Bare "--port"; Bare (Py.str (port mailbox));
     Bare "--user"; Quoted (Py.str (username mailbox));
     Bare "--password"; Quoted (Py.str (password mailbox));
     Bare "--box"; Quoted box; Quoted file].
Proof.
  unfold restore_command, format_pieces. cbn [map render].
  rewrite !concat_space_cons2. cbn [String.concat].
  rewrite !append_assoc. reflexivity.
Qed.

(** X1: when the host has no whitespace, quote or backslash and the
    username and the password have no double quote or backslash (spaces
    are allowed there), the lister runs the listing tool with exactly the
    host, the username and the password as arguments; an empty host leaves
    no argument at all after [-s]. *)
Theorem list_command_arguments (mailbox : Mailbox) :
  benign (Py.str (host mailbox)) = true ->
  double_quotable (Py.str (username mailbox)) = true ->
  double_quotable (Py.str (password mailbox)) = true ->
  shlex.split (list_command mailbox) =
  Some (["imapbackup/imapgrab.py"; "-l"; "-s"]
        ++ (if Py.str (host mailbox) =? EmptyString then []
            else [Py.str (host mailbox)])
        ++ ["-u"; Py.str (username mailbox);
            "-p"; Py.str (password mailbox)]).
Proof.
  intros Hh Hu Hp. rewrite list_command_pieces, split_format_pieces.
  - reflexivity.
  - repeat constructor; assumption.
Qed.

(** X2: when the directory, the host, the username and the password have
    no double quote or backslash, the backup runs the tool with exactly
    these values as arguments, [-S] present exactly when the mailbox uses
    SSL (no empty argument stands in for it otherwise). *)
Theorem backup_command_arguments (mailbox : Mailbox) (dir : string) :
  double_quotable dir = true ->
  double_quotable (Py.str (host mailbox)) = true ->
  double_quotable (Py.str (username mailbox)) = true ->
  double_quotable (Py.str (password mailbox)) = true ->
  shlex.split (backup_command mailbox dir) =
  Some (["imapbackup/imapgrab.py"; "-v"; "-d"]
        ++ (if use_ssl mailbox then ["-S"] else [])
        ++ ["-f"; dir; "-s"; Py.str (host mailbox);
            "-u"; Py.str (username mailbox);
            "-p"; Py.str (password mailbox); "-m"; "_ALL_"]).
Proof.
  intros Hd Hh Hu Hp. rewrite backup_command_pieces, split_format_pieces.
  - destruct (use_ssl mailbox); reflexivity.
  - repeat constructor; try assumption. destruct (use_ssl mailbox); reflexivity.
Qed.

(** X3: when the port has no whitespace, quote or backslash and the host,
    the username, the password, the folder path and the file path have no
    double quote or backslash, the upload runs with exactly these values
    as arguments: a folder path with spaces is one argument, and [--ssl]
    is present exactly when the destination uses SSL. *)
Theorem restore_command_arguments (mailbox : Mailbox) (box file : string) :
  benign (Py.str (port mailbox)) = true ->
  double_quotable (Py.str (host mailbox)) = true ->
  double_quotable (Py.str (username mailbox)) = true ->
  double_quotable (Py.str (password mailbox)) = true ->
  double_quotable box = true ->
  double_quotable file = true ->
  shlex.split (restore_command mailbox box file) =
  Some (["imap_upload/imap_upload.py"; "--retry"; "3"]
        ++ (if use_ssl mailbox then ["--ssl"] else [])
        ++ ["--host"; Py.str (host mailbox); "--port"]
        ++ (if Py.str (port mailbox) =? EmptyString then []
            else [Py.str (port mailbox)])
        ++ ["--user"; Py.str (username mailbox);
            "--password"; Py.str (password mailbox);
            "--box"; box; file]).
Proof.
  intros Hpo Hh Hu Hp Hb Hf.
  rewrite restore_command_pieces, split_format_pieces.
  - destruct (use_ssl mailbox); cbn [flat_map piece_tokens];
      destruct (Py.str (port mailbox) =? EmptyString); reflexivity.
  - repeat constructor; try assumption. destruct (use_ssl mailbox); reflexivity.
Qed.

(** ** What every run does, however it ends *)

Section Always.

Variable World : Type.
Variable subprocess_call : list string -> World -> option Z * World.
Variable os_makedirs : string -> World -> bool * World.
Variable os_mkdir : string -> World -> mkdir_result * World.
Variable cwd : string.
Variable fs : string -> option node.

Lemma always_ret (P : event -> Prop) {A} (a : A) : always P (ret World a).
Proof. intros s. exists []. cbn. now rewrite app_nil_r. Qed.

Lemma always_emit (P : event -> Prop) (e : event) :
  P e -> always P (emit World e).
Proof. intros H s. exists [e]. cbn. split; [reflexivity | now constructor]. Qed.

Lemma always_or_raise (P : event -> Prop) {A} (e : exn) (v : option A) :
  always P (or_raise World e v).
Proof.
  intros s. exists []. unfold or_raise. destruct v; cbn; now rewrite app_nil_r.
Qed.

Lemma always_call (P : event -> Prop) (cmdl : list string) :
  (forall r, P (Call cmdl r)) -> always P (call World subprocess_call cmdl).
Proof.
  intros H s. unfold call.
  destruct (existsb Py.has_nul cmdl);
    [| destruct (subprocess_call cmdl (world s)) as [[rc|] w]];
    eexists [_]; cbn; (split; [reflexivity |]); constructor; auto.
Qed.

Lemma always_bind (P : event -> Prop) {A B} (m : M World A)
    (f : A -> M World B) :
  always P m ->
  (forall a s s', m s = (inr a, s') -> always P (f a)) ->
  always P (bind World m f).
Proof.
  intros Hm Hf s. unfold bind. destruct (Hm s) as [evs [Ht HP]].
  destruct (m s) as [[e | a] s'] eqn:E; cbn [snd] in Ht.
  - exists evs. cbn. auto.
  - destruct (Hf a s s' E s') as [evs' [Ht' HP']].
    exists (evs ++ evs'). rewrite Ht', Ht, <- app_assoc.
    split; [reflexivity | now apply Forall_app].
Qed.

Lemma always_for_each (P : event -> Prop) {A B} (body : B -> A -> M World B)
    (l : list A) :
  (forall acc x, In x l -> always P (body acc x)) ->
  forall acc, always P (for_each World l body acc).
Proof.
  induction l as [|x l IH]; intros Hbody acc; cbn [for_each].
  - apply always_ret.
  - apply always_bind.
    + apply Hbody. now left.
    + intros acc' _ _ _. apply IH. intros acc'' y Hy. apply Hbody. now right.
Qed.

Lemma always_impl (P Q : event -> Prop) {A} (m : M World A) :
  (forall e, P e -> Q e) -> always P m -> always Q m.
Proof.
  intros HPQ Hm s. destruct (Hm s) as [evs [Ht HP]]. exists evs.
  split; [assumption |]. eapply Forall_impl; eauto.
Qed.

Lemma or_raise_value {A} (e : exn) (v : option A) (a : A)
    (s s' : run_state World) :
  or_raise World e v s = (inr a, s') -> v = Some a.
Proof. unfold or_raise. destruct v; now intros [= <- <-]. Qed.

(** The events of one turn of each loop, whatever [P] they must satisfy. *)
Lemma list_body_always (P : event -> Prop) (type_ : string)
    (acc : list Mailbox) (m : Migration) :
  (forall msg, P (Log INFO msg)) ->
  (forall args, P (LogList DEBUG args)) ->
  (forall mailbox cmdl r,
      getattr m type_ = Some mailbox ->
      shlex.split (list_command mailbox) = Some cmdl -> P (Call cmdl r)) ->
  always P (list_body World subprocess_call type_ acc m).
Proof.
  intros Hinfo Hlist Hcall. unfold list_body.
  apply always_bind; [apply always_or_raise |]. intros mailbox s0 s0' Hg.
  apply or_raise_value in Hg.
  apply always_bind; [apply always_emit, Hinfo |]. intros _ _ _ _.
  apply always_bind; [apply always_or_raise |]. intros cmdl s s' Hs.
  apply or_raise_value in Hs.
  apply always_bind; [apply always_emit, Hlist |]. intros _ _ _ _.
  apply always_bind; [| intros; apply always_ret].
  apply always_call. intros r. eapply Hcall; eassumption.
Qed.

Lemma backup_body_always (P : event -> Prop) (output_dir : string)
    (acc : list Mailbox) (m : Migration) :
  (forall msg, P (Log INFO msg)) ->
  (forall args, P (LogList DEBUG args)) ->
  (forall name,
      username (old m) = Some name ->
      P (Mkdir (user_output_dir cwd output_dir name))) ->
  (forall name cmdl r,
      username (old m) = Some name ->
      shlex.split (backup_command (old m)
                                  (user_output_dir cwd output_dir name))
      = Some cmdl ->
      P (Call cmdl r)) ->
  always P (backup_body World subprocess_call os_mkdir cwd output_dir acc m).
Proof.
  intros Hinfo Hlist Hmk Hcall. unfold backup_body.
  apply always_bind; [apply always_emit, Hinfo |]. intros _ _ _ _.
  apply always_bind; [apply always_or_raise |]. intros name s0 s0' Hn.
  apply or_raise_value in Hn.
  apply always_bind.
  { intros s. unfold mkdir_if_absent. destruct (Py.has_nul _).
    - eexists [_]. cbn. split; [reflexivity |]. constructor; auto.
    - destruct (os_mkdir _ (world s)) as [r w]. eexists [_].
      destruct r; cbn; (split; [reflexivity |]); constructor; auto. }
  intros _ _ _ _.
  apply always_bind; [apply always_or_raise |]. intros cmdl s s' Hs.
  apply or_raise_value in Hs.
  apply always_bind; [apply always_or_raise |]. intros logged _ _ _.
  apply always_bind; [apply always_emit, Hlist |]. intros _ _ _ _.
  apply always_bind; [| intros; apply always_ret].
  apply always_call. intros r. eapply Hcall; eassumption.
Qed.

Lemma backup_mailboxes_always (P : event -> Prop) (ms : list Migration)
    (output_dir : string) :
  (forall msg, P (Log INFO msg)) ->
  (forall args, P (LogList DEBUG args)) ->
  (forall m name,
      In m ms -> username (old m) = Some name ->
      P (Mkdir (user_output_dir cwd output_dir name))) ->
  P (Makedirs output_dir) ->
  (forall m name cmdl r,
      In m ms -> username (old m) = Some name ->
      shlex.split (backup_command (old m)
                                  (user_output_dir cwd output_dir name))
      = Some cmdl ->
      P (Call cmdl r)) ->
  always P (backup_mailboxes World subprocess_call os_makedirs os_mkdir cwd
                             ms output_dir).
Proof.
  intros Hinfo Hlist Hmk Hmks Hcall. unfold backup_mailboxes.
  apply always_bind.
  { intros s. unfold makedirs_exist_ok.
    destruct (os_makedirs output_dir (world s)) as [ok w]. eexists [_].
    destruct ok; [destruct (Py.has_nul output_dir) |]; cbn;
      (split; [reflexivity |]); constructor; auto. }
  intros _ _ _ _. apply always_for_each. intros acc m Hm.
  apply backup_body_always; auto.
  - intros name. now apply Hmk.
  - intros name cmdl r. now apply Hcall.
Qed.

Lemma restore_file_always (P : event -> Prop) (m : Migration)
    (dir root : string) (ok : bool) (f : string) :
  (forall args, P (LogList DEBUG args)) ->
  (forall rc, P (Print rc)) ->
  (forall box cmdl r,
      Py.endswith f ".mbox" = true ->
      box_imap_path cwd dir root f = Some box ->
      shlex.split
        (restore_command (new m) box
           (posixpath.abspath cwd (posixpath.join root [f]))) = Some cmdl ->
      P (Call cmdl r)) ->
  always P (restore_file World subprocess_call cwd m dir root ok f).
Proof.
  intros Hlist Hprint Hcall. unfold restore_file.
  destruct (Py.endswith f ".mbox") eqn:E; [| apply always_ret].
  apply always_bind; [apply always_or_raise |]. intros box s0 s0' Hb.
  apply or_raise_value in Hb.
  apply always_bind; [apply always_or_raise |]. intros cmdl s s' Hs.
  apply or_raise_value in Hs.
  apply always_bind; [apply always_or_raise |]. intros logged _ _ _.
  apply always_bind; [apply always_emit, Hlist |]. intros _ _ _ _.
  apply always_bind.
  { apply always_call. intros r. eapply Hcall; eauto. }
  intros rc _ _ _.
  apply always_bind; [apply always_emit, Hprint | intros; apply always_ret].
Qed.

Lemma restore_body_always (P : event -> Prop) (backup_dir : string)
    (acc : list Migration) (m : Migration) :
  (forall msg, P (Log INFO msg)) ->
  (forall msg, P (Log ERROR msg)) ->
  (forall args, P (LogList DEBUG args)) ->
  (forall rc, P (Print rc)) ->
  (forall name root f box cmdl r,
      username (old m) = Some name ->
      In (root, f) (mbox_files fs backup_dir m) ->
      box_imap_path cwd (user_backup_dir backup_dir name) root f = Some box ->
      shlex.split
        (restore_command (new m) box
           (posixpath.abspath cwd (posixpath.join root [f]))) = Some cmdl ->
      P (Call cmdl r)) ->
  always P (restore_body World subprocess_call cwd fs backup_dir acc m).
Proof.
  intros Hinfo Herr Hlist Hprint Hcall. unfold restore_body.
  destruct (_ || _); [apply always_ret |].
  apply always_bind; [apply always_or_raise |]. intros name s0 s0' Hn.
  apply or_raise_value in Hn.
  destruct (fs (user_backup_dir backup_dir name)).
  - apply always_bind; [apply always_emit, Hinfo |]. intros _ _ _ _.
    apply always_bind; [| intros; apply always_ret].
    apply always_for_each. intros ok [[root dirs] files] Ht.
    unfold restore_dir.
    apply always_for_each. intros ok' f Hf.
    apply restore_file_always; auto.
    intros box cmdl r E Hb Hs. apply (Hcall name root f box); auto.
    unfold mbox_files. rewrite Hn. apply in_flat_map.
    exists (root, dirs, files). split; [exact Ht |].
    cbn [fst snd]. apply in_map. apply filter_In. now split.
  - apply always_bind; [apply always_emit, Herr | intros; apply always_ret].
Qed.

Lemma restore_mailboxes_always (P : event -> Prop) (ms : list Migration)
    (backup_dir : string) :
  (forall msg, P (Log INFO msg)) ->
  (forall msg, P (Log ERROR msg)) ->
  (forall args, P (LogList DEBUG args)) ->
  (forall rc, P (Print rc)) ->
  (forall m name root f box cmdl r,
      In m ms ->
      username (old m) = Some name ->
      In (root, f) (mbox_files fs backup_dir m) ->
      box_imap_path cwd (user_backup_dir backup_dir name) root f = Some box ->
      shlex.split
        (restore_command (new m) box
           (posixpath.abspath cwd (posixpath.join root [f]))) = Some cmdl ->
      P (Call cmdl r)) ->
  always P (restore_mailboxes World subprocess_call cwd fs ms backup_dir).
Proof.
  intros Hinfo Herr Hlist Hprint Hcall. unfold restore_mailboxes.
  apply always_for_each. intros acc m Hm.
  apply restore_body_always; auto.
  intros name root f box cmdl r. now apply Hcall.
Qed.

Lemma list_mailboxes_always (P : event -> Prop) (ms : list Migration)
    (type_ : string) :
  (forall msg, P (Log INFO msg)) ->
  (forall args, P (LogList DEBUG args)) ->
  (forall m mailbox cmdl r,
      In m ms -> getattr m type_ = Some mailbox ->
      shlex.split (list_command mailbox) = Some cmdl -> P (Call cmdl r)) ->
  always P (list_mailboxes World subprocess_call ms type_).
Proof.
  intros Hinfo Hlist Hcall. unfold list_mailboxes.
  apply always_for_each. intros acc m Hm. apply list_body_always; auto.
  intros mailbox cmdl r. now apply Hcall.
Qed.

(** The first arguments of each command line are fixed by its template. *)
Lemma list_head_tokens :
  shlex.tokens (shlex.run shlex.init "imapbackup/imapgrab.py -l -s ") =
  ["imapbackup/imapgrab.py"; "-l"; "-s"].
Proof. vm_compute. reflexivity. Qed.

Lemma backup_head_tokens :
  shlex.tokens (shlex.run shlex.init "imapbackup/imapgrab.py -v -d ") =
  ["imapbackup/imapgrab.py"; "-v"; "-d"].
Proof. vm_compute. reflexivity. Qed.

Lemma restore_head_tokens_ssl :
  shlex.tokens
    (shlex.run shlex.init
               "imap_upload/imap_upload.py --retry 3 --ssl --host ") =
  ["imap_upload/imap_upload.py"; "--retry"; "3"] ++ ["--ssl"; "--host"].
Proof. vm_compute. reflexivity. Qed.

Lemma restore_head_tokens_plain :
  shlex.tokens
    (shlex.run shlex.init "imap_upload/imap_upload.py --retry 3  --host ") =
  ["imap_upload/imap_upload.py"; "--retry"; "3"] ++ ["--host"].
Proof. vm_compute. reflexivity. Qed.

Lemma list_command_prefix (mailbox : Mailbox) (cmdl : list string) :
  shlex.split (list_command mailbox) = Some cmdl ->
  exists tl, cmdl = ["imapbackup/imapgrab.py"; "-l"; "-s"] ++ tl.
Proof.
  intros H. rewrite <- list_head_tokens.
  apply (split_prefix "imapbackup/imapgrab.py -l -s "
           (Py.str (host mailbox) ++ " -u " ++ Py.dq
            ++ Py.str (username mailbox) ++ Py.dq ++ " -p " ++ Py.dq
            ++ Py.str (password mailbox) ++ Py.dq)%string).
  exact H.
Qed.

Lemma backup_command_prefix (mailbox : Mailbox) (dir : string)
    (cmdl : list string) :
  shlex.split (backup_command mailbox dir) = Some cmdl ->
  exists tl, cmdl = ["imapbackup/imapgrab.py"; "-v"; "-d"] ++ tl.
Proof.
  intros H. rewrite <- backup_head_tokens.
  unfold backup_command in H.
  match type of H with
  | shlex.split (?p ++ ?rest)%string = _ => apply (split_prefix p rest)
  end.
  exact H.
Qed.

Lemma restore_ssl_shape (rest : string) :
  ("imap_upload/imap_upload.py --retry 3 " ++ "--ssl" ++ " --host " ++ rest
   = "imap_upload/imap_upload.py --retry 3 --ssl --host " ++ rest)%string.
Proof. reflexivity. Qed.

Lemma restore_plain_shape (rest : string) :
  ("imap_upload/imap_upload.py --retry 3 " ++ EmptyString ++ " --host " ++ rest
   = "imap_upload/imap_upload.py --retry 3  --host " ++ rest)%string.
Proof. reflexivity. Qed.

Lemma restore_command_prefix (mailbox : Mailbox) (box file : string)
    (cmdl : list string) :
  shlex.split (restore_command mailbox box file) = Some cmdl ->
  exists a tl,
    cmdl = ["imap_upload/imap_upload.py"; "--retry"; "3"] ++ a :: tl.
Proof.
  unfold restore_command. destruct (use_ssl mailbox); intros H.
  - rewrite restore_ssl_shape in H. apply split_prefix in H.
    rewrite restore_head_tokens_ssl in H. destruct H as [tl ->].
    exists "--ssl", ("--host" :: tl). now rewrite <- app_assoc.
  - rewrite restore_plain_shape in H. apply split_prefix in H.
    rewrite restore_head_tokens_plain in H. destruct H as [tl ->].
    exists "--host", tl. now rewrite <- app_assoc.
Qed.

(** X4: whatever the fields of the mailboxes hold (spaces, quotes,
    backslashes) and however the run ends, every child process the lister
    starts is the listing tool with [-l -s] as its first options, every
    child process of the backup is the same tool with [-v -d], and every
    child process of the restore is the upload tool with [--retry 3]: no
    field can take the place of the program or of these options.  The
    lister makes no directory and prints nothing, the backup prints
    nothing, the restore makes no directory. *)
Theorem runners_do_only_their_work :
  (forall ms type_,
      always of_lister (list_mailboxes World subprocess_call ms type_)) /\
  (forall ms output_dir,
      always of_backup
             (backup_mailboxes World subprocess_call os_makedirs os_mkdir cwd
                               ms output_dir)) /\
  (forall ms backup_dir,
      always of_restore
             (restore_mailboxes World subprocess_call cwd fs ms backup_dir)).
Proof.
  split; [| split].
  - intros ms type_. apply list_mailboxes_always; try (intros; exact I).
    intros m mailbox cmdl r _ _ H. exact (list_command_prefix _ _ H).
  - intros ms output_dir.
    apply backup_mailboxes_always; try (intros; exact I).
    intros m name cmdl r _ _ H. exact (backup_command_prefix _ _ _ H).
  - intros ms backup_dir.
    apply restore_mailboxes_always; try (intros; exact I).
    intros m name root f box cmdl r _ _ _ _ H.
    destruct (restore_command_prefix _ _ _ _ H) as [a [tl ->]].
    eexists. reflexivity.
Qed.

(** ** The exceptions a run can end in *)

Lemma never_ret (e : exn) {A} (a : A) (s : run_state World) :
  fst (ret World a s) <> inl e.
Proof. cbn. discriminate. Qed.

Lemma never_emit (e : exn) (ev : event) (s : run_state World) :
  fst (emit World ev s) <> inl e.
Proof. cbn. discriminate. Qed.

Lemma never_or_raise (e e' : exn) {A} (v : option A) (s : run_state World) :
  (e = e' -> v <> None) -> fst (or_raise World e' v s) <> inl e.
Proof.
  intros H. unfold or_raise. destruct v; cbn; [discriminate |].
  intros [= <-]. now apply H.
Qed.

Lemma never_call (e : exn) (cmdl : list string) (s : run_state World) :
  e <> ValueError -> e <> OSError ->
  fst (call World subprocess_call cmdl s) <> inl e.
Proof.
  intros HV H. unfold call.
  destruct (existsb Py.has_nul cmdl);
    [| destruct (subprocess_call cmdl (world s)) as [[rc|] w]]; cbn;
    [intros [= <-]; now apply HV | discriminate |
     intros [= <-]; now apply H].
Qed.

Lemma never_bind (e : exn) {A B} (m : M World A) (f : A -> M World B) :
  (forall s, fst (m s) <> inl e) ->
  (forall a s s', m s = (inr a, s') -> forall t, fst (f a t) <> inl e) ->
  forall s, fst (bind World m f s) <> inl e.
Proof.
  intros Hm Hf s. unfold bind. specialize (Hm s).
  destruct (m s) as [[e' | a] s'] eqn:E; cbn [fst] in *.
  - intros [= ->]. now apply Hm.
  - exact (Hf a s s' E s').
Qed.

Lemma for_each_never {A B} (e : exn) (body : B -> A -> M World B)
    (l : list A) :
  (forall acc x s, In x l -> fst (body acc x s) <> inl e) ->
  forall acc s, fst (for_each World l body acc s) <> inl e.
Proof.
  induction l as [|x l IH]; intros Hbody acc s; cbn [for_each].
  - apply never_ret.
  - apply never_bind.
    + intros t. apply Hbody. now left.
    + intros acc' _ _ _ t. apply IH. intros acc'' y u Hy. apply Hbody.
      now right.
Qed.

Lemma mask_in_range_backup (mailbox : Mailbox) (dir : string)
    (cmdl : list string) :
  shlex.split (backup_command mailbox dir) = Some cmdl ->
  set_from_end 3 "******" cmdl <> None.
Proof.
  intros H. destruct (backup_command_prefix _ _ _ H) as [tl ->].
  unfold set_from_end. cbn [List.length app Nat.ltb Nat.leb]. discriminate.
Qed.

Lemma mask_in_range_restore (mailbox : Mailbox) (box file : string)
    (cmdl : list string) :
  shlex.split (restore_command mailbox box file) = Some cmdl ->
  set_from_end 4 "******" cmdl <> None.
Proof.
  intros H. destruct (restore_command_prefix _ _ _ _ H) as [a [tl ->]].
  unfold set_from_end. cbn [List.length app Nat.ltb Nat.leb]. discriminate.
Qed.

(** An exception other than [ValueError] and [OSError] could only be the
    [AttributeError] of a lookup that fails. *)
Lemma list_body_never (e : exn) (type_ : string) (acc : list Mailbox)
    (m : Migration) (s : run_state World) :
  e <> ValueError -> e <> OSError ->
  (e = AttributeError -> getattr m type_ <> None) ->
  fst (list_body World subprocess_call type_ acc m s) <> inl e.
Proof.
  intros HV HO HA. unfold list_body. revert s.
  apply never_bind; [intros s; now apply never_or_raise |].
  intros mailbox _ _ _. apply never_bind; [intros s; apply never_emit |].
  intros _ _ _ _. apply never_bind.
  { intros s. apply never_or_raise. intros ->. contradiction. }
  intros cmdl _ _ _. apply never_bind; [intros s; apply never_emit |].
  intros _ _ _ _. apply never_bind; [intros s; now apply never_call |].
  intros rc _ _ _ s. apply never_ret.
Qed.

Lemma backup_body_never (e : exn) (output_dir : string) (acc : list Mailbox)
    (m : Migration) (s : run_state World) :
  e <> ValueError -> e <> OSError ->
  (e = AttributeError -> username (old m) <> None) ->
  fst (backup_body World subprocess_call os_mkdir cwd output_dir acc m s)
  <> inl e.
Proof.
  intros HV HO HA. unfold backup_body. revert s.
  apply never_bind; [intros s; apply never_emit |].
  intros _ _ _ _. apply never_bind; [intros s; now apply never_or_raise |].
  intros name _ _ _. apply never_bind.
  { intros s. unfold mkdir_if_absent. destruct (Py.has_nul _).
    - cbn. intros [= <-]. now apply HV.
    - destruct (os_mkdir _ (world s)) as [[| |] w]; cbn; try discriminate.
      intros [= <-]. now apply HO. }
  intros _ _ _ _. apply never_bind.
  { intros s. apply never_or_raise. intros ->. contradiction. }
  intros cmdl s s' Hs. apply or_raise_value in Hs.
  apply never_bind.
  { intros t. apply never_or_raise. intros _.
    exact (mask_in_range_backup _ _ _ Hs). }
  intros logged _ _ _. apply never_bind; [intros t; apply never_emit |].
  intros _ _ _ _. apply never_bind; [intros t; now apply never_call |].
  intros rc _ _ _ t. apply never_ret.
Qed.

Lemma backup_mailboxes_never (e : exn) (ms : list Migration)
    (output_dir : string) (s : run_state World) :
  e <> ValueError -> e <> OSError ->
  (e = AttributeError -> forall m, In m ms -> username (old m) <> None) ->
  fst (backup_mailboxes World subprocess_call os_makedirs os_mkdir cwd
                        ms output_dir s) <> inl e.
Proof.
  intros HV HO HA. unfold backup_mailboxes. revert s. apply never_bind.
  { intros s. unfold makedirs_exist_ok.
    destruct (os_makedirs output_dir (world s)) as [[|] w];
      [destruct (Py.has_nul output_dir) |]; cbn;
      [intros [= <-]; now apply HV | discriminate |
       intros [= <-]; now apply HO]. }
  intros _ _ _ _. apply for_each_never. intros acc m s Hm.
  apply backup_body_never; auto.
Qed.

Lemma restore_file_never (e : exn) (m : Migration) (dir root : string)
    (ok : bool) (f : string) (s : run_state World) :
  e <> ValueError -> e <> OSError ->
  fst (restore_file World subprocess_call cwd m dir root ok f s) <> inl e.
Proof.
  intros HV HO. unfold restore_file.
  destruct (Py.endswith f ".mbox"); [| apply never_ret]. revert s.
  apply never_bind.
  { intros s. apply never_or_raise. intros ->. contradiction. }
  intros box _ _ _. apply never_bind.
  { intros s. apply never_or_raise. intros ->. contradiction. }
  intros cmdl s s' Hs. apply or_raise_value in Hs.
  apply never_bind.
  { intros t. apply never_or_raise. intros _.
    exact (mask_in_range_restore _ _ _ _ Hs). }
  intros logged _ _ _. apply never_bind; [intros t; apply never_emit |].
  intros _ _ _ _. apply never_bind; [intros t; now apply never_call |].
  intros rc _ _ _. apply never_bind; [intros t; apply never_emit |].
  intros _ _ _ _ t. apply never_ret.
Qed.

Lemma restore_mailboxes_never (e : exn) (ms : list Migration)
    (backup_dir : string) (s : run_state World) :
  e <> ValueError -> e <> OSError ->
  (e = AttributeError -> forall m, In m ms -> username (old m) <> None) ->
  fst (restore_mailboxes World subprocess_call cwd fs ms backup_dir s)
  <> inl e.
Proof.
  intros HV HO HA. unfold restore_mailboxes. apply for_each_never.
  clear s. intros acc m s Hm. unfold restore_body.
  destruct (_ || _); [apply never_ret |]. revert s.
  apply never_bind.
  { intros s. apply never_or_raise. intros ->. now apply HA. }
  intros name _ _ _.
  destruct (fs (user_backup_dir backup_dir name)).
  - apply never_bind; [intros t; apply never_emit |].
    intros _ _ _ _. apply never_bind.
    + intros t. apply for_each_never. intros ok [[root dirs] files] u _.
      unfold restore_dir. apply for_each_never. intros ok' f v _.
      now apply restore_file_never.
    + intros ok _ _ _ t. apply never_ret.
  - apply never_bind; [intros t; apply never_emit |].
    intros _ _ _ _ t. apply never_ret.
Qed.

Lemma list_mailboxes_never (e : exn) (ms : list Migration) (type_ : string)
    (s : run_state World) :
  e <> ValueError -> e <> OSError ->
  (e = AttributeError -> type_ = "old" \/ type_ = "new") ->
  fst (list_mailboxes World subprocess_call ms type_ s) <> inl e.
Proof.
  intros HV HO HA. unfold list_mailboxes. apply for_each_never.
  intros acc m t _. apply list_body_never; auto.
  intros He. destruct (HA He) as [-> | ->]; discriminate.
Qed.

(** X5: writing the mask into the copy of the argument list never fails:
    the command line of the backup always has at least three arguments
    and that of the upload at least four, so neither runner raises
    [IndexError], whatever the fields hold. *)
Theorem masking_never_raises_IndexError :
  (forall ms output_dir s,
      fst (backup_mailboxes World subprocess_call os_makedirs os_mkdir cwd
                            ms output_dir s) <> inl IndexError) /\
  (forall ms backup_dir s,
      fst (restore_mailboxes World subprocess_call cwd fs ms backup_dir s)
      <> inl IndexError).
Proof.
  split; intros ms dir s.
  - apply backup_mailboxes_never; discriminate.
  - apply restore_mailboxes_never; discriminate.
Qed.

End Always.

(** ** The entry point *)

Section MainRuns.

Variable World : Type.
Variable subprocess_call : list string -> World -> option Z * World.
Variable os_makedirs : string -> World -> bool * World.
Variable os_mkdir : string -> World -> mkdir_result * World.
Variable cwd : string.
Variable fs : World -> string -> option node.
Variable open_csv : string -> World -> open_result * World.
Variable open_log : World -> bool * World.

Lemma loglevel_clamped (v : nat) :
  exists lvl, loglevel (if Nat.ltb 4 v then 4 else v) = Some lvl /\
              loglevel (Nat.min v 4) = Some lvl /\
              (v < 4 -> lvl <> DEBUG) /\ (v = 0 -> lvl = CRITICAL).
Proof.
  do 5 (destruct v as [|v];
        [eexists; repeat split; try reflexivity;
         (discriminate || lia || (intros; discriminate)) |]).
  exists DEBUG. repeat split; lia.
Qed.

(** X6: [main] lowers a verbosity above 4 to 4 before it sets up the
    logger, so the level is always found and [main] never ends in the
    [KeyError] that [init_logger] alone raises on 5 and more. *)
Theorem verbosity_is_clamped (args : Args) (s : run_state World) :
  threshold (main World subprocess_call os_makedirs os_mkdir cwd fs
                  open_csv open_log args s)
  = loglevel (Nat.min (verbosity args) 4) /\
  loglevel (Nat.min (verbosity args) 4) <> None /\
  outcome (main World subprocess_call os_makedirs os_mkdir cwd fs
                open_csv open_log args s) <> Raised KeyError /\
  (forall v w, init_logger World open_log (5 + v) w = (None, Some KeyError, w)).
Proof.
  destruct (loglevel_clamped (verbosity args)) as [lvl [H1 [H2 _]]].
  rewrite H2. unfold main, init_logger. rewrite H1.
  destruct (open_log (world s)) as [[|] w1].
  - destruct (open_csv (csv args) w1) as [handle w2].
    destruct (parse_mailboxes_csv _ _ _).
    + destruct (dispatch _ _ _ _ _ _ _ _ _) as [[e|z] s']; cbn;
        repeat split; discriminate.
    + cbn. repeat split; discriminate.
  - cbn. repeat split; discriminate.
Qed.

(** X7: when the CSV file cannot be opened, [main] logs one critical
    record, which reaches the handlers at every verbosity, and exits with
    status 1: no child process is started and no directory is made,
    whatever modes were asked for. *)
Theorem main_exits_on_unreadable_csv (args : Args) (s : run_state World) :
  fst (open_log (world s)) = true ->
  (forall records,
      fst (open_csv (csv args) (snd (open_log (world s)))) <> Opened records) ->
  outcome (main World subprocess_call os_makedirs os_mkdir cwd fs
                open_csv open_log args s) = SystemExit 1 /\
  exists msg,
    trace (final (main World subprocess_call os_makedirs os_mkdir cwd fs
                       open_csv open_log args s))
    = trace s ++ [Log CRITICAL msg] /\
    forall lvl, emitted lvl [Log CRITICAL msg] = [Log CRITICAL msg].
Proof.
  intros Hlog Hcsv.
  destruct (loglevel_clamped (verbosity args)) as [lvl [H1 _]].
  unfold main, init_logger. rewrite H1.
  destruct (open_log (world s)) as [ok w1]. cbn [fst snd] in *. subst ok.
  destruct (open_csv (csv args) w1) as [handle w2]. cbn [fst] in Hcsv.
  destruct handle as [| | records]; cbn.
  - split; [reflexivity |]. eexists. split; [reflexivity |].
    intros []; reflexivity.
  - split; [reflexivity |]. eexists. split; [reflexivity |].
    intros []; reflexivity.
  - now destruct (Hcsv records).
Qed.

(** The events of the four blocks of [main]. *)
Lemma getattr_old (m : Migration) (mailbox : Mailbox) :
  getattr m "old" = Some mailbox -> mailbox = old m.
Proof. cbn. now intros [= <-]. Qed.

Lemma getattr_new (m : Migration) (mailbox : Mailbox) :
  getattr m "new" = Some mailbox -> mailbox = new m.
Proof. cbn. now intros [= <-]. Qed.

Lemma listold_stage_events (args : Args) (ms : list Migration)
    (s : run_state World) :
  exists evs,
    trace (snd (listold_stage World subprocess_call args ms s))
    = trace s ++ evs /\
    Forall of_lister evs /\ Forall modest_record evs /\
    (listold args = false -> evs = []) /\
    Forall (lists old ms) evs.
Proof.
  unfold listold_stage. destruct (listold args).
  - assert (always (fun e => (of_lister e /\ lists old ms e)
                             /\ modest_record e)
              (bind World (list_mailboxes World subprocess_call ms "old")
                 (fun success =>
                    emit World
                      (Log DEBUG ("Listing succeeded for following mailboxes:"
                                  ++ newline
                                  ++ pformat (map Mailbox_repr success))))))
      as H.
    { apply always_bind.
      - apply list_mailboxes_always; cbn; auto.
        intros m mailbox cmdl r Hm Hg Hs. apply getattr_old in Hg. subst.
        split; [| exact I]. split; [exact (list_command_prefix _ _ Hs) |].
        exists m. auto.
      - intros success _ _ _. apply always_emit. cbn. auto. }
    destruct (H s) as [evs [Ht HF]]. exists evs.
    apply Forall_and_inv in HF. destruct HF as [HF1 HF2].
    apply Forall_and_inv in HF1. destruct HF1 as [HF1 HF3].
    repeat split; try assumption. discriminate.
  - exists []. cbn. rewrite app_nil_r. repeat split; constructor.
Qed.

Lemma listnew_stage_events (args : Args) (ms : list Migration)
    (s : run_state World) :
  exists evs,
    trace (snd (listnew_stage World subprocess_call args ms s))
    = trace s ++ evs /\
    Forall of_lister evs /\ Forall modest_record evs /\
    (listnew args = false -> evs = []) /\
    Forall (lists new ms) evs.
Proof.
  unfold listnew_stage. destruct (listnew args).
  - assert (always (fun e => (of_lister e /\ lists new ms e)
                             /\ modest_record e)
              (bind World (list_mailboxes World subprocess_call ms "new")
                 (fun success =>
                    emit World
                      (Log DEBUG ("Listing succeeded for following mailboxes:"
                                  ++ newline
                                  ++ pformat (map Mailbox_repr success))))))
      as H.
    { apply always_bind.
      - apply list_mailboxes_always; cbn; auto.
        intros m mailbox cmdl r Hm Hg Hs. apply getattr_new in Hg. subst.
        split; [| exact I]. split; [exact (list_command_prefix _ _ Hs) |].
        exists m. auto.
      - intros success _ _ _. apply always_emit. cbn. auto. }
    destruct (H s) as [evs [Ht HF]]. exists evs.
    apply Forall_and_inv in HF. destruct HF as [HF1 HF2].
    apply Forall_and_inv in HF1. destruct HF1 as [HF1 HF3].
    repeat split; try assumption. discriminate.
  - exists []. cbn. rewrite app_nil_r. repeat split; constructor.
Qed.

Lemma backup_stage_events (args : Args) (ms : list Migration)
    (s : run_state World) :
  exists evs,
    trace (snd (backup_stage World subprocess_call os_makedirs os_mkdir cwd
                             args ms s))
    = trace s ++ evs /\
    Forall of_backup evs /\ Forall modest_record evs /\
    (backup args = false -> evs = []) /\
    Forall (backs_up cwd (output args) ms) evs.
Proof.
  unfold backup_stage. destruct (backup args).
  - assert (always (fun e => (of_backup e
                              /\ backs_up cwd (output args) ms e)
                             /\ modest_record e)
              (bind World
                 (backup_mailboxes World subprocess_call os_makedirs os_mkdir
                                   cwd ms (output args))
                 (fun success =>
                    emit World
                      (Log DEBUG ("Successfully backed up following mailboxes:"
                                  ++ newline
                                  ++ pformat (map Mailbox_repr success))))))
      as H.
    { apply always_bind.
      - apply backup_mailboxes_always; cbn; auto.
        + intros m name Hm Hn. repeat split. exists m, name. auto.
        + intros m name cmdl r Hm Hn Hs. split; [| exact I].
          split; [exact (backup_command_prefix _ _ _ Hs) |].
          exists m, name. auto.
      - intros success _ _ _. apply always_emit. cbn. auto. }
    destruct (H s) as [evs [Ht HF]]. exists evs.
    apply Forall_and_inv in HF. destruct HF as [HF1 HF2].
    apply Forall_and_inv in HF1. destruct HF1 as [HF1 HF3].
    repeat split; try assumption. discriminate.
  - exists []. cbn. rewrite app_nil_r. repeat split; constructor.
Qed.

Lemma restore_stage_events (args : Args) (ms : list Migration)
    (s : run_state World) :
  exists evs,
    trace (snd (restore_stage World subprocess_call cwd fs args ms s))
    = trace s ++ evs /\
    Forall of_restore evs /\ Forall modest_record evs /\
    (restore args = false -> evs = []) /\
    Forall (restores ms) evs.
Proof.
  unfold restore_stage. destruct (restore args).
  - assert (always (fun e => (of_restore e /\ restores ms e)
                             /\ modest_record e)
              (bind World
                 (restore_mailboxes World subprocess_call cwd (fs (world s))
                                    ms (output args))
                 (fun success =>
                    emit World
                      (Log DEBUG
                         ("Successfully ran following mailbox migrations:"
                          ++ newline
                          ++ pformat (map Migration_repr success))))))
      as H.
    { apply always_bind.
      - apply restore_mailboxes_always; cbn; auto.
        intros m name root f box cmdl r Hm _ _ _ Hs. split; [| exact I].
        split.
        + destruct (restore_command_prefix _ _ _ _ Hs) as [a [tl ->]].
          eexists. reflexivity.
        + exists m, box. eexists. eauto.
      - intros success _ _ _. apply always_emit. cbn. auto. }
    destruct (H s) as [evs [Ht HF]]. exists evs.
    apply Forall_and_inv in HF. destruct HF as [HF1 HF2].
    apply Forall_and_inv in HF1. destruct HF1 as [HF1 HF3].
    repeat split; try assumption. discriminate.
  - exists []. cbn. rewrite app_nil_r. repeat split; constructor.
Qed.

(** The events of [main] once the migrations are loaded: the record of the
    migrations, then those of the four blocks in their order. *)
Lemma dispatch_events (args : Args) (ms : list Migration)
    (s : run_state World) :
  exists msg e1 e2 e3 e4,
    trace (snd (dispatch World subprocess_call os_makedirs os_mkdir cwd fs
                         args ms s))
    = trace s ++ [Log INFO msg] ++ e1 ++ e2 ++ e3 ++ e4 /\
    (Forall of_lister e1 /\ Forall of_lister e2 /\
     Forall of_backup e3 /\ Forall of_restore e4) /\
    (Forall modest_record e1 /\ Forall modest_record e2 /\
     Forall modest_record e3 /\ Forall modest_record e4) /\
    ((listold args = false -> e1 = []) /\ (listnew args = false -> e2 = []) /\
     (backup args = false -> e3 = []) /\ (restore args = false -> e4 = [])) /\
    (Forall (lists old ms) e1 /\ Forall (lists new ms) e2 /\
     Forall (backs_up cwd (output args) ms) e3 /\ Forall (restores ms) e4).
Proof.
  unfold dispatch. unfold bind at 1. unfold emit at 1.
  set (s0 := mkState (world s) (trace s ++ [Log INFO _])).
  eexists.
  destruct (listold_stage_events args ms s0) as [e1 [H1 [F1 [M1 [G1 T1]]]]].
  unfold bind at 1.
  destruct (listold_stage World subprocess_call args ms s0) as [[x | []] s1];
    cbn [snd] in *.
  { exists e1, [], [], []. rewrite H1. subst s0. cbn [trace].
    rewrite !app_nil_r, <- app_assoc. repeat split; auto. }
  destruct (listnew_stage_events args ms s1) as [e2 [H2 [F2 [M2 [G2 T2]]]]].
  unfold bind at 1.
  destruct (listnew_stage World subprocess_call args ms s1) as [[x | []] s2];
    cbn [snd] in *.
  { exists e1, e2, [], []. rewrite H2, H1. subst s0. cbn [trace].
    rewrite !app_nil_r, <- !app_assoc. repeat split; auto. }
  destruct (backup_stage_events args ms s2) as [e3 [H3 [F3 [M3 [G3 T3]]]]].
  unfold bind at 1.
  destruct (backup_stage World subprocess_call os_makedirs os_mkdir cwd
                         args ms s2) as [[x | []] s3];
    cbn [snd] in *.
  { exists e1, e2, e3, []. rewrite H3, H2, H1. subst s0. cbn [trace].
    rewrite !app_nil_r, <- !app_assoc. repeat split; auto. }
  destruct (restore_stage_events args ms s3) as [e4 [H4 [F4 [M4 [G4 T4]]]]].
  unfold bind at 1.
  destruct (restore_stage World subprocess_call cwd fs args ms s3)
    as [[x | []] s4]; cbn [snd] in *.
  { exists e1, e2, e3, e4. rewrite H4, H3, H2, H1. subst s0. cbn [trace].
    rewrite <- !app_assoc. repeat split; auto. }
  exists e1, e2, e3, e4. unfold ret. cbn [snd].
  rewrite H4, H3, H2, H1. subst s0. cbn [trace].
  rewrite <- !app_assoc. repeat split; auto.
Qed.

(** X8: [main] does the modes in one order and only those asked for: after
    at most one record of its own (the migrations it works on, or the
    critical record of a CSV file it cannot open) come the events of the
    listing of the sources, of the listing of the destinations, of the
    backup and of the restore.  Every child process of the first block is
    the lister on the source mailbox of a loaded pair, every one of the
    second the lister on the destination mailbox of a loaded pair, every
    one of the third the backup of a source mailbox into its directory,
    every one of the fourth an upload to a destination mailbox; only the
    backup makes directories (the output directory and those of the source
    usernames), only the restore prints, and a mode that was not asked for
    leaves no event.  This holds also for a run cut short by an
    exception. *)
Theorem main_runs_modes_in_order (args : Args) (s : run_state World) :
  let ms :=
    loaded_migrations
      (parse_mailboxes_csv
         (csv args)
         (fst (open_csv (csv args) (snd (open_log (world s)))))
         (mailboxes args)) in
  exists e0 e1 e2 e3 e4,
    trace (final (main World subprocess_call os_makedirs os_mkdir cwd fs
                       open_csv open_log args s))
    = trace s ++ e0 ++ e1 ++ e2 ++ e3 ++ e4 /\
    (e0 = [] \/ exists lvl msg, e0 = [Log lvl msg]) /\
    (Forall of_lister e1 /\ Forall of_lister e2 /\
     Forall of_backup e3 /\ Forall of_restore e4) /\
    ((listold args = false -> e1 = []) /\ (listnew args = false -> e2 = []) /\
     (backup args = false -> e3 = []) /\ (restore args = false -> e4 = [])) /\
    (Forall (lists old ms) e1 /\ Forall (lists new ms) e2 /\
     Forall (backs_up cwd (output args) ms) e3 /\ Forall (restores ms) e4).
Proof.
  intros ms.
  assert (exists e0 e1 e2 e3 e4 : list event,
             trace s = trace s ++ e0 ++ e1 ++ e2 ++ e3 ++ e4 /\
             (e0 = [] \/ exists lvl msg, e0 = [Log lvl msg]) /\
             (Forall of_lister e1 /\ Forall of_lister e2 /\
              Forall of_backup e3 /\ Forall of_restore e4) /\
             ((listold args = false -> e1 = []) /\
              (listnew args = false -> e2 = []) /\
              (backup args = false -> e3 = []) /\
              (restore args = false -> e4 = [])) /\
             (Forall (lists old ms) e1 /\ Forall (lists new ms) e2 /\
              Forall (backs_up cwd (output args) ms) e3 /\
              Forall (restores ms) e4)) as Hnone.
  { exists [], [], [], [], []. cbn. rewrite app_nil_r.
    repeat split; auto. }
  destruct (loglevel_clamped (verbosity args)) as [lvl [Hl _]].
  subst ms. unfold main, init_logger. rewrite Hl.
  destruct (open_log (world s)) as [[|] w1]; [| exact Hnone].
  cbn [snd]. cbv beta iota.
  destruct (open_csv (csv args) w1) as [handle w2]. cbn [fst]. cbv beta iota.
  destruct (parse_mailboxes_csv (csv args) handle (mailboxes args))
    as [ms | status l message].
  - cbn [loaded_migrations].
    destruct (dispatch_events args ms (mkState w2 (trace s)))
      as [msg [e1 [e2 [e3 [e4 [Ht [HF [_ [HG HT]]]]]]]]].
    exists [Log INFO msg], e1, e2, e3, e4.
    destruct (dispatch _ _ _ _ _ _ _ _ _) as [[e|z] s']; cbn [snd final] in *;
      (split; [exact Ht |]); (split; [right; eauto |]); auto.
  - exists [Log l message], [], [], [], []. cbn [final trace].
    split; [reflexivity |]. split; [right; eauto |].
    repeat split; auto.
Qed.

Lemma emitted_app (lvl : level) (a b : list event) :
  emitted lvl (a ++ b) = emitted lvl a ++ emitted lvl b.
Proof. unfold emitted. apply filter_app. Qed.

Lemma emitted_modest_no_list (lvl : level) (evs : list event) :
  lvl <> DEBUG -> Forall modest_record evs ->
  forall l a, ~ In (LogList l a) (emitted lvl evs).
Proof.
  intros Hlvl HF l a Hin. unfold emitted in Hin.
  apply filter_In in Hin. destruct Hin as [Hin Hen].
  rewrite Forall_forall in HF. specialize (HF _ Hin). cbn in HF. subst l.
  destruct lvl; try discriminate. now apply Hlvl.
Qed.

Lemma emitted_modest_critical (evs : list event) :
  Forall modest_record evs -> emitted CRITICAL evs = [].
Proof.
  induction 1 as [|e evs He _ IH]; [reflexivity |].
  unfold emitted in *. cbn [filter]. rewrite IH.
  destruct e as [l msg | l a | | | |]; try reflexivity; cbn in He.
  - destruct He as [-> | [-> | ->]]; reflexivity.
  - subst l. reflexivity.
Qed.

Lemma main_events (args : Args) (s : run_state World) :
  exists evs,
    trace (final (main World subprocess_call os_makedirs os_mkdir cwd fs
                       open_csv open_log args s)) = trace s ++ evs /\
    ((exists msg st,
         evs = [Log CRITICAL msg] /\
         outcome (main World subprocess_call os_makedirs os_mkdir cwd fs
                       open_csv open_log args s) = SystemExit st) \/
     Forall modest_record evs).
Proof.
  unfold main.
  destruct (init_logger World open_log _ (world s)) as [[lvl [e|]] w1].
  { exists []. cbn. rewrite app_nil_r. auto. }
  destruct (open_csv (csv args) w1) as [handle w2].
  unfold parse_mailboxes_csv. destruct handle as [| | records].
  - eexists. cbn. split; [reflexivity |]. left. eauto.
  - eexists. cbn. split; [reflexivity |]. left. eauto.
  - destruct (dispatch_events args
                (parse_rows (mailboxes args) (DictReader records) [])
                (mkState w2 (trace s)))
      as [msg [e1 [e2 [e3 [e4 [Ht [_ [[M1 [M2 [M3 M4]]] _]]]]]]]].
    exists ([Log INFO msg] ++ e1 ++ e2 ++ e3 ++ e4).
    destruct (dispatch _ _ _ _ _ _ _ _ _) as [[e|z] s']; cbn [snd final] in *;
      (split; [exact Ht |]); right;
      (apply Forall_app; split;
         [constructor; [cbn; auto | constructor] |]);
      repeat (apply Forall_app; split; try assumption).
Qed.

(** X9: below the fourth level of verbosity no argument list is written to
    the log: the command lines of the child processes, masked or not, are
    logged at [DEBUG] only. *)
Theorem command_lines_need_full_verbosity (args : Args) (s : run_state World)
    (lvl : level) (evs : list event) :
  verbosity args < 4 ->
  threshold (main World subprocess_call os_makedirs os_mkdir cwd fs
                  open_csv open_log args s) = Some lvl ->
  trace (final (main World subprocess_call os_makedirs os_mkdir cwd fs
                     open_csv open_log args s)) = trace s ++ evs ->
  forall l a, ~ In (LogList l a) (emitted lvl evs).
Proof.
  intros Hv Hlvl Ht.
  assert (lvl <> DEBUG) as Hnd.
  { destruct (loglevel_clamped (verbosity args)) as [lvl' [H1 [_ [H3 _]]]].
    revert Hlvl. unfold main, init_logger. rewrite H1.
    destruct (open_log (world s)) as [[|] w1].
    - destruct (open_csv (csv args) w1) as [handle w2].
      destruct (parse_mailboxes_csv _ _ _).
      + destruct (dispatch _ _ _ _ _ _ _ _ _) as [[e|z] s']; cbn;
          intros [= <-]; auto.
      + cbn. intros [= <-]. auto.
    - cbn. intros [= <-]. auto. }
  destruct (main_events args s) as [evs' [Ht' H]].
  rewrite Ht in Ht'. apply app_inv_head in Ht'. subst evs'.
  destruct H as [[msg [st [-> _]]] | HF].
  - intros l a Hin. unfold emitted in Hin. apply filter_In in Hin.
    destruct Hin as [[Hin | []] _]. discriminate.
  - now apply emitted_modest_no_list.
Qed.

(** X10: at verbosity 0, which is the default, a run that does not stop on
    the CSV file writes nothing to the log: the logger lets only critical
    records through and the modes log none, so the error record of a
    backup directory that is missing is not shown either. *)
Theorem main_is_silent_by_default (args : Args) (s : run_state World)
    (evs : list event) :
  verbosity args = 0 ->
  (forall st,
      outcome (main World subprocess_call os_makedirs os_mkdir cwd fs
                    open_csv open_log args s) <> SystemExit st) ->
  trace (final (main World subprocess_call os_makedirs os_mkdir cwd fs
                     open_csv open_log args s)) = trace s ++ evs ->
  threshold (main World subprocess_call os_makedirs os_mkdir cwd fs
                  open_csv open_log args s) = Some CRITICAL /\
  emitted CRITICAL evs = [].
Proof.
  intros Hv Hout Ht. split.
  - unfold main, init_logger. rewrite Hv. cbn [Nat.ltb Nat.leb loglevel].
    destruct (open_log (world s)) as [[|] w1].
    + destruct (open_csv (csv args) w1) as [handle w2].
      destruct (parse_mailboxes_csv _ _ _).
      * destruct (dispatch _ _ _ _ _ _ _ _ _) as [[e|z] s']; reflexivity.
      * reflexivity.
    + reflexivity.
  - destruct (main_events args s) as [evs' [Ht' H]].
    rewrite Ht in Ht'. apply app_inv_head in Ht'. subst evs'.
    destruct H as [[msg [st [_ Hst]]] | HF].
    + now destruct (Hout st).
    + now apply emitted_modest_critical.
Qed.

(** Every record the reader yields has its first field. *)
Lemma loaded_old_username (mailboxes_filter : list string)
    (records : list (list string)) (m : Migration) :
  In m (parse_rows mailboxes_filter (DictReader records) []) ->
  username (old m) <> None.
Proof.
  rewrite parse_rows_filter. cbn [app]. intros H.
  apply filter_In in H. destruct H as [H _].
  apply in_map_iff in H. destruct H as [row [<- H]].
  unfold DictReader in H. apply in_map_iff in H.
  destruct H as [r [<- H]]. apply filter_In in H.
  destruct H as [_ H]. destruct r; [discriminate |]. cbn. discriminate.
Qed.

Lemma dispatch_never (e : exn) (args : Args) (ms : list Migration)
    (s : run_state World) :
  e <> ValueError -> e <> OSError ->
  (forall m, In m ms -> username (old m) <> None) ->
  fst (dispatch World subprocess_call os_makedirs os_mkdir cwd fs args ms s)
  <> inl e.
Proof.
  intros HV HO Hms. unfold dispatch. revert s.
  apply never_bind; [intros s; apply never_emit |]. intros _ _ _ _.
  apply never_bind.
  { intros s. unfold listold_stage. destruct (listold args);
      [| apply never_ret]. revert s.
    apply never_bind; [| intros; apply never_emit].
    intros s. apply list_mailboxes_never; auto. }
  intros _ _ _ _. apply never_bind.
  { intros s. unfold listnew_stage. destruct (listnew args);
      [| apply never_ret]. revert s.
    apply never_bind; [| intros; apply never_emit].
    intros s. apply list_mailboxes_never; auto. }
  intros _ _ _ _. apply never_bind.
  { intros s. unfold backup_stage. destruct (backup args);
      [| apply never_ret]. revert s.
    apply never_bind; [| intros; apply never_emit].
    intros s. apply backup_mailboxes_never; auto. }
  intros _ _ _ _. apply never_bind.
  { intros s. unfold restore_stage. destruct (restore args);
      [| apply never_ret]. revert s.
    apply never_bind; [| intros; apply never_emit].
    intros s. apply restore_mailboxes_never; auto. }
  intros _ _ _ _ s. apply never_ret.
Qed.

Lemma dispatch_returns_zero (args : Args) (ms : list Migration)
    (s : run_state World) (z : Z) (s' : run_state World) :
  dispatch World subprocess_call os_makedirs os_mkdir cwd fs args ms s
  = (inr z, s') -> z = 0%Z.
Proof.
  unfold dispatch. unfold bind at 1. unfold emit at 1.
  unfold bind at 1. destruct (listold_stage _ _ _ _ _) as [[e|[]] s1];
    [discriminate |].
  unfold bind at 1. destruct (listnew_stage _ _ _ _ _) as [[e|[]] s2];
    [discriminate |].
  unfold bind at 1. destruct (backup_stage _ _ _ _ _ _ _ _) as [[e|[]] s3];
    [discriminate |].
  unfold bind at 1. destruct (restore_stage _ _ _ _ _ _ _) as [[e|[]] s4];
    [discriminate |].
  unfold ret. now intros [= <- _].
Qed.

(** X11: once [parse_args] has returned, [main] is never ended by a
    failed lookup, whatever the arguments, the CSV file and the child
    processes.  No [KeyError] comes out of the table of log levels, the
    verbosity being brought down to 4 first; no [AttributeError] out of
    [username.replace], every record the reader yields having a source
    username; no [IndexError] out of the assignments that mask the
    password, the arguments they are written over being always there.
    And when [main] returns, it returns 0, also when child processes
    failed. *)
Theorem main_is_never_ended_by_a_failed_lookup (args : Args)
    (s : run_state World) :
  outcome (main World subprocess_call os_makedirs os_mkdir cwd fs
                open_csv open_log args s) <> Raised KeyError /\
  outcome (main World subprocess_call os_makedirs os_mkdir cwd fs
                open_csv open_log args s) <> Raised (Runner AttributeError) /\
  outcome (main World subprocess_call os_makedirs os_mkdir cwd fs
                open_csv open_log args s) <> Raised (Runner IndexError) /\
  (forall status,
      outcome (main World subprocess_call os_makedirs os_mkdir cwd fs
                    open_csv open_log args s) = Returned status ->
      status = 0%Z).
Proof.
  destruct (loglevel_clamped (verbosity args)) as [lvl [H1 _]].
  unfold main, init_logger. rewrite H1.
  destruct (open_log (world s)) as [[|] w1];
    [| cbn; repeat split; discriminate].
  destruct (open_csv (csv args) w1) as [handle w2].
  unfold parse_mailboxes_csv. destruct handle as [| | records];
    try solve [cbn; repeat split; discriminate].
  pose proof (fun x HV HO =>
                dispatch_never x args
                  (parse_rows (mailboxes args) (DictReader records) [])
                  (mkState w2 (trace s)) HV HO
                  (loaded_old_username (mailboxes args) records))
    as Hnever.
  pose proof (dispatch_returns_zero args
                (parse_rows (mailboxes args) (DictReader records) [])
                (mkState w2 (trace s))) as Hzero.
  destruct (dispatch _ _ _ _ _ _ _ _ _) as [[x|z] s']; cbn [fst outcome] in *.
  - repeat split; try discriminate.
    + intros [= ->]. now destruct (Hnever AttributeError).
    + intros [= ->]. now destruct (Hnever IndexError).
  - repeat split; try discriminate. intros status [= <-].
    exact (Hzero z s' eq_refl).
Qed.

End MainRuns.

(** ** Edge cases of the restore and of the loader *)

Section EdgeCases.

Variable World : Type.
Variable subprocess_call : list string -> World -> option Z * World.
Variable cwd : string.
Variable fs : string -> option node.

Lemma restore_files_none (m : Migration) (dir root : string)
    (files : list string) (ok : bool) (s : run_state World) :
  filter (fun f => Py.endswith f ".mbox") files = [] ->
  for_each World files (restore_file World subprocess_call cwd m dir root)
           ok s = (inr ok, s).
Proof.
  induction files as [|f files IH]; cbn [for_each filter]; intros H.
  - reflexivity.
  - destruct (Py.endswith f ".mbox") eqn:E; [discriminate |].
    unfold bind at 1. unfold restore_file at 1. rewrite E. unfold ret at 1.
    now apply IH.
Qed.

Lemma restore_walk_none (m : Migration) (dir : string)
    (triples : list (string * list string * list string)) (ok : bool)
    (s : run_state World) :
  flat_map (fun t : string * list string * list string =>
              map (pair (fst (fst t)))
                  (filter (fun f => Py.endswith f ".mbox") (snd t)))
           triples = [] ->
  for_each World triples (restore_dir World subprocess_call cwd m dir) ok s
  = (inr ok, s).
Proof.
  induction triples as [|[[root dirs] files] triples IH];
    cbn [for_each flat_map fst snd]; intros H.
  - reflexivity.
  - apply app_eq_nil in H. destruct H as [H1 H2]. apply map_eq_nil in H1.
    unfold bind at 1. unfold restore_dir at 1.
    rewrite (restore_files_none m dir root files ok s H1).
    now apply IH.
Qed.

(** X12: a pair whose backup directory exists and holds no [.mbox] file
    (an empty directory, or a path that is not a directory) is counted as
    restored: the restore announces it in the log, starts no upload and
    adds the pair to its result. *)
Theorem restore_counts_empty_directory_as_success (backup_dir : string)
    (acc : list Migration) (m : Migration) (s : run_state World) :
  restorable fs backup_dir m = true ->
  mbox_files fs backup_dir m = [] ->
  restore_body World subprocess_call cwd fs backup_dir acc m s =
  (inr (acc ++ [m]),
   mkState (world s)
           (trace s ++ [Log INFO ("Restoring old " ++ Py.str (username (old m))
                                  ++ " to new "
                                  ++ Py.str (username (new m)))])).
Proof.
  intros Hr Hf. unfold restorable in Hr. unfold mbox_files in Hf.
  unfold restore_body.
  destruct (Py.truthy (username (new m))); [| discriminate].
  destruct (Py.truthy (host (new m))); [| discriminate].
  cbn [negb orb andb] in *.
  destruct (username (old m)) as [name|] eqn:Hn; [| discriminate].
  unfold bind at 1. unfold or_raise at 1. cbv beta iota.
  destruct (fs (user_backup_dir backup_dir name)) as [n|] eqn:Hfs;
    [| discriminate].
  unfold bind at 1. unfold emit at 1. unfold bind at 1.
  rewrite (restore_walk_none m (user_backup_dir backup_dir name) _ true _ Hf).
  reflexivity.
Qed.

Lemma source_only_new (r : list string) :
  List.length r < 6 ->
  username (new (migration_of (dict_of_record r))) = None /\
  password (new (migration_of (dict_of_record r))) = None /\
  host (new (migration_of (dict_of_record r))) = None.
Proof.
  intros H.
  do 6 (destruct r as [|? r]; [cbn; auto |]). cbn in H. lia.
Qed.

(** X13: a record of fewer than six fields gives a pair without
    destination.  The restore passes over it without a record in the log,
    and the listing of the destinations calls the tool for it with the
    word None as host, username and password. *)
Theorem source_only_record (r : list string) (backup_dir : string)
    (acc : list Migration) (s : run_state World) :
  List.length r < 6 ->
  restore_body World subprocess_call cwd fs backup_dir acc
               (migration_of (dict_of_record r)) s = (inr acc, s) /\
  shlex.split (list_command (new (migration_of (dict_of_record r)))) =
  Some ["imapbackup/imapgrab.py"; "-l"; "-s"; "None";
        "-u"; "None"; "-p"; "None"].
Proof.
  intros H. destruct (source_only_new r H) as [Hu [Hp Hh]]. split.
  - unfold restore_body. rewrite Hu. reflexivity.
  - unfold list_command. rewrite Hu, Hp, Hh. vm_compute. reflexivity.
Qed.

End EdgeCases.

Lemma dict_of_record_firstn (r : list string) :
  dict_of_record (firstn 10 r) = dict_of_record r.
Proof.
  unfold dict_of_record. now rewrite !nth_error_firstn.
Qed.

Lemma DictReader_trimmed (records : list (list string)) :
  DictReader
    (map (firstn 10)
         (filter (fun r => match r with [] => false | _ => true end) records))
  = DictReader records.
Proof.
  unfold DictReader. induction records as [|r records IH]; [reflexivity |].
  destruct r as [|x r].
  - cbn [filter]. exact IH.
  - cbn [filter map]. change (firstn 10 (x :: r)) with (x :: firstn 9 r).
    cbn [filter map]. rewrite IH. f_equal.
    exact (dict_of_record_firstn (x :: r)).
Qed.

(** X14: the loader reads the first ten fields of the records that are not
    blank lines: taking the blank lines and the columns after the tenth
    out of the file changes nothing in what it returns. *)
Theorem loader_ignores_blank_lines_and_extra_columns (csv_path : string)
    (records : list (list string)) (mailboxes_filter : list string) :
  parse_mailboxes_csv csv_path
    (Opened
       (map (firstn 10)
            (filter (fun r => match r with [] => false | _ => true end)
                    records)))
    mailboxes_filter =
  parse_mailboxes_csv csv_path (Opened records) mailboxes_filter.
Proof.
  unfold parse_mailboxes_csv. now rewrite DictReader_trimmed.
Qed.

(** ** Absolute paths *)

Section AbsolutePaths.

Variable World : Type.
Variable subprocess_call : list string -> World -> option Z * World.
Variable os_makedirs : string -> World -> bool * World.
Variable os_mkdir : string -> World -> mkdir_result * World.
Variable cwd : string.
Variable fs : string -> option node.

Lemma quotable_backup_call (output_dir : string) (m : Migration)
    (name : string) (cmdl : list string) :
  posixpath.isabs cwd = true ->
  quotable_backup cwd output_dir m = true ->
  username (old m) = Some name ->
  shlex.split (backup_command (old m) (user_output_dir cwd output_dir name))
  = Some cmdl ->
  exists dir,
    argument_after "-f" cmdl = Some dir /\ posixpath.isabs dir = true.
Proof.
  intros Hc Hq Hn Hs. unfold quotable_backup, quotable_mailbox in Hq.
  rewrite !andb_true_iff in Hq. destruct Hq as [[[Hh Hu] Hp] Hd].
  rewrite Hn in Hd.
  rewrite backup_command_pieces, split_format_pieces in Hs.
  - injection Hs as <-. exists (user_output_dir cwd output_dir name). split.
    + destruct (use_ssl (old m)); reflexivity.
    + unfold user_output_dir. now apply abspath_isabs.
  - repeat constructor; try assumption.
    destruct (use_ssl (old m)); reflexivity.
Qed.

Lemma quotable_restore_call (backup_dir : string) (m : Migration)
    (name root f box : string) (cmdl : list string) :
  posixpath.isabs cwd = true ->
  quotable_restore cwd fs backup_dir m = true ->
  username (old m) = Some name ->
  In (root, f) (mbox_files fs backup_dir m) ->
  box_imap_path cwd (user_backup_dir backup_dir name) root f = Some box ->
  shlex.split
    (restore_command (new m) box
       (posixpath.abspath cwd (posixpath.join root [f]))) = Some cmdl ->
  posixpath.isabs (last cmdl EmptyString) = true.
Proof.
  intros Hc Hq Hn Hin Hb Hs. unfold quotable_restore, quotable_mailbox in Hq.
  rewrite !andb_true_iff in Hq. destruct Hq as [[Hpo [[Hh Hu] Hp]] Hall].
  rewrite forallb_forall in Hall. specialize (Hall (root, f) Hin).
  cbn [fst snd] in Hall. rewrite Hn, Hb, andb_true_iff in Hall.
  destruct Hall as [Hfile Hbox].
  rewrite restore_command_pieces, split_format_pieces in Hs.
  - injection Hs as <-.
    destruct (use_ssl (new m)); cbn [flat_map piece_tokens];
      destruct (Py.str (port (new m)) =? EmptyString); cbn [app last];
      now apply abspath_isabs.
  - repeat constructor; try assumption.
    destruct (use_ssl (new m)); reflexivity.
Qed.

(** X15: the working directory being absolute, every directory the backup
    calls [os.mkdir] on is absolute, in every run and however it ends (the
    output directory itself goes to [os.makedirs] as it was given).  When
    the fields of the source mailboxes and their directories have no
    double quote and no backslash, the argument every backup process has
    after [-f] is absolute; when the same holds of the destination
    mailboxes and of the path and the folder path of every backup file,
    and the ports have no whitespace, quote or backslash, the last
    argument of every upload is absolute. *)
Theorem paths_given_to_tools_are_absolute (ms : list Migration)
    (output_dir : string) :
  posixpath.isabs cwd = true ->
  always makes_absolute_directory
         (backup_mailboxes World subprocess_call os_makedirs os_mkdir cwd
                           ms output_dir) /\
  (forallb (quotable_backup cwd output_dir) ms = true ->
   always gets_absolute_directory
          (backup_mailboxes World subprocess_call os_makedirs os_mkdir cwd
                            ms output_dir)) /\
  (forallb (quotable_restore cwd fs output_dir) ms = true ->
   always gets_absolute_file
          (restore_mailboxes World subprocess_call cwd fs ms output_dir)).
Proof.
  intros Hc. split; [| split].
  - apply backup_mailboxes_always; try solve [intros; exact I].
    intros m name _ _. unfold user_output_dir. now apply abspath_isabs.
  - intros Hq. rewrite forallb_forall in Hq.
    apply backup_mailboxes_always; try solve [intros; exact I].
    intros m name cmdl r Hm Hn Hs.
    exact (quotable_backup_call output_dir m name cmdl Hc (Hq m Hm) Hn Hs).
  - intros Hq. rewrite forallb_forall in Hq.
    apply restore_mailboxes_always; try solve [intros; exact I].
    intros m name root f box cmdl r Hm Hn Hin Hb Hs.
    exact (quotable_restore_call output_dir m name root f box cmdl
             Hc (Hq m Hm) Hn Hin Hb Hs).
Qed.

End AbsolutePaths.

(** ** Command lines that cannot be split *)

Lemma whitespace_not_double_quote (c : ascii) :
  shlex.whitespace c = true -> shlex.escapedquotes c = false.
Proof.
  unfold shlex.whitespace. rewrite !orb_true_iff, !Ascii.eqb_eq.
  intros [[[-> | ->] | ->] | ->]; reflexivity.
Qed.

Lemma step_parity (lx : shlex.lexer) (c : ascii) :
  negb (Ascii.eqb c "'" || shlex.escape c) = true ->
  (shlex.state lx = shlex.in_space \/ shlex.state lx = shlex.in_word ->
   if shlex.escapedquotes c
   then shlex.state (shlex.step lx c) = shlex.in_quote (ascii_of_nat 34)
   else shlex.state (shlex.step lx c) = shlex.in_space \/
        shlex.state (shlex.step lx c) = shlex.in_word) /\
  (shlex.state lx = shlex.in_quote (ascii_of_nat 34) ->
   if shlex.escapedquotes c
   then shlex.state (shlex.step lx c) = shlex.in_word
   else shlex.state (shlex.step lx c) = shlex.in_quote (ascii_of_nat 34)).
Proof.
  rewrite negb_true_iff, orb_false_iff. intros [Hsq He].
  destruct lx as [st tok qd es toks].
  cbn [shlex.state]. unfold shlex.step.
  cbn [shlex.state shlex.token shlex.quoted shlex.escapedstate shlex.tokens].
  assert (shlex.quotes c = shlex.escapedquotes c) as Hq.
  { unfold shlex.quotes, shlex.escapedquotes. now rewrite Hsq. }
  split.
  - intros [-> | ->].
    + destruct (shlex.whitespace c) eqn:W.
      * rewrite (whitespace_not_double_quote c W).
        unfold shlex.break_or_continue. cbn. destruct (_ || _); cbn; auto.
      * rewrite He, Hq. destruct (shlex.escapedquotes c) eqn:Q; cbn; auto.
        unfold shlex.escapedquotes in Q. apply Ascii.eqb_eq in Q. now subst c.
    + destruct (shlex.whitespace c) eqn:W.
      * rewrite (whitespace_not_double_quote c W).
        unfold shlex.break_or_continue. cbn. destruct (_ || _); cbn; auto.
      * rewrite He, Hq. destruct (shlex.escapedquotes c) eqn:Q; cbn; auto.
        unfold shlex.escapedquotes in Q. apply Ascii.eqb_eq in Q. now subst c.
  - intros ->. unfold shlex.escapedquotes at 1.
    destruct (Ascii.eqb c (ascii_of_nat 34)); [reflexivity |].
    rewrite He. reflexivity.
Qed.

(** Without single quote and escape character, the lexer is inside a
    quotation exactly after an odd number of double quotes. *)
Lemma run_parity (s : string) :
  simply_quoted s = true ->
  forall lx,
    (shlex.state lx = shlex.in_space \/ shlex.state lx = shlex.in_word ->
     if Nat.odd (count_double_quotes s)
     then shlex.state (shlex.run lx s) = shlex.in_quote (ascii_of_nat 34)
     else shlex.state (shlex.run lx s) = shlex.in_space \/
          shlex.state (shlex.run lx s) = shlex.in_word) /\
    (shlex.state lx = shlex.in_quote (ascii_of_nat 34) ->
     if Nat.odd (count_double_quotes s)
     then shlex.state (shlex.run lx s) = shlex.in_space \/
          shlex.state (shlex.run lx s) = shlex.in_word
     else shlex.state (shlex.run lx s) = shlex.in_quote (ascii_of_nat 34)).
Proof.
  induction s as [|c s IH]; intros H lx.
  - cbn. auto.
  - apply all_chars_cons in H. destruct H as [Hc Hs].
    destruct (step_parity lx c Hc) as [Hb Hd].
    destruct (IH Hs (shlex.step lx c)) as [IHb IHd].
    rewrite run_cons. cbn [count_double_quotes].
    destruct (shlex.escapedquotes c).
    + change (1 + count_double_quotes s) with (S (count_double_quotes s)).
      rewrite Nat.odd_succ, <- Nat.negb_odd.
      destruct (Nat.odd (count_double_quotes s)); cbn [negb]; split; intros G.
      * apply IHd. now apply Hb.
      * apply IHb. right. now apply Hd.
      * apply IHd. now apply Hb.
      * apply IHb. right. now apply Hd.
    + change (0 + count_double_quotes s) with (count_double_quotes s).
      split; intros G.
      * apply IHb. now apply Hb.
      * apply IHd. now apply Hd.
Qed.

Lemma split_parity (s : string) :
  simply_quoted s = true ->
  (shlex.split s = None <-> Nat.odd (count_double_quotes s) = true).
Proof.
  intros H. unfold shlex.split.
  destruct (run_parity s H shlex.init) as [Hb _].
  specialize (Hb (or_introl eq_refl)). unfold shlex.finish.
  destruct (Nat.odd (count_double_quotes s)).
  - rewrite Hb. split; reflexivity.
  - destruct Hb as [-> | ->]; destruct (_ || _); split; discriminate.
Qed.

Lemma count_app (a b : string) :
  count_double_quotes (a ++ b) =
  count_double_quotes a + count_double_quotes b.
Proof.
  induction a as [|c a IH]; [reflexivity |].
  cbn [String.append count_double_quotes]. rewrite IH. lia.
Qed.

Lemma count_value (v : string) :
  count_double_quotes (Py.dq ++ v ++ Py.dq) = count_double_quotes v + 2.
Proof.
  rewrite !count_app. change (count_double_quotes Py.dq) with 1. lia.
Qed.

Lemma count_format_pieces (ps : list piece) :
  count_double_quotes (format_pieces ps) =
  list_sum (map (fun p => count_double_quotes (render p)) ps).
Proof.
  unfold format_pieces. induction ps as [|p ps IH]; [reflexivity |].
  destruct ps as [|q ps].
  - cbn [map String.concat list_sum fold_right]. lia.
  - cbn [map] in *. rewrite concat_space_cons2, count_app.
    cbn [count_double_quotes list_sum fold_right] in *. rewrite IH.
    change (shlex.escapedquotes " ") with false. cbv iota. lia.
Qed.

Lemma simply_value (v : string) :
  simply_quoted v = true -> simply_quoted (Py.dq ++ v ++ Py.dq) = true.
Proof.
  intros H. unfold simply_quoted in *. rewrite !all_chars_app, H. reflexivity.
Qed.

Lemma simply_format_pieces (ps : list piece) :
  Forall (fun p => simply_quoted (render p) = true) ps ->
  simply_quoted (format_pieces ps) = true.
Proof.
  unfold format_pieces. induction 1 as [|p ps Hp Hps IH]; [reflexivity |].
  destruct ps as [|q ps].
  - exact Hp.
  - cbn [map] in *. rewrite concat_space_cons2. unfold simply_quoted in *.
    rewrite all_chars_app, Hp. cbn [Py.all_chars andb].
    change (negb (Ascii.eqb " " "'" || shlex.escape " ")) with true.
    exact IH.
Qed.

Lemma list_command_parity (mailbox : Mailbox) :
  simply_quoted (Py.str (host mailbox)) = true ->
  simply_quoted (Py.str (username mailbox)) = true ->
  simply_quoted (Py.str (password mailbox)) = true ->
  (shlex.split (list_command mailbox) = None <->
   Nat.odd (count_double_quotes (Py.str (host mailbox))
            + count_double_quotes (Py.str (username mailbox))
            + count_double_quotes (Py.str (password mailbox))) = true).
Proof.
  intros Hh Hu Hp. rewrite split_parity.
  - rewrite list_command_pieces, count_format_pieces.
    cbn [map list_sum fold_right render]. rewrite !count_value. simpl.
    match goal with
    | |- _ <-> Nat.odd ?n = true => rewrite <- (Nat.odd_add_mul_2 n 2)
    end.
    match goal with
    | |- Nat.odd ?a = true <-> Nat.odd ?b = true =>
        replace a with b by lia
    end.
    reflexivity.
  - rewrite list_command_pieces. apply simply_format_pieces.
    repeat constructor; try assumption; try reflexivity;
      now apply simply_value.
Qed.

Lemma backup_command_parity (mailbox : Mailbox) (dir : string) :
  simply_quoted (Py.str (host mailbox)) = true ->
  simply_quoted (Py.str (username mailbox)) = true ->
  simply_quoted (Py.str (password mailbox)) = true ->
  simply_quoted dir = true ->
  (shlex.split (backup_command mailbox dir) = None <->
   Nat.odd (count_double_quotes (Py.str (host mailbox))
            + count_double_quotes (Py.str (username mailbox))
            + count_double_quotes (Py.str (password mailbox))
            + count_double_quotes dir) = true).
Proof.
  intros Hh Hu Hp Hd. rewrite split_parity.
  - rewrite backup_command_pieces, count_format_pieces.
    cbn [map list_sum fold_right render]. rewrite !count_value.
    match goal with
    | |- _ <-> Nat.odd ?n = true => rewrite <- (Nat.odd_add_mul_2 n 5)
    end.
    destruct (use_ssl mailbox); simpl;
      match goal with
      | |- Nat.odd ?a = true <-> Nat.odd ?b = true =>
          replace a with b by lia
      end; reflexivity.
  - rewrite backup_command_pieces. apply simply_format_pieces.
    repeat constructor; try assumption; try reflexivity;
      try (now apply simply_value).
    cbn [render]. destruct (use_ssl mailbox); reflexivity.
Qed.

Lemma restore_command_parity (mailbox : Mailbox) (box file : string) :
  simply_quoted (Py.str (host mailbox)) = true ->
  simply_quoted (Py.str (username mailbox)) = true ->
  simply_quoted (Py.str (password mailbox)) = true ->
  simply_quoted (Py.str (port mailbox)) = true ->
  simply_quoted box = true -> simply_quoted file = true ->
  (shlex.split (restore_command mailbox box file) = None <->
   Nat.odd (count_double_quotes (Py.str (host mailbox))
            + count_double_quotes (Py.str (username mailbox))
            + count_double_quotes (Py.str (password mailbox))
            + count_double_quotes (Py.str (port mailbox))
            + count_double_quotes box
            + count_double_quotes file) = true).
Proof.
  intros Hh Hu Hp Hpo Hb Hf. rewrite split_parity.
  - rewrite restore_command_pieces, count_format_pieces.
    cbn [map list_sum fold_right render]. rewrite !count_value.
    match goal with
    | |- _ <-> Nat.odd ?n = true => rewrite <- (Nat.odd_add_mul_2 n 5)
    end.
    destruct (use_ssl mailbox); simpl;
      match goal with
      | |- Nat.odd ?a = true <-> Nat.odd ?b = true =>
          replace a with b by lia
      end; reflexivity.
  - rewrite restore_command_pieces. apply simply_format_pieces.
    repeat constructor; try assumption; try reflexivity;
      try (now apply simply_value).
    cbn [render]. destruct (use_ssl mailbox); reflexivity.
Qed.

Section Unbalanced.

Variable World : Type.
Variable subprocess_call : list string -> World -> option Z * World.

(** X16: on a mailbox whose host, username and password have no single
    quote and no backslash, the command line of the lister cannot be
    split exactly when these fields hold an odd number of double quotes
    together; the same holds for the backup with the directory, and for
    the upload with the port, the folder path and the file path.  The
    lister then stops with a [ValueError] at that mailbox, having
    announced it in the log and started no process for it. *)
Theorem unbalanced_quotes_raise_ValueError (mailbox : Mailbox) :
  simply_quoted (Py.str (host mailbox)) = true ->
  simply_quoted (Py.str (username mailbox)) = true ->
  simply_quoted (Py.str (password mailbox)) = true ->
  (shlex.split (list_command mailbox) = None <->
   Nat.odd (count_double_quotes (Py.str (host mailbox))
            + count_double_quotes (Py.str (username mailbox))
            + count_double_quotes (Py.str (password mailbox))) = true) /\
  (forall dir,
      simply_quoted dir = true ->
      (shlex.split (backup_command mailbox dir) = None <->
       Nat.odd (count_double_quotes (Py.str (host mailbox))
                + count_double_quotes (Py.str (username mailbox))
                + count_double_quotes (Py.str (password mailbox))
                + count_double_quotes dir) = true)) /\
  (forall box file,
      simply_quoted (Py.str (port mailbox)) = true ->
      simply_quoted box = true -> simply_quoted file = true ->
      (shlex.split (restore_command mailbox box file) = None <->
       Nat.odd (count_double_quotes (Py.str (host mailbox))
                + count_double_quotes (Py.str (username mailbox))
                + count_double_quotes (Py.str (password mailbox))
                + count_double_quotes (Py.str (port mailbox))
                + count_double_quotes box
                + count_double_quotes file) = true)) /\
  (forall type_ acc m s,
      getattr m type_ = Some mailbox ->
      shlex.split (list_command mailbox) = None ->
      list_body World subprocess_call type_ acc m s =
      (inl ValueError,
       mkState (world s)
               (trace s ++ [Log INFO ("Listing mailbox "
                                      ++ Py.str (username mailbox))]))).
Proof.
  intros Hh Hu Hp. split; [| split; [| split]].
  - now apply list_command_parity.
  - intros dir Hd. now apply backup_command_parity.
  - intros box file Hpo Hb Hf. now apply restore_command_parity.
  - intros type_ acc m s Hg Hs. unfold list_body.
    unfold bind at 1. unfold or_raise at 1. rewrite Hg. cbv beta iota.
    unfold bind at 1. unfold emit at 1. cbv beta iota.
    unfold bind at 1. unfold or_raise at 1. rewrite Hs. reflexivity.
Qed.

End Unbalanced.

(** ** Runs that complete *)

Lemma made_directories_app (a b : list event) :
  made_directories (a ++ b) = made_directories a ++ made_directories b.
Proof.
  induction a as [|e a IH]; [reflexivity |].
  destruct e; simpl; now rewrite IH.
Qed.

Lemma printed_app (a b : list event) :
  printed (a ++ b) = printed a ++ printed b.
Proof.
  induction a as [|e a IH]; [reflexivity |].
  destruct e; simpl; now rewrite IH.
Qed.

Section Completed.

Variable World : Type.
Variable subprocess_call : list string -> World -> option Z * World.
Variable os_makedirs : string -> World -> bool * World.
Variable os_mkdir : string -> World -> mkdir_result * World.
Variable cwd : string.
Variable fs : string -> option node.

(** X17: a backup that completes has made the output directory first and
    then, for every pair of the sequence in order, the directory of its
    source username, and has run one child process for each, whatever the
    earlier ones returned; it returns the source mailboxes whose process
    returned zero. *)
Theorem backup_processes_every_mailbox (ms : list Migration)
    (output_dir : string) (s : run_state World) (success : list Mailbox)
    (s' : run_state World) :
  backup_mailboxes World subprocess_call os_makedirs os_mkdir cwd
                   ms output_dir s = (inr success, s') ->
  exists evs,
    trace s' = trace s ++ evs /\
    made_directories evs =
    output_dir
    :: map (fun m => user_output_dir cwd output_dir
                                     (Py.str (username (old m)))) ms /\
    List.length (calls evs) = List.length ms /\
    success =
    map (fun p => old (fst p))
        (filter (fun p => returned_zero (snd p)) (combine ms (calls evs))).
Proof.
  intros H. unfold backup_mailboxes, bind, makedirs_exist_ok in H.
  destruct (os_makedirs output_dir (world s)) as [[|] w]; [| discriminate].
  destruct (Py.has_nul output_dir); [discriminate |].
  apply backup_segments in H. destruct H as [segs [Ht [-> HF]]].
  cbn [trace] in Ht.
  exists (Makedirs output_dir :: concat (map fst segs)).
  split; [rewrite Ht, <- app_assoc; reflexivity |]. clear Ht.
  cbn [made_directories calls app].
  induction HF as [|m [evs kept] ms segs
                    [name [cmdl [logged [rc [Hn [_ [_ [Hevs Hkept]]]]]]]]
                    _ [IH1 [IH2 IH3]]];
    [repeat split; reflexivity |].
  cbn [fst snd] in Hevs, Hkept. subst evs kept.
  cbn [map concat fst snd]. rewrite Hn.
  rewrite made_directories_app, calls_app, length_app.
  cbn [made_directories calls app List.length Py.str combine filter
       returned_zero snd fst map].
  injection IH1 as IH1. rewrite IH1, IH2, IH3.
  repeat split. destruct (Z.eqb rc 0); reflexivity.
Qed.

Lemma upload_segments_printed (m : Migration) (dir : string)
    (files : list (string * string)) (segs : list (list event)) :
  Forall2 (upload_segment cwd m dir) files segs ->
  map Some (printed (concat segs)) = map snd (calls (concat segs)).
Proof.
  induction 1 as [|file seg files segs
                    [box [cmdl [logged [rc [_ [_ [_ ->]]]]]]] _ IH];
    [reflexivity |].
  cbn [concat app printed calls map snd]. now rewrite IH.
Qed.

(** X18: a restore that completes has printed the exit status of every
    upload it started, in their order, and nothing else. *)
Theorem restore_prints_exit_statuses (ms : list Migration)
    (backup_dir : string) (s : run_state World) (success : list Migration)
    (s' : run_state World) :
  restore_mailboxes World subprocess_call cwd fs ms backup_dir s
  = (inr success, s') ->
  exists evs,
    trace s' = trace s ++ evs /\
    map Some (printed evs) = map snd (calls evs).
Proof.
  intros H. unfold restore_mailboxes in H.
  apply (for_each_segments World
           (restore_body World subprocess_call cwd fs backup_dir)
           (fun _ evs _ => map Some (printed evs) = map snd (calls evs)))
    in H.
  - destruct H as [segs [Ht [_ HF]]]. exists (concat (map fst segs)).
    split; [exact Ht |]. clear Ht.
    induction HF as [|m [evs kept] ms segs Hseg _ IH]; [reflexivity |].
    cbn [map concat fst] in *.
    now rewrite printed_app, calls_app, !map_app, Hseg, IH.
  - clear. intros acc m s acc' s' H. apply restore_body_run in H.
    destruct (restorable fs backup_dir m).
    + destruct H as [name [segs [_ [HF [Ht Ha]]]]].
      eexists. eexists. split; [exact Ht |]. split; [exact Ha |].
      cbn [printed calls]. exact (upload_segments_printed _ _ _ _ HF).
    + destruct H as [-> [-> | [name [_ Ht]]]].
      * exists [], []. now rewrite !app_nil_r.
      * eexists. exists []. split; [exact Ht |].
        rewrite app_nil_r. split; reflexivity.
Qed.

End Completed.


(** ** The further properties on the sample data *)

Lemma list_command_arguments_witness :
  shlex.split (list_command Sample.alice_old) =
  Some ["imapbackup/imapgrab.py"; "-l"; "-s"; "imap.old.example";
        "-u"; "alice@old.example"; "-p"; "pw1"].
Proof.
  exact (list_command_arguments Sample.alice_old eq_refl eq_refl eq_refl).
Defined.

Lemma backup_command_arguments_witness :
  shlex.split
    (backup_command Sample.alice_old
                    "/home/admin/backups/alice_at_old.example") =
  Some ["imapbackup/imapgrab.py"; "-v"; "-d"; "-S";
        "-f"; "/home/admin/backups/alice_at_old.example";
        "-s"; "imap.old.example"; "-u"; "alice@old.example";
        "-p"; "pw1"; "-m"; "_ALL_"].
Proof.
  exact (backup_command_arguments
           Sample.alice_old "/home/admin/backups/alice_at_old.example"
           eq_refl eq_refl eq_refl eq_refl).
Defined.

Lemma restore_command_arguments_witness :
  shlex.split
    (restore_command Sample.alice_new "INBOX/Sent"
       "/home/admin/backups/alice_at_old.example/INBOX/Sent.mbox") =
  Some ["imap_upload/imap_upload.py"; "--retry"; "3"; "--ssl";
        "--host"; "imap.new.example"; "--port"; "993";
        "--user"; "alice"; "--password"; "pw2"; "--box"; "INBOX/Sent";
        "/home/admin/backups/alice_at_old.example/INBOX/Sent.mbox"].
Proof.
  exact (restore_command_arguments
           Sample.alice_new "INBOX/Sent"
           "/home/admin/backups/alice_at_old.example/INBOX/Sent.mbox"
           eq_refl eq_refl eq_refl eq_refl eq_refl eq_refl).
Defined.

Lemma command_lines_need_full_verbosity_witness :
  threshold (SampleMain.main
               (SampleMain.args 3 true true true "mailboxes.csv"))
  = Some INFO /\
  forall l a,
    ~ In (LogList l a)
         (emitted INFO
            (trace (final (SampleMain.main
                             (SampleMain.args 3 true true true
                                              "mailboxes.csv"))))).
Proof.
  split; [vm_compute; reflexivity |].
  apply (command_lines_need_full_verbosity
           Sample.World Sample.subprocess_call Sample.os_makedirs
           Sample.os_mkdir Sample.cwd (fun _ => Sample.fs)
           SampleMain.open_csv
           SampleMain.open_log
           (SampleMain.args 3 true true true "mailboxes.csv")
           (Sample.start []) INFO).
  - apply Nat.ltb_lt. reflexivity.
  - vm_compute. reflexivity.
  - vm_compute. reflexivity.
Defined.

Lemma main_is_silent_by_default_witness :
  threshold (SampleMain.main
               (SampleMain.args 0 true true true "mailboxes.csv"))
  = Some CRITICAL /\
  emitted CRITICAL
    (trace (final (SampleMain.main
                     (SampleMain.args 0 true true true "mailboxes.csv"))))
  = [].
Proof.
  apply (main_is_silent_by_default
           Sample.World Sample.subprocess_call Sample.os_makedirs
           Sample.os_mkdir Sample.cwd (fun _ => Sample.fs)
           SampleMain.open_csv
           SampleMain.open_log
           (SampleMain.args 0 true true true "mailboxes.csv")
           (Sample.start [])).
  - reflexivity.
  - intros st. vm_compute. discriminate.
  - vm_compute. reflexivity.
Defined.

Lemma main_exits_on_unreadable_csv_witness :
  outcome (SampleMain.main (SampleMain.args 4 true true true "missing.csv"))
  = SystemExit 1 /\
  exists msg,
    trace (final (SampleMain.main
                    (SampleMain.args 4 true true true "missing.csv")))
    = trace (Sample.start []) ++ [Log CRITICAL msg] /\
    forall lvl, emitted lvl [Log CRITICAL msg] = [Log CRITICAL msg].
Proof.
  apply (main_exits_on_unreadable_csv
           Sample.World Sample.subprocess_call Sample.os_makedirs
           Sample.os_mkdir Sample.cwd (fun _ => Sample.fs)
           SampleMain.open_csv
           SampleMain.open_log
           (SampleMain.args 4 true true true "missing.csv")
           (Sample.start [])).
  - reflexivity.
  - intros records. vm_compute. discriminate.
Defined.

(** Each of the four ways [main] can end is met on the sample data. *)
Example main_outcomes_on_samples :
  outcome (SampleMain.main (SampleMain.args 0 true true true "mailboxes.csv"))
  = Returned 0 /\
  outcome (SampleMain.main (SampleMain.args 0 true true true "missing.csv"))
  = SystemExit 1 /\
  outcome (SampleEdge.main (SampleMain.args 0 true false false "quote.csv"))
  = Raised (Runner ValueError) /\
  outcome (main Sample.World Sample.subprocess_call Sample.os_makedirs
                Sample.os_mkdir Sample.cwd (fun _ => Sample.fs)
           SampleMain.open_csv
                (fun w => (false, w))
                (SampleMain.args 0 true true true "mailboxes.csv")
                (Sample.start []))
  = Raised (Runner OSError).
Proof. repeat split; vm_compute; reflexivity. Qed.

(** The restore of [main] reads the tree the backup of the same run left:
    in a world where the tree appears with the first child process, a run
    with backup and restore uploads the two backup files. *)
Example main_restores_what_it_backed_up :
  let r := main Sample.World Sample.subprocess_call Sample.os_makedirs
                Sample.os_mkdir Sample.cwd SampleMain.fs_after_backup
                SampleMain.open_csv SampleMain.open_log
                (SampleMain.args 0 false true true "mailboxes.csv")
                (Sample.start []) in
  SampleMain.fs_after_backup (world (Sample.start []))
                             "backups/alice_at_old.example" = None /\
  outcome r = Returned 0 /\
  map (fun c => hd EmptyString (fst c)) (calls (trace (final r)))
  = ["imapbackup/imapgrab.py"; "imapbackup/imapgrab.py";
     "imap_upload/imap_upload.py"; "imap_upload/imap_upload.py"].
Proof. vm_compute. repeat split; reflexivity. Qed.

Lemma restore_counts_empty_directory_as_success_witness :
  restore_body Sample.World Sample.subprocess_call Sample.cwd SampleEdge.fs
               "backups/" [] SampleEdge.bob_to_alice (Sample.start []) =
  (inr [SampleEdge.bob_to_alice],
   mkState (world (Sample.start []))
           [Log INFO "Restoring old bob to new alice"]).
Proof.
  exact (restore_counts_empty_directory_as_success
           Sample.World Sample.subprocess_call Sample.cwd SampleEdge.fs
           "backups/" [] SampleEdge.bob_to_alice (Sample.start [])
           eq_refl eq_refl).
Defined.

Lemma source_only_record_witness :
  restore_body Sample.World Sample.subprocess_call Sample.cwd Sample.fs
               "backups/" []
               (migration_of (dict_of_record SampleEdge.bob_record))
               (Sample.start []) = (inr [], Sample.start []) /\
  shlex.split
    (list_command (new (migration_of (dict_of_record SampleEdge.bob_record))))
  = Some ["imapbackup/imapgrab.py"; "-l"; "-s"; "None";
          "-u"; "None"; "-p"; "None"].
Proof.
  apply (source_only_record
           Sample.World Sample.subprocess_call Sample.cwd Sample.fs
           SampleEdge.bob_record "backups/" [] (Sample.start [])).
  cbn. lia.
Defined.

Lemma paths_given_to_tools_are_absolute_witness :
  forallb (quotable_backup Sample.cwd "backups/") [Sample.alice; Sample.bob]
  = true /\
  forallb (quotable_restore Sample.cwd Sample.fs "backups/")
          [Sample.alice; Sample.bob] = true /\
  always makes_absolute_directory
         (backup_mailboxes Sample.World Sample.subprocess_call
                           Sample.os_makedirs Sample.os_mkdir Sample.cwd
                           [Sample.alice; Sample.bob] "backups/") /\
  always gets_absolute_directory
         (backup_mailboxes Sample.World Sample.subprocess_call
                           Sample.os_makedirs Sample.os_mkdir Sample.cwd
                           [Sample.alice; Sample.bob] "backups/") /\
  always gets_absolute_file
         (restore_mailboxes Sample.World Sample.subprocess_call Sample.cwd
                            Sample.fs [Sample.alice; Sample.bob] "backups/").
Proof.
  assert (forallb (quotable_backup Sample.cwd "backups/")
                  [Sample.alice; Sample.bob] = true) as Hb
      by (vm_compute; reflexivity).
  assert (forallb (quotable_restore Sample.cwd Sample.fs "backups/")
                  [Sample.alice; Sample.bob] = true) as Hr
      by (vm_compute; reflexivity).
  pose proof (paths_given_to_tools_are_absolute
                Sample.World Sample.subprocess_call Sample.os_makedirs
                Sample.os_mkdir Sample.cwd Sample.fs
                [Sample.alice; Sample.bob] "backups/" eq_refl) as T.
  split; [exact Hb |]. split; [exact Hr |].
  split; [exact (proj1 T) |].
  split; [exact (proj1 (proj2 T) Hb) | exact (proj2 (proj2 T) Hr)].
Defined.

(** Without the condition on the names: of the one upload for the backup
    file whose name holds a double quote, the last argument is the folder
    path and the file path in one, and it is not an absolute path. *)
Example quoted_file_name_is_not_an_absolute_argument :
  let r := restore_mailboxes Sample.World Sample.subprocess_call Sample.cwd
             Sample.quote_fs [Sample.alice] "backups/" (Sample.start []) in
  forallb (quotable_restore Sample.cwd Sample.quote_fs "backups/")
          [Sample.alice] = false /\
  map (fun c => posixpath.isabs (last (fst c) EmptyString))
      (calls (trace (snd r))) = [false].
Proof. vm_compute. split; reflexivity. Qed.

Lemma unbalanced_quotes_raise_ValueError_witness :
  shlex.split (list_command SampleEdge.carol_old) = None.
Proof.
  apply (proj1 (unbalanced_quotes_raise_ValueError
                  Sample.World Sample.subprocess_call SampleEdge.carol_old
                  eq_refl eq_refl eq_refl)).
  reflexivity.
Defined.

Lemma backup_processes_every_mailbox_witness :
  let r := backup_mailboxes Sample.World Sample.subprocess_call
             Sample.os_makedirs Sample.os_mkdir Sample.cwd
             [Sample.alice; Sample.bob] "backups/" (Sample.start [0]) in
  r = (inr [Sample.bob_old], snd r) /\
  exists evs,
    trace (snd r) = [] ++ evs /\
    made_directories evs =
    ["backups/"; "/home/admin/backups/alice_at_old.example";
     "/home/admin/backups/bob"] /\
    List.length (calls evs) = 2 /\
    [Sample.bob_old] =
    map (fun p => old (fst p))
        (filter (fun p => returned_zero (snd p))
                (combine [Sample.alice; Sample.bob] (calls evs))).
Proof.
  assert (backup_mailboxes Sample.World Sample.subprocess_call
            Sample.os_makedirs Sample.os_mkdir Sample.cwd
            [Sample.alice; Sample.bob] "backups/" (Sample.start [0])
          = (inr [Sample.bob_old],
             snd (backup_mailboxes Sample.World Sample.subprocess_call
                    Sample.os_makedirs Sample.os_mkdir Sample.cwd
                    [Sample.alice; Sample.bob] "backups/" (Sample.start [0]))))
    as H by (vm_compute; reflexivity).
  split; [exact H |].
  exact (backup_processes_every_mailbox
           Sample.World Sample.subprocess_call Sample.os_makedirs
           Sample.os_mkdir Sample.cwd
           [Sample.alice; Sample.bob] "backups/" (Sample.start [0])
           [Sample.bob_old] _ H).
Defined.

Lemma restore_prints_exit_statuses_witness :
  let r := restore_mailboxes Sample.World Sample.subprocess_call Sample.cwd
             Sample.fs [Sample.alice; Sample.bob] "backups/"
             (Sample.start [1]) in
  r = (inr [], snd r) /\
  exists evs,
    trace (snd r) = [] ++ evs /\
    map Some (printed evs) = map snd (calls evs).
Proof.
  assert (restore_mailboxes Sample.World Sample.subprocess_call Sample.cwd
            Sample.fs [Sample.alice; Sample.bob] "backups/" (Sample.start [1])
          = (inr [],
             snd (restore_mailboxes Sample.World Sample.subprocess_call
                    Sample.cwd Sample.fs [Sample.alice; Sample.bob]
                    "backups/" (Sample.start [1]))))
    as H by (vm_compute; reflexivity).
  split; [exact H |].
  exact (restore_prints_exit_statuses
           Sample.World Sample.subprocess_call Sample.cwd Sample.fs
           [Sample.alice; Sample.bob] "backups/" (Sample.start [1])
           [] _ H).
Defined.
